(** * feishu_reader: type resolution, paginated drains and wiki traversal

    A shallow embedding of [scripts/feishu_reader.py]
    (class [FeishuUnifiedReader]) and the properties of its resource-type
    resolution, its paginated fetch loops and its recursive wiki traversal.

    Conventions of the embedding.
    - Python [str] is [string]; the literals of the source are kept as they
      are (UTF-8 bytes).
    - A decoded response payload is a record holding the keys the code reads;
      a key read with [.get(k, default)] that is missing is its default.
      Payload parts that the code only passes through are [Json] values.
    - [self._make_request] is the transport: an arbitrary function of the
      request and of the state of the outside world, which returns the
      decoded payload or raises.
    - [logger] calls append to a log carried in the state.
    - A [while True] loop takes a [fuel] argument that bounds its number of
      iterations; running out of it is the outcome [None], which stands for
      a loop that has not stopped yet. *)

From Stdlib Require Import String Ascii List Arith ZArith Lia Bool.
From Stdlib Require Import DecimalString.
Import ListNotations.
Open Scope string_scope.

Set Implicit Arguments.
Set Warnings "-register-all".

(** ** Strings *)

(** [token.startswith(prefix)] *)
Definition startswith (pre s : string) : bool := String.prefix pre s.

(** [sub in s] *)
Fixpoint contains (sub s : string) : bool :=
  startswith sub s ||
  match s with
  | EmptyString => false
  | String _ s' => contains sub s'
  end.

(** [s.split(sep)] for a separator of one character. *)
Fixpoint split (sep : ascii) (s : string) : list string :=
  match s with
  | EmptyString => [EmptyString]
  | String c s' =>
      if Ascii.eqb c sep then EmptyString :: split sep s'
      else match split sep s' with
           | h :: t => String c h :: t
           | [] => [String c EmptyString]
           end
  end.

(** [s.split("?")[0]] *)
Definition before_query (s : string) : string := hd EmptyString (split "?" s).

(** Truth value of a string: [if part:] *)
Definition nonempty (s : string) : bool :=
  match s with EmptyString => false | _ => true end.

(** [part in [m1, m2, ...]] *)
Definition in_list (s : string) (l : list string) : bool :=
  existsb (String.eqb s) l.

(** An f-string field [{x}] where [x] may be [None]. *)
Definition fstr (x : option string) : string :=
  match x with Some s => s | None => "None" end.

(** [if x:] for a value that is [None] or a string. *)
Definition truthy (x : option string) : option string :=
  match x with
  | Some s => if nonempty s then Some s else None
  | None => None
  end.

(** [d.get(k, default)] on an optional key. *)
Definition get_default {A} (default : A) (x : option A) : A :=
  match x with Some a => a | None => default end.

(** ** Data model *)

(** A decoded JSON value that the reader passes through without looking
    inside: document metadata, blocks, records, fields, cell values. *)
Inductive Json : Type :=
| JNull
| JBool (b : bool)
| JNum (n : nat)
| JStr (s : string)
| JArr (l : list Json)
| JObj (fields : list (string * Json)).

(** One page of a list endpoint: [data.get("items", [])],
    [data.get("has_more", False)], [data.get("page_token")]. *)
Record Page (A : Type) : Type := mkPage {
  get_items : list A;
  get_has_more : bool;
  get_page_token : option string
}.
Arguments mkPage {A}.

(** The document types of the class. *)
Definition TYPE_DOCX := "docx".
Definition TYPE_DOC := "doc".
Definition TYPE_SHEET := "sheet".
Definition TYPE_BITABLE := "bitable".
Definition TYPE_WIKI := "wiki".
Definition TYPE_FILE := "file".
Definition TYPE_SLIDES := "slides".

(** [TOKEN_PREFIXES]; a Python dict is iterated in insertion order. *)
Definition TOKEN_PREFIXES : list (string * string) :=
  [ ("docx_", TYPE_DOCX);
    ("doc_", TYPE_DOC);
    ("sheet_", TYPE_SHEET);
    ("shtcn", TYPE_SHEET);
    ("base", TYPE_BITABLE);
    ("bascn", TYPE_BITABLE);
    ("wikcn", TYPE_WIKI) ].

(** One sheet of a spreadsheet's metadata. *)
Record Sheet : Type := mkSheet {
  get_sheet_id : option string;
  get_sheet_title : option string;
  sheet_properties : Json
}.

(** [meta.get("spreadsheet", {})] *)
Record Spreadsheet : Type := mkSpreadsheet {
  spreadsheet_title : option string;
  spreadsheet_owner_id : option string;
  spreadsheet_sheets : list Sheet
}.

(** An entry of [sheets_data]: the sheet with its values or with the error
    of its values request. *)
Record SheetData : Type := mkSheetData {
  sd_sheet_id : option string;
  sd_title : string;
  sd_properties : Sheet;
  sd_values : option Json;
  sd_error : option string
}.

(** One table of a bitable. *)
Record Table : Type := mkTable {
  get_table_id : option string;
  get_table_name : option string
}.

(** An entry of [tables_content]. *)
Record TableData : Type := mkTableData {
  td_table_id : option string;
  td_name : string;
  td_fields : option (list Json);
  td_records : option (list Json);
  td_record_count : option nat;
  td_error : option string
}.

(** The result of one of the four content readers, or what [_read_wiki] puts
    in their place ([{"error": ...}], [{"note": ...}]). *)
Inductive Content : Type :=
| DocxContent (document : Json) (blocks : list Json) (text_content : string)
| DocContent (document : Json) (note : string)
| SheetContent (title owner_id : string) (sheet_count : nat)
               (sheets : list SheetData)
| BitableContent (app : Json) (tables : list TableData) (table_count : nat)
| ErrorContent (error : string)
| NoteContent (note : string).

(** A wiki node: the keys of the platform's node object that the reader
    looks at, and the four keys that [_read_wiki_nodes_recursive] writes into
    the same dict; a key that is absent is [None]. Every node dict comes
    out of the decoding of one response and is held by one list only, so
    writing to a dict in place is giving the list a new value at that
    position. *)
Inductive Node : Type := mkNode {
  get_node_token : option string;
  get_obj_type : option string;
  get_obj_token : option string;
  get_has_child : bool;
  get_space_id : option string;
  get_content : option Content;
  get_content_error : option string;
  get_children : option (list Node);
  get_children_error : option string
}.

(** [node["content"] = c] and the three other assignments. *)
Definition set_content (c : Content) (n : Node) : Node :=
  mkNode (get_node_token n) (get_obj_type n) (get_obj_token n)
         (get_has_child n) (get_space_id n)
         (Some c) (get_content_error n) (get_children n) (get_children_error n).
Definition set_content_error (e : string) (n : Node) : Node :=
  mkNode (get_node_token n) (get_obj_type n) (get_obj_token n)
         (get_has_child n) (get_space_id n)
         (get_content n) (Some e) (get_children n) (get_children_error n).
Definition set_children (cs : list Node) (n : Node) : Node :=
  mkNode (get_node_token n) (get_obj_type n) (get_obj_token n)
         (get_has_child n) (get_space_id n)
         (get_content n) (get_content_error n) (Some cs) (get_children_error n).
Definition set_children_error (e : string) (n : Node) : Node :=
  mkNode (get_node_token n) (get_obj_type n) (get_obj_token n)
         (get_has_child n) (get_space_id n)
         (get_content n) (get_content_error n) (get_children n) (Some e).

(** The empty dict [{}] read as a node. *)
Definition empty_node : Node :=
  mkNode None None None false None None None None None.

(** A node object as the platform sends it. *)
Definition platform_node (tok ty obj : string) (child : bool) (space : string)
  : Node :=
  mkNode (Some tok) (Some ty) (Some obj) child (Some space)
         None None None None.

(** The result of [_read_wiki]. *)
Record WikiResult : Type := mkWikiResult {
  wiki_node : Node;
  wiki_content : Content;
  wiki_children : list Node
}.

(** The result of [read]: the reader's dict with its ["_meta"] entry. *)
Record ReadResult : Type := mkReadResult {
  result : Content + WikiResult;
  meta_type : string;
  meta_token : string
}.

(** The result of [read_wiki_space]. *)
Record SpaceResult : Type := mkSpaceResult {
  space : Json;
  nodes : list Node;
  node_count : nat
}.

(** ** Requests *)

(** The calls of [_make_request], by URL and parameters, each with the type
    of the payload it decodes. *)
Inductive Request : Type -> Type :=
| GetDocument (doc_token : string) : Request (option Json)
    (* /docx/v1/documents/{doc_token}; the payload's "document" *)
| ListBlocks (doc_token : string) (page_size : nat)
             (page_token : option string) : Request (Page Json)
    (* /docx/v1/documents/{doc_token}/blocks *)
| GetDocMeta (doc_token : string) : Request Json
    (* /doc/v2/meta/{doc_token} *)
| GetSpreadsheet (sheet_token : string) : Request (option Spreadsheet)
    (* /sheets/v3/spreadsheets/{sheet_token}; the payload's "spreadsheet" *)
| GetSheetValues (sheet_token sheet_id : string) : Request (option Json)
    (* /sheets/v2/spreadsheets/{sheet_token}/values/{sheet_id};
       the payload's "valueRange"."values" *)
| GetBitableApp (app_token : string) : Request (option Json)
    (* /bitable/v1/apps/{app_token}; the payload's "app" *)
| ListTables (app_token : string) : Request (list Table)
    (* /bitable/v1/apps/{app_token}/tables; the payload's "items" *)
| ListFields (app_token table_id : string) : Request (list Json)
    (* .../tables/{table_id}/fields; the payload's "items" *)
| ListRecords (app_token table_id : string) (page_size : nat)
              (page_token : option string) : Request (Page Json)
    (* .../tables/{table_id}/records *)
| GetWikiNode (token : string) : Request (option Node)
    (* /wiki/v2/spaces/get_node?token=...; the payload's "node" *)
| ListWikiNodes (space_id : string) (page_size : nat)
                (parent_node_token page_token : option string)
    : Request (Page Node)
    (* /wiki/v2/spaces/{space_id}/nodes *)
| GetWikiSpace (space_id : string) : Request (option Json).
    (* /wiki/v2/spaces/{space_id}; the payload's "space" *)

(** ** Outcomes, state and the reader's monad *)

(** A call returns a value or raises an exception; [except Exception as e]
    only ever uses [str(e)]. *)
Inductive Result (A : Type) : Type :=
| Return (a : A)
| Raise (e : string).
Arguments Return {A}.
Arguments Raise {A}.

Inductive Level : Type := INFO | WARNING.

(** The state: the outside world the transport talks to, and the log. *)
Record State (W : Type) : Type := mkState {
  world : W;
  log : list (Level * string)
}.

(** A computation of the reader: from a state, either the loop budget runs
    out ([None]) or there is an outcome and a new state. *)
Definition M (W A : Type) : Type := State W -> option (Result A * State W).

Definition ret {W A} (a : A) : M W A := fun s => Some (Return a, s).

Definition raise {W A} (e : string) : M W A := fun s => Some (Raise e, s).

Definition unfinished {W A} : M W A := fun _ => None.

Definition bind {W A B} (m : M W A) (k : A -> M W B) : M W B :=
  fun s =>
    match m s with
    | None => None
    | Some (Return a, s') => k a s'
    | Some (Raise e, s') => Some (Raise e, s')
    end.

(** [try: m  except Exception as e: h(str(e))] *)
Definition try_except {W A} (m : M W A) (h : string -> M W A) : M W A :=
  fun s =>
    match m s with
    | None => None
    | Some (Return a, s') => Some (Return a, s')
    | Some (Raise e, s') => h e s'
    end.

(** A call that can raise but touches no state. *)
Definition lift {W A} (r : Result A) : M W A := fun s => Some (r, s).

Definition logger {W} (lvl : Level) (msg : string) : M W unit :=
  fun s => Some (Return tt, mkState (world s) (log s ++ [(lvl, msg)])%list).

Declare Scope reader_scope.
Delimit Scope reader_scope with reader.
Notation "x <- m ;; k" := (bind m (fun x => k))
  (at level 61, m at next level, right associativity) : reader_scope.
Notation "m ;; k" := (bind m (fun _ => k))
  (at level 61, right associativity) : reader_scope.
Open Scope reader_scope.

(** [for x in xs: ...] where each round yields the entry for [x]: the dict
    appended to the result list, or [x] itself after it was written to. An
    exception that leaves the body leaves the loop. *)
Fixpoint for_each {W A B} (body : A -> M W B) (xs : list A) : M W (list B) :=
  match xs with
  | [] => ret []
  | x :: xs' =>
      y <- body x ;;
      ys <- for_each body xs' ;;
      ret (y :: ys)
  end.

(** The rounds of such a loop, one after the other: [round x s y s'] says
    that the round for [x], started in [s], yields [y] and ends in [s'];
    each round starts where the round before it ended. *)
Inductive rounds {W A B} (round : A -> State W -> B -> State W -> Prop)
  : list A -> State W -> list B -> State W -> Prop :=
| rounds_nil s : rounds round [] s [] s
| rounds_cons x xs y ys s s1 s2 :
    round x s y s1 ->
    rounds round xs s1 ys s2 ->
    rounds round (x :: xs) s (y :: ys) s2.

(** [enumerate(l)] *)
Definition enumerate {A} (l : list A) : list (nat * A) :=
  combine (seq 0 (length l)) l.

(** [x == s] for [x] that may be [None]. *)
Definition is_str (x : option string) (s : string) : bool :=
  match x with Some t => String.eqb t s | None => false end.

(** ** The reader *)

(** What the reader calls outside itself. *)
Record Env (W : Type) : Type := mkEnv {
  (** [self._make_request], acting on the outside world. *)
  _make_request : forall R : Type, Request R -> W -> Result R * W;
  (** [urllib.parse.urlparse(url).path]; [urlparse] raises [ValueError] on
      some malformed network locations. *)
  urlparse_path : string -> Result string;
  (** [self._extract_text_from_blocks], the rendering of blocks as text. *)
  _extract_text_from_blocks : list Json -> Result string
}.

Section Reader.

Variable W : Type.
Variable self : Env W.

Definition request {R} (r : Request R) : M W R :=
  fun s =>
    let (res, w') := _make_request self r (world s) in
    Some (res, mkState w' (log s)).

(** *** Type detection *)

Definition URL_MARKERS : list string :=
  ["docx"; "doc"; "wiki"; "sheets"; "base"; "file"].

(** The first loop of [_extract_token_from_url], over
    [enumerate(path_parts)]: the value it returns, if it returns. *)
Fixpoint token_after_marker (path_parts : list string)
         (enumerated : list (nat * string)) : option string :=
  match enumerated with
  | [] => None
  | (i, part) :: rest =>
      if in_list part URL_MARKERS then
        if (i + 1 <? length path_parts)%nat
        then Some (before_query (nth (i + 1) path_parts EmptyString))
        else token_after_marker path_parts rest
      else token_after_marker path_parts rest
  end.

(** Its second loop, over [reversed(path_parts)]. *)
Fixpoint last_nonempty (reversed_parts : list string) : option string :=
  match reversed_parts with
  | [] => None
  | part :: rest =>
      if nonempty part then Some (before_query part)
      else last_nonempty rest
  end.

Definition _extract_token_from_url (url : string) : Result string :=
  match urlparse_path self url with
  | Raise e => Raise e
  | Return path =>
      let path_parts := split "/" path in
      match token_after_marker path_parts (enumerate path_parts) with
      | Some token => Return token
      | None =>
          match last_nonempty (rev path_parts) with
          | Some token => Return token
          | None => Return url
          end
      end
  end.

(** The loop of [detect_type] over [TOKEN_PREFIXES.items()]: the type it
    returns, if it returns. *)
Fixpoint match_prefix (token : string) (prefixes : list (string * string))
  : option string :=
  match prefixes with
  | [] => None
  | (prefix, doc_type) :: rest =>
      if startswith prefix token || contains prefix token
      then Some doc_type
      else match_prefix token rest
  end.

Definition detect_type (token_or_url : string) : M W (string * string) :=
  token <- (if startswith "http" token_or_url
            then lift (_extract_token_from_url token_or_url)
            else ret token_or_url) ;;
  match match_prefix token TOKEN_PREFIXES with
  | Some doc_type => ret (doc_type, token)
  | None =>
      logger WARNING ("无法识别token类型: " ++ token ++ "，默认使用docx") ;;
      ret (TYPE_DOCX, token)
  end.

(** *** Rich documents *)

(** The [while True] of [_get_all_blocks]. *)
Fixpoint _get_all_blocks_loop (fuel : nat) (doc_token : string)
         (page_token : option string) (all_items : list Json)
  : M W (list Json) :=
  match fuel with
  | 0 => unfinished
  | S fuel' =>
      data <- request (ListBlocks doc_token 500 (truthy page_token)) ;;
      let all_items := (all_items ++ get_items data)%list in
      if negb (get_has_more data) then ret all_items
      else
        let page_token := get_page_token data in
        _get_all_blocks_loop fuel' doc_token page_token all_items
  end.

(** Returns the list under the key ["items"]. *)
Definition _get_all_blocks (fuel : nat) (doc_token : string)
           (page_token : option string) : M W (list Json) :=
  _get_all_blocks_loop fuel doc_token page_token [].

Definition _read_docx (fuel : nat) (doc_token : string) : M W Content :=
  doc_info <- request (GetDocument doc_token) ;;
  blocks <- _get_all_blocks fuel doc_token None ;;
  text_content <- lift (_extract_text_from_blocks self blocks) ;;
  ret (DocxContent (get_default (JObj []) doc_info) blocks text_content).

(** *** Legacy documents *)

Definition _read_doc (fuel : nat) (doc_token : string) : M W Content :=
  try_except
    (meta <- request (GetDocMeta doc_token) ;;
     ret (DocContent meta
            "旧版文档(doc)API功能有限，建议使用新版文档(docx)"))
    (fun e =>
       logger WARNING
              ("读取旧版文档失败，尝试作为新版文档读取: " ++ e) ;;
       _read_docx fuel doc_token).

(** *** Spreadsheets *)

Definition _read_sheet (sheet_token : string) : M W Content :=
  meta <- request (GetSpreadsheet sheet_token) ;;
  let spreadsheet := get_default (mkSpreadsheet None None []) meta in
  let sheets := spreadsheet_sheets spreadsheet in
  sheets_data <-
    for_each
      (fun sheet =>
         let sheet_id := get_sheet_id sheet in
         let title := get_default "Sheet" (get_sheet_title sheet) in
         try_except
           (values <- request (GetSheetValues sheet_token (fstr sheet_id)) ;;
            ret (mkSheetData sheet_id title sheet
                   (Some (get_default (JArr []) values)) None))
           (fun e =>
              logger WARNING ("读取工作表 " ++ title ++ " 失败: " ++ e) ;;
              ret (mkSheetData sheet_id title sheet None (Some e))))
      sheets ;;
  ret (SheetContent (get_default "" (spreadsheet_title spreadsheet))
         (get_default "" (spreadsheet_owner_id spreadsheet))
         (length sheets) sheets_data).

(** *** Bitables *)

(** The [while True] of [_get_all_bitable_records]. *)
Fixpoint _get_all_bitable_records_loop (fuel : nat)
         (app_token table_id : string)
         (page_token : option string) (all_records : list Json)
  : M W (list Json) :=
  match fuel with
  | 0 => unfinished
  | S fuel' =>
      data <- request (ListRecords app_token table_id 500
                                   (truthy page_token)) ;;
      let all_records := (all_records ++ get_items data)%list in
      if negb (get_has_more data) then ret all_records
      else
        let page_token := get_page_token data in
        if (10000 <? Z.of_nat (length all_records))%Z then
          logger WARNING "记录数超过10000，停止获取更多数据" ;;
          ret all_records
        else
          _get_all_bitable_records_loop fuel' app_token table_id
                                        page_token all_records
  end.

Definition _get_all_bitable_records (fuel : nat)
           (app_token table_id : string) : M W (list Json) :=
  _get_all_bitable_records_loop fuel app_token table_id None [].

Definition _read_bitable (fuel : nat) (app_token : string) : M W Content :=
  meta <- request (GetBitableApp app_token) ;;
  tables <- request (ListTables app_token) ;;
  tables_content <-
    for_each
      (fun table =>
         let table_id := get_table_id table in
         let table_name := get_default "Table" (get_table_name table) in
         try_except
           (fields <- request (ListFields app_token (fstr table_id)) ;;
            records <- _get_all_bitable_records fuel app_token
                                                (fstr table_id) ;;
            ret (mkTableData table_id table_name (Some fields)
                   (Some records) (Some (length records)) None))
           (fun e =>
              logger WARNING ("读取数据表 " ++ table_name ++ " 失败: " ++ e) ;;
              ret (mkTableData table_id table_name None None None
                     (Some e))))
      tables ;;
  ret (BitableContent (get_default (JObj []) meta) tables_content
         (length tables)).

(** *** Wiki *)

Definition _get_wiki_node_info (token : string) : M W Node :=
  data <- request (GetWikiNode token) ;;
  ret (get_default empty_node data).

(** The [while True] of [_get_wiki_children]. *)
Fixpoint _get_wiki_children_loop (fuel : nat)
         (space_id parent_token : string)
         (page_token : option string) (all_children : list Node)
  : M W (list Node) :=
  match fuel with
  | 0 => unfinished
  | S fuel' =>
      data <- request (ListWikiNodes space_id 50 (Some parent_token)
                                     (truthy page_token)) ;;
      let all_children := (all_children ++ get_items data)%list in
      if negb (get_has_more data) then ret all_children
      else
        let page_token := get_page_token data in
        _get_wiki_children_loop fuel' space_id parent_token
                                page_token all_children
  end.

Definition _get_wiki_children (fuel : nat) (space_id parent_token : string)
  : M W (list Node) :=
  _get_wiki_children_loop fuel space_id parent_token None [].

(** The content of the node read by [_read_wiki], by its [obj_type]. *)
Definition read_wiki_content (fuel : nat) (obj_type obj_token : string)
  : M W Content :=
  if (obj_type =? "docx") || (obj_type =? "doc") then
    try_except (_read_docx fuel obj_token)
      (fun e =>
         logger WARNING ("读取Wiki文档内容失败: " ++ e) ;;
         ret (ErrorContent e))
  else if obj_type =? "sheet" then
    try_except (_read_sheet obj_token)
      (fun e =>
         logger WARNING ("读取Wiki表格内容失败: " ++ e) ;;
         ret (ErrorContent e))
  else if obj_type =? "bitable" then
    try_except (_read_bitable fuel obj_token)
      (fun e =>
         logger WARNING ("读取Wiki多维表格内容失败: " ++ e) ;;
         ret (ErrorContent e))
  else
    ret (NoteContent ("暂不支持读取类型 " ++ obj_type ++ " 的内容")).

(** Its list of children: [children = []], replaced by the children of the
    node when it declares some and they can be listed. *)
Definition read_wiki_children (fuel : nat) (node_info : Node)
           (token : string) : M W (list Node) :=
  if get_has_child node_info then
    try_except
      (_get_wiki_children fuel (fstr (get_space_id node_info)) token)
      (fun e =>
         logger WARNING ("获取子节点失败: " ++ e) ;;
         ret [])
  else ret [].

Definition _read_wiki (fuel : nat) (token : string) : M W WikiResult :=
  node_info <- _get_wiki_node_info token ;;
  let obj_type := get_default "" (get_obj_type node_info) in
  let obj_token := get_default "" (get_obj_token node_info) in
  logger INFO ("Wiki节点: obj_type=" ++ obj_type
               ++ ", obj_token=" ++ obj_token) ;;
  content <- read_wiki_content fuel obj_type obj_token ;;
  children <- read_wiki_children fuel node_info token ;;
  ret (mkWikiResult node_info content children).

(** The [while True] of [_get_wiki_space_nodes]. *)
Fixpoint _get_wiki_space_nodes_loop (fuel : nat) (space_id : string)
         (parent_token : option string)
         (page_token : option string) (all_nodes : list Node)
  : M W (list Node) :=
  match fuel with
  | 0 => unfinished
  | S fuel' =>
      data <- request (ListWikiNodes space_id 50 (truthy parent_token)
                                     (truthy page_token)) ;;
      let all_nodes := (all_nodes ++ get_items data)%list in
      if negb (get_has_more data) then ret all_nodes
      else
        let page_token := get_page_token data in
        _get_wiki_space_nodes_loop fuel' space_id parent_token
                                   page_token all_nodes
  end.

Definition _get_wiki_space_nodes (fuel : nat) (space_id : string)
           (parent_token : option string) : M W (list Node) :=
  _get_wiki_space_nodes_loop fuel space_id parent_token None [].

(** The first [try] of the loop body of [_read_wiki_nodes_recursive]:
    the node's content, by its [obj_type]. *)
Definition resolve_content (fuel : nat) (node : Node) : M W Node :=
  let obj_type := get_obj_type node in
  let obj_token := get_obj_token node in
  try_except
    (if is_str obj_type "docx" || is_str obj_type "doc" then
       c <- _read_docx fuel (fstr obj_token) ;; ret (set_content c node)
     else if is_str obj_type "sheet" then
       c <- _read_sheet (fstr obj_token) ;; ret (set_content c node)
     else if is_str obj_type "bitable" then
       c <- _read_bitable fuel (fstr obj_token) ;; ret (set_content c node)
     else ret node)
    (fun e => ret (set_content_error e node)).

(** Its second [try]: the node's children, read by [recurse] one level
    down. *)
Definition expand_children (fuel : nat) (space_id : string)
           (recurse : list Node -> M W (list Node)) (node : Node)
  : M W Node :=
  let node_token := get_node_token node in
  if get_has_child node then
    try_except
      (children <- _get_wiki_space_nodes fuel space_id node_token ;;
       children <- recurse children ;;
       ret (set_children children node))
      (fun e => ret (set_children_error e node))
  else ret node.

(** The loop body of [_read_wiki_nodes_recursive]. *)
Definition visit_node (fuel : nat) (space_id : string)
           (recurse : list Node -> M W (list Node)) (node : Node)
  : M W Node :=
  node <- resolve_content fuel node ;;
  expand_children fuel space_id recurse node.

(** [fuel] also bounds the depth of the recursion. *)
Fixpoint _read_wiki_nodes_recursive (fuel : nat) (space_id : string)
         (nodes : list Node) (depth : nat) : M W (list Node) :=
  if (5 <? depth)%nat then ret nodes
  else
    match fuel with
    | 0 => unfinished
    | S fuel' =>
        for_each
          (visit_node fuel space_id
             (fun children =>
                _read_wiki_nodes_recursive fuel' space_id children
                                           (depth + 1)))
          nodes
    end.

Definition read_wiki_space (fuel : nat) (space_id : string)
           (recursive : bool) : M W SpaceResult :=
  space_info <- request (GetWikiSpace space_id) ;;
  nodes <- _get_wiki_space_nodes fuel space_id None ;;
  nodes <- (if recursive
            then _read_wiki_nodes_recursive fuel space_id nodes 0
            else ret nodes) ;;
  ret (mkSpaceResult (get_default (JObj []) space_info) nodes
         (length nodes)).

(** *** The unified entry point *)

(** The dict [readers] of [read], and its [.get]. *)
Definition readers (fuel : nat) (detected_type : string)
  : option (string -> M W (Content + WikiResult)) :=
  if detected_type =? TYPE_DOCX then
    Some (fun token => r <- _read_docx fuel token ;; ret (inl r))
  else if detected_type =? TYPE_DOC then
    Some (fun token => r <- _read_doc fuel token ;; ret (inl r))
  else if detected_type =? TYPE_SHEET then
    Some (fun token => r <- _read_sheet token ;; ret (inl r))
  else if detected_type =? TYPE_BITABLE then
    Some (fun token => r <- _read_bitable fuel token ;; ret (inl r))
  else if detected_type =? TYPE_WIKI then
    Some (fun token => r <- _read_wiki fuel token ;; ret (inr r))
  else None.

Definition read (fuel : nat) (token_or_url : string)
           (doc_type : option string) : M W ReadResult :=
  detected <-
    match truthy doc_type with
    | Some doc_type =>
        token <- (if startswith "http" token_or_url
                  then lift (_extract_token_from_url token_or_url)
                  else ret token_or_url) ;;
        ret (doc_type, token)
    | None => detect_type token_or_url
    end ;;
  let detected_type := fst detected in
  let token := snd detected in
  logger INFO ("读取文档: type=" ++ detected_type
               ++ ", token=" ++ token) ;;
  match readers fuel detected_type with
  | None => raise ("不支持的文档类型: " ++ detected_type)
  | Some reader =>
      result <- reader token ;;
      ret (mkReadResult result detected_type token)
  end.

End Reader.

(** ** Notions used to state the properties *)

(** [sub] occurs in [s]. *)
Definition occurs_in (sub s : string) : Prop :=
  exists a b, s = a ++ sub ++ b.

(** [c] is a character of [s]. *)
Fixpoint has_char (c : ascii) (s : string) : Prop :=
  match s with
  | EmptyString => False
  | String c' s' => c' = c \/ has_char c s'
  end.

(** [token] is [segment] without its query string: what stands before the
    first ["?"] of [segment]. *)
Definition without_query (segment token : string) : Prop :=
  ~ has_char "?" token /\
  (segment = token \/ exists q, segment = token ++ String "?" q).

(** The state after [logger] has written one more line. *)
Definition logged {W} (lvl : Level) (msg : string) (s : State W) : State W :=
  mkState (world s) (log s ++ [(lvl, msg)])%list.

(** A node carries none of the four keys the traversal writes. *)
Definition unvisited (n : Node) : Prop :=
  get_content n = None /\ get_content_error n = None /\
  get_children n = None /\ get_children_error n = None.

(** Two dicts are the same platform node: they agree on the platform's
    keys. *)
Definition same_node (n n' : Node) : Prop :=
  get_node_token n' = get_node_token n /\
  get_obj_type n' = get_obj_type n /\
  get_obj_token n' = get_obj_token n /\
  get_has_child n' = get_has_child n /\
  get_space_id n' = get_space_id n.

(** *** Wiki traversal *)

(** [obj_type] is one of the types the traversal has a reader for. *)
Definition readable (obj_type : option string) : bool :=
  is_str obj_type "docx" || is_str obj_type "doc"
  || is_str obj_type "sheet" || is_str obj_type "bitable".

(** The reader that the [if]/[elif] chain of the traversal calls for a
    node, if any. *)
Definition content_reader {W} (self : Env W) (fuel : nat) (node : Node)
  : option (M W Content) :=
  let obj_type := get_obj_type node in
  let obj_token := get_obj_token node in
  if is_str obj_type "docx" || is_str obj_type "doc"
  then Some (_read_docx self fuel (fstr obj_token))
  else if is_str obj_type "sheet" then Some (_read_sheet self (fstr obj_token))
  else if is_str obj_type "bitable"
  then Some (_read_bitable self fuel (fstr obj_token))
  else None.

(** The first [try] of the loop body, from [n] to [n']: [content] or
    [content_error] is written when the type of the node has a reader, and
    none of them otherwise; the key that is not written is as it was. *)
Definition content_written (n n' : Node) : Prop :=
  if readable (get_obj_type n)
  then (exists c, get_content n' = Some c
                  /\ get_content_error n' = get_content_error n)
       \/ (exists e, get_content_error n' = Some e
                     /\ get_content n' = get_content n)
  else get_content n' = get_content n
       /\ get_content_error n' = get_content_error n.

(** The second [try], from [n] to [n']: when the node declares children,
    [children_error] is written, or [children] is, with a list of fetched
    nodes (they satisfy [fetched]) that were treated as [below] says. *)
Definition children_written (fetched : Node -> Prop)
           (below : Node -> Node -> Prop) (n n' : Node) : Prop :=
  if get_has_child n
  then (exists e, get_children_error n' = Some e
                  /\ get_children n' = get_children n)
       \/ (exists cs cs',
              Forall fetched cs
              /\ Forall2 below cs cs'
              /\ get_children n' = Some cs'
              /\ get_children_error n' = get_children_error n)
  else get_children n' = get_children n
       /\ get_children_error n' = get_children_error n.

(** What the traversal leaves on a node [n], as [n'], when [k] levels are
    still open below it (so [k = 0] at depth 6): with no level left, [n'] is
    [n] as it was fetched; else [n'] is the same node after the two [try]s
    of the loop body, its children being treated in the same way one level
    down. *)
Fixpoint explored (fetched : Node -> Prop) (k : nat) (n n' : Node) : Prop :=
  match k with
  | 0 => n' = n
  | S k' =>
      same_node n n'
      /\ content_written n n'
      /\ children_written fetched (explored fetched k') n n'
  end.

(** The first [try] of the loop body on the node [n], from [s] to [s']:
    when the type of the node has a reader, [n'] is [n] with the content
    that this reader returned from [s], or with the message of the exception
    that it raised from [s]; otherwise nothing happens. The budget of the
    reader's own page loops is left open. *)
Definition content_resolved {W} (self : Env W) (n : Node) (s : State W)
           (n' : Node) (s' : State W) : Prop :=
  if readable (get_obj_type n)
  then exists fuel reader,
         content_reader self fuel n = Some reader
         /\ ((exists c,
                 reader s = Some (Return c, s') /\ n' = set_content c n)
             \/ (exists e,
                    reader s = Some (Raise e, s')
                    /\ n' = set_content_error e n))
  else n' = n /\ s' = s.

(** The second [try] on the node [n], from [s] to [s']: when the node
    declares children, either the listing of its children raised from [s]
    and [n'] is [n] with the message, or it returned a list, this list was
    treated as [below] says, and [n'] is [n] with the outcome as its
    children; otherwise nothing happens. *)
Definition children_expanded {W} (self : Env W) (space_id : string)
           (below : list Node -> State W -> list Node -> State W -> Prop)
           (n : Node) (s : State W) (n' : Node) (s' : State W) : Prop :=
  if get_has_child n
  then exists fuel,
         (exists e,
             _get_wiki_space_nodes self fuel space_id (get_node_token n) s
             = Some (Raise e, s')
             /\ n' = set_children_error e n)
         \/ (exists children s1 children',
                _get_wiki_space_nodes self fuel space_id (get_node_token n) s
                = Some (Return children, s1)
                /\ below children s1 children' s'
                /\ n' = set_children children' n)
  else n' = n /\ s' = s.

(** What the traversal does to a list [nodes] from [s], when [k] levels are
    still open (so [k = 0] at depth 6): with no level left the list is
    returned as it is and nothing is requested; else each node in turn goes
    through the first [try], then through the second, its children being
    traversed with one level less. *)
Fixpoint traversed {W} (self : Env W) (space_id : string) (k : nat)
         (nodes : list Node) (s : State W) (nodes' : list Node)
         (s' : State W) : Prop :=
  match k with
  | 0 => nodes' = nodes /\ s' = s
  | S k' =>
      rounds
        (fun n s n' s' =>
           exists n1 s1,
             content_resolved self n s n1 s1
             /\ children_expanded self space_id
                                  (traversed self space_id k') n1 s1 n' s')
        nodes s nodes' s'
  end.

(** On a node and on all the nodes below it, [content] and [content_error]
    are not both present, and neither are [children] and
    [children_error]. *)
Inductive exclusive : Node -> Prop :=
| exclusive_node n :
    (get_content n = None \/ get_content_error n = None) ->
    (get_children n = None \/ get_children_error n = None) ->
    (forall cs, get_children n = Some cs -> Forall exclusive cs) ->
    exclusive n.

(** Every node that the platform lists satisfies [fetched]. *)
Definition lists_only {W} (self : Env W) (fetched : Node -> Prop) : Prop :=
  forall space_id page_size parent_node_token page_token s p s',
    request self (ListWikiNodes space_id page_size parent_node_token
                                page_token) s
    = Some (Return p, s') ->
    Forall fetched (get_items p).

(** A response to a list request that announces a further page. *)
Definition reports_more {R} (r : Request R) : Result R -> bool :=
  match r in Request R return Result R -> bool with
  | ListBlocks _ _ _ | ListRecords _ _ _ _ | ListWikiNodes _ _ _ _ =>
      fun res => match res with
                 | Return p => get_has_more p
                 | Raise _ => false
                 end
  | _ => fun _ => false
  end.

(** The world can announce only so many further pages: [left] bounds their
    number. It never grows, and it shrinks with each response that
    announces a further page. *)
Definition runs_dry {W} (self : Env W) (left : W -> nat) : Prop :=
  forall R (r : Request R) w,
    left (snd (_make_request self r w)) <= left w
    /\ (reports_more r (fst (_make_request self r w)) = true ->
        left (snd (_make_request self r w)) < left w).

(** A computation that, started where at most [b] further pages can be
    announced, comes to an end, by a return or by an exception, and does not
    raise that number. *)
Definition settles {W A} (left : W -> nat) (b : nat) (m : M W A) : Prop :=
  forall s,
    left (world s) <= b ->
    exists r s', m s = Some (r, s') /\ left (world s') <= left (world s).

(** The same, for a computation that ends by a return. *)
Definition returns {W A} (left : W -> nat) (b : nat) (m : M W A) : Prop :=
  forall s,
    left (world s) <= b ->
    exists a s',
      m s = Some (Return a, s') /\ left (world s') <= left (world s).

(** *** Paginated drains *)

(** The four [while True] loops have one shape: a list request that takes
    the cursor, a test on the accumulated list that ends the loop early
    (only the bitable loop has one) and what is done when it holds. The
    loops are compared with this shape, and the shape is reasoned about
    once. *)
Fixpoint drain {W A} (self : Env W)
         (listing : option string -> Request (Page A))
         (full : list A -> bool) (on_full : M W unit)
         (fuel : nat) (page_token : option string) (acc : list A)
  : M W (list A) :=
  match fuel with
  | 0 => unfinished
  | S fuel' =>
      data <- request self (listing (truthy page_token)) ;;
      let acc := (acc ++ get_items data)%list in
      if negb (get_has_more data) then ret acc
      else if full acc then on_full ;; ret acc
      else drain self listing full on_full fuel' (get_page_token data) acc
  end.

Definition never_full {A} (acc : list A) : bool := false.

(** The safety limit of [_get_all_bitable_records]. *)
Definition over_limit (all_records : list Json) : bool :=
  (10000 <? Z.of_nat (length all_records))%Z.

(** The pages a list endpoint sends when it is asked again and again, each
    time with the cursor of the page before (no cursor when that page had
    none), from the state [s] on: every page but the last reports
    [has_more = true], the last one reports [has_more = false]. *)
Inductive pages_from {W A} (self : Env W)
          (listing : option string -> Request (Page A))
  : option string -> State W -> list (Page A) -> State W -> Prop :=
| pages_last page_token s p s' :
    request self (listing (truthy page_token)) s = Some (Return p, s') ->
    get_has_more p = false ->
    pages_from self listing page_token s [p] s'
| pages_more page_token s p s' ps s'' :
    request self (listing (truthy page_token)) s = Some (Return p, s') ->
    get_has_more p = true ->
    pages_from self listing (get_page_token p) s' ps s'' ->
    pages_from self listing page_token s (p :: ps) s''.

(** The items of a sequence of pages, in order. *)
Definition all_items {A} (ps : list (Page A)) : list A :=
  concat (map (@get_items A) ps).

(** A list endpoint that answers every request with a page that reports
    [has_more = true]. *)
Definition always_more {W A} (self : Env W)
           (listing : option string -> Request (Page A)) : Prop :=
  forall page_token s,
  exists p s',
    request self (listing page_token) s = Some (Return p, s')
    /\ get_has_more p = true.

(** ** Example worlds *)

(** The path of a plain [http(s)://host/path?query#fragment] URL, as
    [urlparse] gives it. *)
Fixpoint from_slash (s : string) : string :=
  match s with
  | EmptyString => EmptyString
  | String c s' =>
      if (Ascii.eqb c "/" || Ascii.eqb c "?" || Ascii.eqb c "#")%bool then s
      else from_slash s'
  end.

Fixpoint up_to_query (s : string) : string :=
  match s with
  | EmptyString => EmptyString
  | String c s' =>
      if (Ascii.eqb c "?" || Ascii.eqb c "#")%bool then EmptyString
      else String c (up_to_query s')
  end.

Definition plain_url_path (url : string) : Result string :=
  if startswith "https://" url
  then Return (up_to_query (from_slash (substring 8 (String.length url) url)))
  else if startswith "http://" url
  then Return (up_to_query (from_slash (substring 7 (String.length url) url)))
  else Return (up_to_query url).

(** Blocks rendered as the number of blocks is enough for the examples. *)
Definition count_blocks (blocks : list Json) : Result string :=
  Return (String.concat "" (map (fun _ => "*") blocks)).

(** A world that answers each request by its content alone and counts the
    requests it has answered. *)
Definition site_env (respond : forall R : Type, Request R -> Result R)
  : Env nat :=
  mkEnv (fun R r calls => (respond R r, S calls)) plain_url_path count_blocks.

(** A world that answers the [n]-th list request with the [n]-th page of a
    script, whatever the cursor sent, and counts the requests. *)
Definition scripted (json_pages : list (Page Json))
           (node_pages : list (Page Node)) (R : Type) (r : Request R)
           (calls : nat) : Result R * nat :=
  (match r in Request R return Result R with
   | ListBlocks _ _ _ | ListRecords _ _ _ _ =>
       match nth_error json_pages calls with
       | Some p => Return p
       | None => Raise "资源未找到"
       end
   | ListWikiNodes _ _ _ _ =>
       match nth_error node_pages calls with
       | Some p => Return p
       | None => Raise "资源未找到"
       end
   | _ => Raise "资源未找到"
   end, S calls).

Definition scripted_env (json_pages : list (Page Json))
           (node_pages : list (Page Node)) : Env nat :=
  mkEnv (scripted json_pages node_pages) plain_url_path count_blocks.

(** A world whose list endpoints always send [n] items, report
    [has_more = true] and send no cursor. *)
Definition endless (n : nat) (R : Type) (r : Request R) : Result R :=
  match r in Request R return Result R with
  | ListBlocks _ _ _ | ListRecords _ _ _ _ =>
      Return (mkPage (repeat JNull n) true None)
  | ListWikiNodes _ _ _ _ =>
      Return (mkPage (repeat empty_node n) true None)
  | _ => Raise "资源未找到"
  end.

Definition endless_env (n : nat) : Env nat := site_env (endless n).

(** Three pages of blocks: the first with a cursor, the second without one
    although it reports more, the third the last. *)
Definition three_pages : list (Page Json) :=
  [ mkPage [JStr "b0"] true (Some "c1");
    mkPage [JStr "b1"] true None;
    mkPage [JStr "b2"] false None ].

(** A small wiki.
    - Space ["chain"]: one root ["n"]; every node ["t"] wraps the document
      ["doc_t"], declares children and has the single child ["t+"].
    - Space ["three"]: the roots ["a"], ["b"], ["c"], documents without
      children; reading the document of ["b"] is refused.
    - Space ["broken"]: the roots ["p"] and ["q"]; ["p"] declares children
      but listing them fails.
    - ["wikcnP"] is the node ["p"]; ["wikcnF"] wraps a file. *)
Definition chain_node (t : string) : Node :=
  platform_node t "docx" ("doc_" ++ t) true "chain".

Definition leaf (t space : string) : Node :=
  platform_node t "docx" ("doc_" ++ t) false space.

Definition wiki_nodes (space : string) (parent : option string)
  : option (list Node) :=
  if space =? "chain" then
    match parent with
    | None => Some [chain_node "n"]
    | Some parent => Some [chain_node (parent ++ "+")]
    end
  else if space =? "three" then
    match parent with
    | None => Some [leaf "a" "three"; leaf "b" "three"; leaf "c" "three"]
    | Some _ => None
    end
  else if space =? "broken" then
    match parent with
    | None => Some [platform_node "p" "docx" "doc_p" true "broken";
                    leaf "q" "broken"]
    | Some _ => None
    end
  else None.

Definition wiki (R : Type) (r : Request R) : Result R :=
  match r in Request R return Result R with
  | GetDocument doc_token =>
      if doc_token =? "doc_b" then Raise "权限不足，请检查应用权限配置"
      else Return (Some (JStr doc_token))
  | ListBlocks _ _ _ => Return (mkPage [JStr "block"] false None)
  | ListWikiNodes space _ parent _ =>
      match wiki_nodes space parent with
      | Some l => Return (mkPage l false None)
      | None => Raise "请求超时"
      end
  | GetWikiNode token =>
      if token =? "wikcnP" then
        Return (Some (platform_node "wikcnP" "docx" "doc_p" true "broken"))
      else if token =? "wikcnF" then
        Return (Some (platform_node "wikcnF" "file" "boxcnF" false "broken"))
      else Raise "资源未找到"
  | GetWikiSpace s => Return (Some (JStr s))
  | _ => Raise "资源未找到"
  end.

Definition wiki_env : Env nat := site_env wiki.

(** A node and the first nodes below it, one a level: the token, whether
    [content] is there, whether [children] is there. *)
Fixpoint outline (k : nat) (n : Node) : list (string * bool * bool) :=
  (fstr (get_node_token n),
   match get_content n with Some _ => true | None => false end,
   match get_children n with Some _ => true | None => false end)
  :: match k, get_children n with
     | S k', Some (c :: _) => outline k' c
     | _, _ => []
     end.

(** An office.
    - The spreadsheet ["shtcnA"] has the sheets ["s1"] (titled "Sales") and
      ["s2"] (untitled); the values of ["s2"] cannot be read.
    - The bitable ["bascnA"] has the tables ["t1"] (named "Orders", one
      field, two records) and ["t2"], whose fields cannot be read. *)
Definition office (R : Type) (r : Request R) : Result R :=
  match r in Request R return Result R with
  | GetSpreadsheet sheet_token =>
      if sheet_token =? "shtcnA" then
        Return (Some (mkSpreadsheet
                        (Some "Budget") None
                        [mkSheet (Some "s1") (Some "Sales") (JStr "grid");
                         mkSheet (Some "s2") None (JStr "grid")]))
      else Raise "资源未找到"
  | GetSheetValues _ sheet_id =>
      if sheet_id =? "s1" then Return (Some (JArr [JArr [JNum 1; JNum 2]]))
      else Raise "权限不足，请检查应用权限配置"
  | GetBitableApp app_token =>
      if app_token =? "bascnA" then Return (Some (JStr "CRM"))
      else Raise "资源未找到"
  | ListTables _ =>
      Return [mkTable (Some "t1") (Some "Orders"); mkTable (Some "t2") None]
  | ListFields _ table_id =>
      if table_id =? "t1" then Return [JStr "amount"]
      else Raise "权限不足，请检查应用权限配置"
  | ListRecords _ _ _ _ => Return (mkPage [JNum 10; JNum 20] false None)
  | _ => Raise "资源未找到"
  end.

Definition office_env : Env nat := site_env office.

(** The state before anything happened. *)
Definition start : State nat := mkState 0 [].

(** *** Entries of the readers *)

(** The entry [d] that [_read_sheet] makes for the sheet [sheet]: the
    sheet, its id and its title, and either the values or the error. *)
Definition sheet_entry (sheet : Sheet) (d : SheetData) : Prop :=
  sd_properties d = sheet
  /\ sd_sheet_id d = get_sheet_id sheet
  /\ sd_title d = get_default "Sheet" (get_sheet_title sheet)
  /\ ((exists values, sd_values d = Some values /\ sd_error d = None)
      \/ (exists e, sd_error d = Some e /\ sd_values d = None)).

(** The round of [_read_sheet] for the sheet [sheet], from [s] to [s']: the
    entry [d] is the one of [sheet], and it holds the values that the values
    request of this sheet returned from [s] ([[]] when the response has
    none), or the message that this request raised from [s], which is then
    also logged as a warning. *)
Definition sheet_read {W} (self : Env W) (sheet_token : string)
           (sheet : Sheet) (s : State W) (d : SheetData) (s' : State W)
  : Prop :=
  sheet_entry sheet d
  /\ ((exists values,
          request self
                  (GetSheetValues sheet_token (fstr (get_sheet_id sheet))) s
          = Some (Return values, s')
          /\ sd_values d = Some (get_default (JArr []) values))
      \/ (exists e s1,
             request self
                     (GetSheetValues sheet_token (fstr (get_sheet_id sheet)))
                     s
             = Some (Raise e, s1)
             /\ sd_error d = Some e
             /\ s' = logged WARNING
                            ("读取工作表 " ++ sd_title d ++ " 失败: " ++ e)
                            s1)).

(** The entry [d] that [_read_bitable] makes for the table [table]: its id
    and its name, and either the fields and the records with their number,
    or the error. *)
Definition table_entry (table : Table) (d : TableData) : Prop :=
  td_table_id d = get_table_id table
  /\ td_name d = get_default "Table" (get_table_name table)
  /\ ((exists fields records,
          td_fields d = Some fields
          /\ td_records d = Some records
          /\ td_record_count d = Some (length records)
          /\ td_error d = None)
      \/ (exists e,
             td_error d = Some e
             /\ td_fields d = None
             /\ td_records d = None
             /\ td_record_count d = None)).

(** ** Blocks as text *)

(** A text element of a block, through the keys the rendering reads: for
    each of ["text_run"], ["mention_user"] and ["mention_doc"], [None] when
    [element.get(key)] is false (the key is missing, null or an empty dict),
    else the value found in that dict under ["content"], ["name"] and
    ["title"] ([None] when it is missing). *)
Record Element : Type := mkElement {
  text_run : option (option string);
  mention_user : option (option string);
  mention_doc : option (option string)
}.

(** A block, through the keys the rendering reads: [block.get("block_type")]
    and, for each key whose value is a non-empty dict, the list under its
    ["elements"] ([[]] when that is missing). *)
Record Block : Type := mkBlock {
  get_block_type : option Z;
  block_bodies : list (string * list Element)
}.

(** ["\n"] *)
Definition newline : string := String "010"%char EmptyString.

(** The dict [type_handlers] of [_extract_text_from_blocks]. *)
Definition type_handlers : list (Z * (string * string)) :=
  [ (2, ("text", ""));
    (3, ("heading1", "# "));
    (4, ("heading2", "## "));
    (5, ("heading3", "### "));
    (6, ("heading4", "#### "));
    (9, ("bullet", "- "));
    (10, ("ordered", "1. "));
    (11, ("quote", "> "));
    (13, ("code", "```" ++ newline)) ]%Z.

(** [d.get(k)] and [d[k]] on a dict given by its items. *)
Fixpoint lookup {K V} (eqb : K -> K -> bool) (k : K) (d : list (K * V))
  : option V :=
  match d with
  | [] => None
  | (k', v) :: d' => if eqb k k' then Some v else lookup eqb k d'
  end.

(** The loop of [_extract_text_from_elements]. *)
Fixpoint extract_elements_loop (elements : list Element)
         (text_parts : list string) : list string :=
  match elements with
  | [] => text_parts
  | element :: rest =>
      extract_elements_loop rest
        match text_run element with
        | Some content => (text_parts ++ [get_default "" content])%list
        | None =>
            match mention_user element with
            | Some name =>
                (text_parts ++ [("@" ++ get_default "user" name)%string])%list
            | None =>
                match mention_doc element with
                | Some title =>
                    (text_parts
                       ++ [("[文档: " ++ get_default "doc" title
                              ++ "]")%string])%list
                | None => text_parts
                end
            end
        end
  end.

Definition _extract_text_from_elements (elements : list Element) : string :=
  String.concat "" (extract_elements_loop elements []).

(** One round of the loop of [_extract_text_from_blocks]. *)
Definition extract_block (block : Block) (text_parts : list string)
  : list string :=
  let block_type := get_default 0%Z (get_block_type block) in
  match lookup Z.eqb block_type type_handlers with
  | Some (key, prefix) =>
      let elements :=
        match lookup String.eqb key (block_bodies block) with
        | Some elements => elements
        | None =>
            match lookup String.eqb "text" (block_bodies block) with
            | Some elements => elements
            | None => []
            end
        end in
      let text := _extract_text_from_elements elements in
      if nonempty text then (text_parts ++ [(prefix ++ text)%string])%list
      else text_parts
  | None =>
      if (block_type =? 23)%Z then (text_parts ++ ["[表格]"])%list
      else if (block_type =? 27)%Z then (text_parts ++ ["[图片]"])%list
      else text_parts
  end.

Fixpoint extract_blocks_loop (blocks : list Block) (text_parts : list string)
  : list string :=
  match blocks with
  | [] => text_parts
  | block :: rest => extract_blocks_loop rest (extract_block block text_parts)
  end.

(** [_extract_text_from_blocks] on blocks seen as above (the reader takes
    it from its environment, on the blocks as they were decoded). *)
Definition extract_text_from_blocks (blocks : list Block) : string :=
  String.concat newline (extract_blocks_loop blocks []).

(** ** The transport and the access token *)

Module Transport.

(** The decoded body of the token endpoint: [data.get("code")],
    [data.get("msg")] and [data["tenant_access_token"]], each [None] when the
    key is missing. *)
Record TokenBody : Type := mkTokenBody {
  token_code : option Z;
  token_msg : option string;
  token_value : option string
}.

(** What [requests.get] or [requests.post], then [raise_for_status()], then
    [.json()] come to: one of the exceptions that [_make_request] tells
    apart, or the decoded body with its ["code"], ["msg"] and ["data"]. *)
Inductive HttpOutcome (D : Type) : Type :=
| Timeout
| HTTPError (status_code : Z)
| OtherError (e : string)
| Body (code : option Z) (msg : option string) (data : option D).
Arguments Timeout {D}.
Arguments HTTPError {D}.
Arguments OtherError {D}.
Arguments Body {D}.

(** What the transport calls outside the class, on a network [N], for
    payloads [D] and request parameters [P]. *)
Record Http (N D P : Type) : Type := mkHttp {
  (** [requests.post(url, json={app_id, app_secret}, timeout=10)] with
      [raise_for_status()] and [.json()]: the body, or the exception. *)
  post_token : string -> string -> string -> N -> Result TokenBody * N;
  (** [requests.get] / [requests.post] with the method, the URL, the
      [Authorization] header and the parameters. *)
  send : string -> string -> string -> P -> N -> HttpOutcome D * N;
  (** [str.upper] *)
  str_upper : string -> string;
  (** The payload [{}]. *)
  empty_payload : D
}.

(** The attributes of the reader object, and the network. *)
Record Client (N : Type) : Type := mkClient {
  app_id : string;
  app_secret : string;
  tenant_access_token : option string;
  base_url : string;
  network : N
}.

(** [FeishuUnifiedReader(app_id, app_secret)] *)
Definition init {N} (app_id app_secret : string) (n : N) : Client N :=
  mkClient app_id app_secret None "https://open.feishu.cn/open-apis" n.

(** [str(x)] for an integer that may be [None]. *)
Definition str_int (x : option Z) : string :=
  match x with
  | Some z => NilZero.string_of_int (Z.to_int z)
  | None => "None"
  end.

(** [x != 0] for an integer that may be [None]. *)
Definition not_zero (x : option Z) : bool :=
  match x with Some z => negb (z =? 0)%Z | None => true end.

Section Transport.

Variables N D P : Type.
Variable http : Http N D P.

(** Reading and writing [self.tenant_access_token]; a call on the
    network. *)
Definition self_tenant_access_token : M (Client N) (option string) :=
  fun s => Some (Return (tenant_access_token (world s)), s).

Definition set_tenant_access_token (token : option string)
  : M (Client N) unit :=
  fun s =>
    let c := world s in
    Some (Return tt,
          mkState (mkClient (app_id c) (app_secret c) token (base_url c)
                            (network c))
                  (log s)).

Definition on_network {A} (call : N -> A * N) : M (Client N) A :=
  fun s =>
    let c := world s in
    let (a, n') := call (network c) in
    Some (Return a,
          mkState (mkClient (app_id c) (app_secret c)
                            (tenant_access_token c) (base_url c) n')
                  (log s)).

(** The [requests.post] of [get_tenant_access_token], with
    [raise_for_status()] and [.json()]. *)
Definition requests_post_token : M (Client N) TokenBody :=
  fun s =>
    let c := world s in
    let url := base_url c ++ "/auth/v3/tenant_access_token/internal" in
    bind (on_network (post_token http url (app_id c) (app_secret c))) lift s.

Definition get_tenant_access_token : M (Client N) string :=
  cached <- self_tenant_access_token ;;
  match truthy cached with
  | Some token => ret token
  | None =>
      try_except
        (data <- requests_post_token ;;
         if not_zero (token_code data) then
           raise ("认证失败: "
                    ++ get_default "Unknown error" (token_msg data))
         else
           match token_value data with
           | None => raise "'tenant_access_token'"
           | Some token =>
               set_tenant_access_token (Some token) ;;
               logger INFO "成功获取访问令牌" ;;
               ret token
           end)
        (fun e => raise ("获取访问令牌失败: " ++ e))
  end.

(** What [_make_request] makes of a call: the payload of a body whose code
    is 0, the exception for another body, the exception that its [except]
    clauses raise for a timeout and for an HTTP status, and any other
    exception as it is. *)
Definition settle (outcome : HttpOutcome D) : M (Client N) D :=
  match outcome with
  | Body code msg data =>
      if not_zero code then
        raise ("API调用失败: " ++ get_default "Unknown error" msg
                 ++ " (错误码: " ++ str_int code ++ ")")
      else ret (get_default (empty_payload http) data)
  | Timeout => raise "请求超时"
  | HTTPError status_code =>
      if (status_code =? 401)%Z then raise "认证失败，请检查凭据"
      else if (status_code =? 403)%Z then
        raise "权限不足，请检查应用权限配置"
      else if (status_code =? 404)%Z then raise "资源未找到"
      else raise ("HTTP错误: " ++ str_int (Some status_code))
  | OtherError e => raise e
  end.

Definition _make_request (url method : string) (params : P)
  : M (Client N) D :=
  token <- get_tenant_access_token ;;
  let authorization := "Bearer " ++ token in
  outcome <-
    (if str_upper http method =? "GET" then
       on_network (send http "GET" url authorization params)
     else if str_upper http method =? "POST" then
       on_network (send http "POST" url authorization params)
     else raise ("不支持的HTTP方法: " ++ method)) ;;
  settle outcome.

End Transport.

(** [str.upper] on a string of ASCII characters. *)
Fixpoint upper (s : string) : string :=
  match s with
  | EmptyString => EmptyString
  | String c s' =>
      let n := nat_of_ascii c in
      String (if ((97 <=? n) && (n <=? 122))%nat
              then ascii_of_nat (n - 32) else c)
             (upper s')
  end.

(** A network for the examples: it counts the calls made to it; the token
    endpoint hands out ["t-1"]; a request is answered with its URL when it
    bears that token, and with status 401 otherwise. *)
Definition counting : Http nat string unit :=
  mkHttp
    (fun url id secret calls =>
       (Return (mkTokenBody (Some 0%Z) (Some "ok") (Some "t-1")), S calls))
    (fun method url authorization params calls =>
       (if authorization =? "Bearer t-1"
        then Body (Some 0%Z) (Some "success") (Some url)
        else HTTPError 401, S calls))
    upper "".

(** The same with a token endpoint that is out of order. *)
Definition refusing : Http nat string unit :=
  mkHttp
    (fun url id secret calls =>
       (Return (mkTokenBody (Some 10003%Z) (Some "invalid param") None),
        S calls))
    (send counting) upper "".

(** A new client on a network that has not been used, and the same client
    after it has obtained its token. *)
Definition fresh : State (Client nat) :=
  mkState (init "cli_a" "secret" 0) [].

Definition warm : State (Client nat) :=
  mkState (mkClient "cli_a" "secret" (Some "t-1")
                    "https://open.feishu.cn/open-apis" 1)
          [(INFO, "成功获取访问令牌")].

End Transport.

(** * Properties *)

Unset Implicit Arguments.

(** ** Strings *)

Lemma startswith_spec (pre s : string) :
  startswith pre s = true <-> exists b, s = pre ++ b.
Proof.
  unfold startswith. revert s.
  induction pre as [|c pre IH]; intros s.
  - split; [intros _; now exists s | intros _; now destruct s].
  - destruct s as [|d s]; simpl.
    + split; [discriminate | intros [b Hb]; discriminate].
    + destruct (Ascii.ascii_dec c d) as [->|Hne].
      * rewrite IH. split; intros [b Hb]; exists b; congruence.
      * split; [discriminate | intros [b Hb]; congruence].
Qed.

Lemma contains_spec (sub s : string) :
  contains sub s = true <-> occurs_in sub s.
Proof.
  unfold occurs_in.
  induction s as [|c s IH]; cbn [contains].
  - rewrite orb_false_r, startswith_spec. split.
    + intros [b Hb]. now exists EmptyString, b.
    + intros [a [b Hab]]. destruct a; [now exists b | discriminate].
  - rewrite orb_true_iff, startswith_spec, IH. split.
    + intros [[b Hb] | [a [b Hab]]].
      * now exists EmptyString, b.
      * exists (String c a), b. simpl. now rewrite Hab.
    + intros [a [b Hab]]. destruct a as [|d a]; simpl in Hab.
      * left. now exists b.
      * right. exists a, b. congruence.
Qed.

(** The test of [detect_type], [token.startswith(prefix) or prefix in
    token], holds exactly when the prefix occurs in the token. *)
Lemma prefix_test_spec (prefix token : string) :
  startswith prefix token || contains prefix token = true
  <-> occurs_in prefix token.
Proof.
  rewrite orb_true_iff, <- contains_spec. split; [|now right].
  intros [H | H]; [|exact H].
  apply contains_spec. apply startswith_spec in H as [b Hb].
  now exists EmptyString, b.
Qed.

Lemma in_list_spec (s : string) (l : list string) :
  in_list s l = true <-> In s l.
Proof.
  unfold in_list. rewrite existsb_exists. split.
  - intros [x [Hx Heq]]. apply String.eqb_eq in Heq. now subst.
  - intros H. exists s. split; [exact H | apply String.eqb_refl].
Qed.

Lemma in_list_false (s : string) (l : list string) :
  ~ In s l -> in_list s l = false.
Proof.
  intros H. destruct (in_list s l) eqn:E; [|reflexivity].
  apply in_list_spec in E. contradiction.
Qed.

Lemma split_nonempty (sep : ascii) (s : string) : split sep s <> [].
Proof.
  destruct s as [|c s]; simpl; [discriminate|].
  destruct (Ascii.eqb c sep); [discriminate|].
  destruct (split sep s); discriminate.
Qed.

Lemma split_head (sep : ascii) (s : string) :
  let h := hd EmptyString (split sep s) in
  ~ has_char sep h /\
  (s = h \/ exists q, s = h ++ String sep q).
Proof.
  induction s as [|c s IH]; simpl.
  - split; [tauto | now left].
  - destruct (Ascii.eqb_spec c sep) as [->|Hne]; simpl.
    + split; [tauto | right; now exists s].
    + destruct IH as [Hno Hs].
      pose proof (split_nonempty sep s) as Hnil.
      destruct (split sep s) as [|h t]; [contradiction|]. simpl in *.
      split; [intros [H|H]; [contradiction | now apply Hno] |].
      destruct Hs as [-> | [q ->]]; [now left | right; now exists q].
Qed.

(** [s.split("?")[0]] is [s] without its query string. *)
Lemma before_query_spec (s : string) : without_query s (before_query s).
Proof. exact (split_head "?" s). Qed.

(** ** Type detection *)

Lemma match_prefix_first (token : string) (prefixes before after : list (string * string))
      (prefix doc_type : string) :
  prefixes = (before ++ (prefix, doc_type) :: after)%list ->
  occurs_in prefix token ->
  (forall p t, In (p, t) before -> ~ occurs_in p token) ->
  match_prefix token prefixes = Some doc_type.
Proof.
  intros -> Hocc. induction before as [|[p t] before IH]; intros Hnone; simpl.
  - apply prefix_test_spec in Hocc. now rewrite Hocc.
  - destruct (startswith p token || contains p token) eqn:E.
    + apply prefix_test_spec in E. exfalso. apply (Hnone p t); simpl; auto.
    + apply IH. intros q u Hq. apply (Hnone q u). now right.
Qed.

Lemma match_prefix_none (token : string) (prefixes : list (string * string)) :
  (forall p t, In (p, t) prefixes -> ~ occurs_in p token) ->
  match_prefix token prefixes = None.
Proof.
  induction prefixes as [|[p t] prefixes IH]; intros Hnone; simpl.
  - reflexivity.
  - destruct (startswith p token || contains p token) eqn:E.
    + apply prefix_test_spec in E. exfalso. apply (Hnone p t); simpl; auto.
    + apply IH. intros q u Hq. apply (Hnone q u). now right.
Qed.

(** What [detect_type] does once the token is known. *)
Lemma detect_type_token (W : Type) (self : Env W) (token : string)
      (s : State W) :
  startswith "http" token = false ->
  detect_type self token s =
  match match_prefix token TOKEN_PREFIXES with
  | Some doc_type => Some (Return (doc_type, token), s)
  | None =>
      Some (Return (TYPE_DOCX, token),
            logged WARNING
                   ("无法识别token类型: " ++ token ++ "，默认使用docx") s)
  end.
Proof.
  intros Hraw. unfold detect_type. rewrite Hraw.
  unfold bind, ret. destruct (match_prefix token TOKEN_PREFIXES); reflexivity.
Qed.

Lemma detect_type_url (W : Type) (self : Env W) (url : string)
      (s : State W) :
  startswith "http" url = true ->
  detect_type self url s =
  match _extract_token_from_url self url with
  | Raise e => Some (Raise e, s)
  | Return token =>
      match match_prefix token TOKEN_PREFIXES with
      | Some doc_type => Some (Return (doc_type, token), s)
      | None =>
          Some (Return (TYPE_DOCX, token),
                logged WARNING
                       ("无法识别token类型: " ++ token ++ "，默认使用docx") s)
      end
  end.
Proof.
  intros Hurl. unfold detect_type. rewrite Hurl.
  unfold bind, lift, ret.
  destruct (_extract_token_from_url self url) as [token|e]; [|reflexivity].
  destruct (match_prefix token TOKEN_PREFIXES); reflexivity.
Qed.

(** C7. A raw token (one that is not a URL) in which a known prefix occurs
    is given the type of the first such prefix in the order of
    [TOKEN_PREFIXES] (docx_, doc_, sheet_, shtcn, base, bascn, wikcn), with
    the token unchanged and nothing logged; a token in which none occurs is
    given docx, unchanged, and one warning is logged. In no case does
    [detect_type] raise. *)
Theorem detect_type_raw_token (W : Type) (self : Env W) (token : string)
        (s : State W) :
  startswith "http" token = false ->
  (forall before prefix doc_type after,
      TOKEN_PREFIXES = (before ++ (prefix, doc_type) :: after)%list ->
      occurs_in prefix token ->
      (forall p t, In (p, t) before -> ~ occurs_in p token) ->
      detect_type self token s = Some (Return (doc_type, token), s))
  /\ ((forall p t, In (p, t) TOKEN_PREFIXES -> ~ occurs_in p token) ->
      detect_type self token s =
      Some (Return (TYPE_DOCX, token),
            logged WARNING
                   ("无法识别token类型: " ++ token ++ "，默认使用docx") s))
  /\ (exists doc_type s',
         detect_type self token s = Some (Return (doc_type, token), s')).
Proof.
  intros Hraw. rewrite detect_type_token by exact Hraw.
  split; [|split].
  - intros before prefix doc_type after Hsplit Hocc Hnone.
    now erewrite match_prefix_first by eassumption.
  - intros Hnone. now rewrite match_prefix_none.
  - destruct (match_prefix token TOKEN_PREFIXES) as [doc_type|]; eauto.
Qed.

(** A token in which no known prefix occurs. *)
Lemma no_prefix_abc123 :
  forall p t, In (p, t) TOKEN_PREFIXES -> ~ occurs_in p "abc123".
Proof.
  intros p t Hin Hocc. apply contains_spec in Hocc.
  simpl in Hin.
  repeat (destruct Hin as [Hin | Hin];
          [injection Hin as <- <-; discriminate Hocc|]).
  contradiction.
Qed.

Lemma detect_type_raw_token_witness :
  detect_type wiki_env "my_shtcnAbC" start
  = Some (Return (TYPE_SHEET, "my_shtcnAbC"), start)
  /\ detect_type wiki_env "abc123" start
     = Some (Return (TYPE_DOCX, "abc123"),
             logged WARNING "无法识别token类型: abc123，默认使用docx" start).
Proof.
  split.
  - refine (proj1 (detect_type_raw_token _ wiki_env "my_shtcnAbC" start _)
                  [("docx_", TYPE_DOCX); ("doc_", TYPE_DOC);
                   ("sheet_", TYPE_SHEET)]
                  "shtcn" TYPE_SHEET
                  [("base", TYPE_BITABLE); ("bascn", TYPE_BITABLE);
                   ("wikcn", TYPE_WIKI)] _ _ _).
    + reflexivity.
    + reflexivity.
    + now exists "my_", "AbC".
    + intros p t Hin Hocc. apply contains_spec in Hocc. simpl in Hin.
      repeat (destruct Hin as [Hin | Hin];
              [injection Hin as <- <-; discriminate Hocc|]).
      contradiction.
  - refine (proj1 (proj2 (detect_type_raw_token _ wiki_env "abc123" start _))
                  no_prefix_abc123).
    reflexivity.
Defined.

(** ** Token extraction from a URL *)

Arguments in_list : simpl never.
Arguments before_query : simpl never.

(** The first loop, started in the middle of the path: [front] has been
    passed without a return. *)
Lemma token_after_marker_from (front pre post : list string)
      (marker segment : string) :
  In marker URL_MARKERS ->
  (forall p, In p pre -> ~ In p URL_MARKERS) ->
  let rest := (pre ++ marker :: segment :: post)%list in
  token_after_marker (front ++ rest)
                     (combine (seq (length front) (length rest)) rest)
  = Some (before_query segment).
Proof.
  intros Hmarker. revert front.
  induction pre as [|p pre IH]; intros front Hpre; simpl.
  - apply in_list_spec in Hmarker. rewrite Hmarker.
    replace (length front + 1 <? length (front ++ marker :: segment :: post))%nat
      with true
      by (symmetry; apply Nat.ltb_lt; rewrite length_app; simpl; lia).
    f_equal. f_equal.
    rewrite app_nth2 by lia.
    now replace (length front + 1 - length front) with 1 by lia.
  - rewrite (in_list_false p URL_MARKERS) by (apply Hpre; now left).
    specialize (IH (front ++ [p])%list).
    cbv zeta in IH. rewrite <- app_assoc, length_app in IH. simpl in IH.
    rewrite Nat.add_1_r in IH. apply IH.
    intros q Hq. apply Hpre. now right.
Qed.

Lemma token_after_marker_found (pre post : list string)
      (marker segment : string) :
  In marker URL_MARKERS ->
  (forall p, In p pre -> ~ In p URL_MARKERS) ->
  let path_parts := (pre ++ marker :: segment :: post)%list in
  token_after_marker path_parts (enumerate path_parts)
  = Some (before_query segment).
Proof.
  intros Hmarker Hpre.
  exact (token_after_marker_from [] pre post marker segment Hmarker Hpre).
Qed.

Lemma token_after_marker_none (path_parts : list string)
      (enumerated : list (nat * string)) :
  (forall i p, In (i, p) enumerated -> ~ In p URL_MARKERS) ->
  token_after_marker path_parts enumerated = None.
Proof.
  induction enumerated as [|[i p] enumerated IH]; intros Hnone; simpl.
  - reflexivity.
  - rewrite (in_list_false p URL_MARKERS) by (apply (Hnone i); now left).
    apply IH. intros j q Hq. apply (Hnone j). now right.
Qed.

Lemma last_nonempty_found (pre post : list string) (segment : string) :
  segment <> EmptyString ->
  (forall p, In p post -> p = EmptyString) ->
  last_nonempty (rev (pre ++ segment :: post))
  = Some (before_query segment).
Proof.
  intros Hseg Hpost. rewrite rev_app_distr. simpl. rewrite <- app_assoc.
  assert (Hrev : forall p, In p (rev post) -> p = EmptyString)
    by (intros p Hp; apply Hpost; now apply in_rev).
  induction (rev post) as [|p l IH]; simpl.
  - destruct segment; [contradiction | reflexivity].
  - rewrite (Hrev p) by now left. simpl. apply IH.
    intros q Hq. apply Hrev. now right.
Qed.

Lemma extract_token_marker (W : Type) (self : Env W) (url path : string)
      (pre post : list string) (marker segment : string) :
  urlparse_path self url = Return path ->
  split "/" path = (pre ++ marker :: segment :: post)%list ->
  In marker URL_MARKERS ->
  (forall p, In p pre -> ~ In p URL_MARKERS) ->
  _extract_token_from_url self url = Return (before_query segment).
Proof.
  intros Hpath Hsplit Hmarker Hpre.
  unfold _extract_token_from_url. rewrite Hpath, Hsplit.
  now rewrite (token_after_marker_found pre post marker segment Hmarker Hpre).
Qed.

Lemma extract_token_no_marker (W : Type) (self : Env W) (url path : string)
      (pre post : list string) (segment : string) :
  urlparse_path self url = Return path ->
  (forall p, In p (split "/" path) -> ~ In p URL_MARKERS) ->
  split "/" path = (pre ++ segment :: post)%list ->
  segment <> EmptyString ->
  (forall p, In p post -> p = EmptyString) ->
  _extract_token_from_url self url = Return (before_query segment).
Proof.
  intros Hpath Hnone Hsplit Hseg Hpost.
  unfold _extract_token_from_url. rewrite Hpath.
  rewrite token_after_marker_none.
  - rewrite Hsplit. now rewrite last_nonempty_found.
  - intros i p Hin. apply Hnone. unfold enumerate in Hin.
    now apply in_combine_r in Hin.
Qed.

(** C8. When the path of the URL has a marker segment (docx, doc, wiki,
    sheets, base, file) followed by a further segment, the token is the
    segment right after the first marker, without its query string; when the
    path has no marker segment, the token is its last non-empty segment,
    without its query string. *)
Theorem extract_token_from_url_spec (W : Type) (self : Env W)
        (url path : string) :
  urlparse_path self url = Return path ->
  (forall pre marker segment post,
      split "/" path = (pre ++ marker :: segment :: post)%list ->
      In marker URL_MARKERS ->
      (forall p, In p pre -> ~ In p URL_MARKERS) ->
      exists token,
        _extract_token_from_url self url = Return token
        /\ without_query segment token)
  /\ (forall pre segment post,
         (forall p, In p (split "/" path) -> ~ In p URL_MARKERS) ->
         split "/" path = (pre ++ segment :: post)%list ->
         segment <> EmptyString ->
         (forall p, In p post -> p = EmptyString) ->
         exists token,
           _extract_token_from_url self url = Return token
           /\ without_query segment token).
Proof.
  intros Hpath. split.
  - intros pre marker segment post Hsplit Hmarker Hpre.
    exists (before_query segment). split; [|apply before_query_spec].
    exact (extract_token_marker W self url path pre post marker segment
                                Hpath Hsplit Hmarker Hpre).
  - intros pre segment post Hnone Hsplit Hseg Hpost.
    exists (before_query segment). split; [|apply before_query_spec].
    exact (extract_token_no_marker W self url path pre post segment
                                   Hpath Hnone Hsplit Hseg Hpost).
Qed.

Lemma extract_token_from_url_spec_witness :
  (exists token,
      _extract_token_from_url wiki_env "https://x.feishu.cn/docx/abc123?tab=x"
      = Return token /\ without_query "abc123" token)
  /\ (exists token,
         _extract_token_from_url wiki_env "https://x.feishu.cn/space/xyz789/"
         = Return token /\ without_query "xyz789" token).
Proof.
  split.
  - refine (proj1 (extract_token_from_url_spec _ wiki_env
                     "https://x.feishu.cn/docx/abc123?tab=x" "/docx/abc123" _)
                  [EmptyString] "docx" "abc123" [] _ _ _).
    + reflexivity.
    + reflexivity.
    + simpl. tauto.
    + intros p [<- | []] Hin. simpl in Hin.
      repeat (destruct Hin as [Hin | Hin]; [discriminate Hin|]).
      contradiction.
  - refine (proj2 (extract_token_from_url_spec _ wiki_env
                     "https://x.feishu.cn/space/xyz789/" "/space/xyz789/" _)
                  [EmptyString; "space"] "xyz789" [EmptyString] _ _ _ _).
    + reflexivity.
    + intros p Hp Hin. simpl in Hp, Hin.
      repeat (destruct Hp as [Hp | Hp];
              [subst p;
               repeat (destruct Hin as [Hin | Hin]; [discriminate Hin|]);
               contradiction|]).
      contradiction.
    + reflexivity.
    + discriminate.
    + intros p [<- | []]. reflexivity.
Defined.

Lemma without_query_unique (segment t1 t2 : string) :
  without_query segment t1 -> without_query segment t2 -> t1 = t2.
Proof.
  unfold without_query. revert segment t2.
  induction t1 as [|c t1 IH]; intros segment t2 [Hno1 Hs1] [Hno2 Hs2].
  - destruct t2 as [|d t2]; [reflexivity|]. exfalso. simpl in *.
    destruct Hs1 as [-> | [q ->]];
      destruct Hs2 as [Hs2 | [q' Hs2]]; try discriminate;
      injection Hs2 as <- _; tauto.
  - destruct t2 as [|d t2]; simpl in *.
    + exfalso.
      destruct Hs1 as [-> | [q ->]];
        destruct Hs2 as [Hs2 | [q' Hs2]]; try discriminate;
        injection Hs2 as -> _; tauto.
    + assert (Hcd : c = d /\ without_query (match segment with
                                             | String _ r => r
                                             | EmptyString => EmptyString
                                             end) t1
                    /\ without_query (match segment with
                                      | String _ r => r
                                      | EmptyString => EmptyString
                                      end) t2).
      { unfold without_query.
        destruct Hs1 as [-> | [q ->]];
          destruct Hs2 as [Hs2 | [q' Hs2]]; injection Hs2 as <- Hs2;
          (split; [reflexivity|]); simpl;
          (split; (split; [tauto|])); eauto. }
      destruct Hcd as [-> [H1 H2]]. f_equal. exact (IH _ _ H1 H2).
Qed.

(** C10. For a URL, the type is decided by the extracted token alone: two
    URLs with the same extracted token are given the same answer. When
    the segment after the first marker of the path, without its query
    string, contains no known prefix, the answer is docx whatever the
    marker: sheets, wiki, or any other. *)
Theorem detect_type_ignores_marker (W : Type) (self : Env W) (s : State W) :
  (forall url1 url2,
      startswith "http" url1 = true ->
      startswith "http" url2 = true ->
      _extract_token_from_url self url1 = _extract_token_from_url self url2 ->
      detect_type self url1 s = detect_type self url2 s)
  /\ (forall url path pre marker segment post token,
         startswith "http" url = true ->
         urlparse_path self url = Return path ->
         split "/" path = (pre ++ marker :: segment :: post)%list ->
         In marker URL_MARKERS ->
         (forall p, In p pre -> ~ In p URL_MARKERS) ->
         without_query segment token ->
         (forall p t, In (p, t) TOKEN_PREFIXES -> ~ occurs_in p token) ->
         detect_type self url s
         = Some (Return (TYPE_DOCX, token),
                 logged WARNING
                        ("无法识别token类型: " ++ token ++ "，默认使用docx")
                        s)).
Proof.
  split.
  - intros url1 url2 H1 H2 Heq.
    rewrite !detect_type_url by assumption. now rewrite Heq.
  - intros url path pre marker segment post token
           Hurl Hpath Hsplit Hmarker Hpre Htoken Hnone.
    pose proof (extract_token_marker W self url path pre post marker segment
                                     Hpath Hsplit Hmarker Hpre) as Hex.
    rewrite (without_query_unique _ _ _ (before_query_spec segment) Htoken)
      in Hex.
    rewrite detect_type_url by exact Hurl. rewrite Hex.
    now rewrite match_prefix_none.
Qed.

Lemma detect_type_ignores_marker_witness :
  detect_type wiki_env "https://x.feishu.cn/sheets/abc123?sheet=1" start
  = Some (Return (TYPE_DOCX, "abc123"),
          logged WARNING "无法识别token类型: abc123，默认使用docx" start)
  /\ detect_type wiki_env "https://x.feishu.cn/wiki/abc123" start
     = detect_type wiki_env "https://x.feishu.cn/sheets/abc123?sheet=1" start.
Proof.
  split.
  - refine (proj2 (detect_type_ignores_marker _ wiki_env start)
                  "https://x.feishu.cn/sheets/abc123?sheet=1" "/sheets/abc123"
                  [EmptyString] "sheets" "abc123" [] "abc123"
                  _ _ _ _ _ _ no_prefix_abc123).
    + reflexivity.
    + reflexivity.
    + reflexivity.
    + simpl. tauto.
    + intros p [<- | []] Hin. simpl in Hin.
      repeat (destruct Hin as [Hin | Hin]; [discriminate Hin|]).
      contradiction.
    + split; [|now left]. simpl. intros H.
      repeat (destruct H as [H | H]; [discriminate H|]). contradiction.
  - refine (proj1 (detect_type_ignores_marker _ wiki_env start)
                  "https://x.feishu.cn/wiki/abc123"
                  "https://x.feishu.cn/sheets/abc123?sheet=1" _ _ _);
      reflexivity.
Defined.

(** ** Paginated drains *)

Section Drains.

Variable W : Type.
Variable self : Env W.

Lemma get_all_blocks_loop_drain (fuel : nat) (doc_token : string)
      (page_token : option string) (all_items : list Json) (s : State W) :
  _get_all_blocks_loop self fuel doc_token page_token all_items s
  = drain self (ListBlocks doc_token 500) never_full (ret tt)
          fuel page_token all_items s.
Proof.
  revert page_token all_items s.
  induction fuel as [|fuel IH]; intros page_token all_items s; simpl.
  - reflexivity.
  - unfold bind. destruct (request self _ s) as [[[data|e] s']|]; try reflexivity.
    destruct (negb (get_has_more data)); [reflexivity | apply IH].
Qed.

Lemma get_all_bitable_records_loop_drain (fuel : nat)
      (app_token table_id : string) (page_token : option string)
      (all_records : list Json) (s : State W) :
  _get_all_bitable_records_loop self fuel app_token table_id page_token
                                all_records s
  = drain self (ListRecords app_token table_id 500) over_limit
          (logger WARNING "记录数超过10000，停止获取更多数据")
          fuel page_token all_records s.
Proof.
  revert page_token all_records s.
  induction fuel as [|fuel IH]; intros page_token all_records s; simpl.
  - reflexivity.
  - unfold bind. destruct (request self _ s) as [[[data|e] s']|]; try reflexivity.
    destruct (negb (get_has_more data)); [reflexivity|].
    unfold over_limit.
    destruct (10000 <? Z.of_nat (length (all_records ++ get_items data)))%Z;
      [reflexivity | apply IH].
Qed.

Lemma get_wiki_children_loop_drain (fuel : nat)
      (space_id parent_token : string) (page_token : option string)
      (all_children : list Node) (s : State W) :
  _get_wiki_children_loop self fuel space_id parent_token page_token
                          all_children s
  = drain self (ListWikiNodes space_id 50 (Some parent_token)) never_full
          (ret tt) fuel page_token all_children s.
Proof.
  revert page_token all_children s.
  induction fuel as [|fuel IH]; intros page_token all_children s; simpl.
  - reflexivity.
  - unfold bind. destruct (request self _ s) as [[[data|e] s']|]; try reflexivity.
    destruct (negb (get_has_more data)); [reflexivity | apply IH].
Qed.

Lemma get_wiki_space_nodes_loop_drain (fuel : nat) (space_id : string)
      (parent_token page_token : option string) (all_nodes : list Node)
      (s : State W) :
  _get_wiki_space_nodes_loop self fuel space_id parent_token page_token
                             all_nodes s
  = drain self (ListWikiNodes space_id 50 (truthy parent_token)) never_full
          (ret tt) fuel page_token all_nodes s.
Proof.
  revert page_token all_nodes s.
  induction fuel as [|fuel IH]; intros page_token all_nodes s; simpl.
  - reflexivity.
  - unfold bind. destruct (request self _ s) as [[[data|e] s']|]; try reflexivity.
    destruct (negb (get_has_more data)); [reflexivity | apply IH].
Qed.

Section Shape.

Variable A : Type.
Variable listing : option string -> Request (Page A).
Variable full : list A -> bool.
Variable on_full : M W unit.

(** The loop ends with the page that reports [has_more = false], and with
    all the items sent up to it, when the early exit is not taken. *)
Lemma drain_pages (page_token : option string) (s s' : State W)
      (ps : list (Page A)) :
  pages_from self listing page_token s ps s' ->
  forall (fuel : nat) (acc : list A),
    length ps <= fuel ->
    (forall l, length l <= length (acc ++ all_items ps) -> full l = false) ->
    drain self listing full on_full fuel page_token acc s
    = Some (Return (acc ++ all_items ps)%list, s').
Proof.
  induction 1 as [pt s p s' Hreq Hmore | pt s p s' ps s'' Hreq Hmore Hrest IH];
    intros fuel acc Hfuel Hfull.
  - destruct fuel as [|fuel]; [simpl in Hfuel; lia|].
    simpl. unfold bind. rewrite Hreq, Hmore. simpl.
    unfold all_items. simpl. now rewrite app_nil_r.
  - destruct fuel as [|fuel]; [simpl in Hfuel; lia|].
    simpl. unfold bind. rewrite Hreq, Hmore. simpl.
    assert (Hall : (acc ++ all_items (p :: ps) =
                    (acc ++ get_items p) ++ all_items ps)%list)
      by (unfold all_items; simpl; now rewrite app_assoc).
    rewrite Hfull by (rewrite Hall, (length_app (acc ++ get_items p)); lia).
    rewrite Hall. apply IH.
    + simpl in Hfuel. lia.
    + intros l Hl. apply Hfull. now rewrite Hall.
Qed.

(** The loop does not end while the pages report [has_more = true] and the
    early exit is not taken. *)
Lemma drain_always_more :
  always_more self listing ->
  (forall l, full l = false) ->
  forall fuel page_token acc s,
    drain self listing full on_full fuel page_token acc s = None.
Proof.
  intros Hmore Hfull.
  induction fuel as [|fuel IH]; intros page_token acc s; simpl.
  - reflexivity.
  - destruct (Hmore (truthy page_token) s) as [p [s' [Hreq Hp]]].
    unfold bind. rewrite Hreq, Hp. simpl. rewrite Hfull. apply IH.
Qed.

Lemma drain_always_more_empty :
  always_more self listing ->
  (forall page_token s p s',
      request self (listing page_token) s = Some (Return p, s') ->
      get_items p = []) ->
  forall fuel page_token acc s,
    full acc = false ->
    drain self listing full on_full fuel page_token acc s = None.
Proof.
  intros Hmore Hempty.
  induction fuel as [|fuel IH]; intros page_token acc s Hfull; simpl.
  - reflexivity.
  - destruct (Hmore (truthy page_token) s) as [p [s' [Hreq Hp]]].
    unfold bind. rewrite Hreq, Hp. simpl.
    rewrite (Hempty _ _ _ _ Hreq), app_nil_r, Hfull. now apply IH.
Qed.

End Shape.

End Drains.

Lemma request_log (W : Type) (self : Env W) (R : Type) (r : Request R)
      (s s' : State W) (res : Result R) :
  request self r s = Some (res, s') -> log s' = log s.
Proof.
  unfold request. destruct (_make_request self r (world s)) as [res' w'].
  intros H. injection H as _ <-. reflexivity.
Qed.

(** C1, as the code has it. Each of the four drain loops ends with the
    first page that reports [has_more = false] and returns the items of all
    the pages up to and including that one (for bitable records: when no more
    than 10000 records come in all); a page that reports more without a cursor
    does not end it, the next request is sent without a cursor. A list
    endpoint that reports more on every page keeps the loop of blocks,
    children and nodes running for ever, and the loop of records as well when
    its pages are empty. *)
Theorem drain_ends_with_has_more (W : Type) (self : Env W) :
  (forall doc_token page_token s ps s' fuel,
      pages_from self (ListBlocks doc_token 500) page_token s ps s' ->
      length ps <= fuel ->
      _get_all_blocks self fuel doc_token page_token s
      = Some (Return (all_items ps), s'))
  /\ (forall app_token table_id s ps s' fuel,
         pages_from self (ListRecords app_token table_id 500) None s ps s' ->
         length ps <= fuel ->
         (Z.of_nat (length (all_items ps)) <= 10000)%Z ->
         _get_all_bitable_records self fuel app_token table_id s
         = Some (Return (all_items ps), s'))
  /\ (forall space_id parent_token s ps s' fuel,
         pages_from self (ListWikiNodes space_id 50 (Some parent_token))
                    None s ps s' ->
         length ps <= fuel ->
         _get_wiki_children self fuel space_id parent_token s
         = Some (Return (all_items ps), s'))
  /\ (forall space_id parent_token s ps s' fuel,
         pages_from self (ListWikiNodes space_id 50 (truthy parent_token))
                    None s ps s' ->
         length ps <= fuel ->
         _get_wiki_space_nodes self fuel space_id parent_token s
         = Some (Return (all_items ps), s'))
  /\ (forall doc_token,
         always_more self (ListBlocks doc_token 500) ->
         forall fuel page_token s,
           _get_all_blocks self fuel doc_token page_token s = None)
  /\ (forall app_token table_id,
         always_more self (ListRecords app_token table_id 500) ->
         (forall page_token s p s',
             request self (ListRecords app_token table_id 500 page_token) s
             = Some (Return p, s') ->
             get_items p = []) ->
         forall fuel s,
           _get_all_bitable_records self fuel app_token table_id s = None)
  /\ (forall space_id parent_token,
         always_more self (ListWikiNodes space_id 50 (Some parent_token)) ->
         forall fuel s,
           _get_wiki_children self fuel space_id parent_token s = None)
  /\ (forall space_id parent_token,
         always_more self (ListWikiNodes space_id 50 (truthy parent_token)) ->
         forall fuel s,
           _get_wiki_space_nodes self fuel space_id parent_token s = None).
Proof.
  repeat split.
  - intros doc_token page_token s ps s' fuel Hps Hfuel.
    unfold _get_all_blocks. rewrite get_all_blocks_loop_drain.
    now apply (drain_pages W self Json _ never_full (ret tt) _ _ _ _ Hps).
  - intros app_token table_id s ps s' fuel Hps Hfuel Hcap.
    unfold _get_all_bitable_records.
    rewrite get_all_bitable_records_loop_drain.
    apply (drain_pages W self Json _ over_limit _ _ _ _ _ Hps);
      [exact Hfuel|].
    intros l Hl. simpl in Hl. unfold over_limit. apply Z.ltb_ge. lia.
  - intros space_id parent_token s ps s' fuel Hps Hfuel.
    unfold _get_wiki_children. rewrite get_wiki_children_loop_drain.
    now apply (drain_pages W self Node _ never_full (ret tt) _ _ _ _ Hps).
  - intros space_id parent_token s ps s' fuel Hps Hfuel.
    unfold _get_wiki_space_nodes. rewrite get_wiki_space_nodes_loop_drain.
    now apply (drain_pages W self Node _ never_full (ret tt) _ _ _ _ Hps).
  - intros doc_token Hmore fuel page_token s.
    unfold _get_all_blocks. rewrite get_all_blocks_loop_drain.
    now apply drain_always_more.
  - intros app_token table_id Hmore Hempty fuel s.
    unfold _get_all_bitable_records.
    rewrite get_all_bitable_records_loop_drain.
    now apply drain_always_more_empty.
  - intros space_id parent_token Hmore fuel s.
    unfold _get_wiki_children. rewrite get_wiki_children_loop_drain.
    now apply drain_always_more.
  - intros space_id parent_token Hmore fuel s.
    unfold _get_wiki_space_nodes. rewrite get_wiki_space_nodes_loop_drain.
    now apply drain_always_more.
Qed.

Lemma three_pages_run :
  pages_from (scripted_env three_pages []) (ListBlocks "doc" 500)
             None start three_pages (mkState 3 []).
Proof.
  unfold three_pages.
  eapply pages_more; [reflexivity | reflexivity |].
  eapply pages_more; [reflexivity | reflexivity |].
  eapply pages_last; reflexivity.
Qed.

Lemma endless_always_more (n : nat) :
  always_more (endless_env n) (ListWikiNodes "space" 50 (truthy None)).
Proof. intros page_token s. eexists. eexists. split; reflexivity. Qed.

Lemma drain_ends_with_has_more_witness :
  _get_all_blocks (scripted_env three_pages []) 3 "doc" None start
  = Some (Return [JStr "b0"; JStr "b1"; JStr "b2"], mkState 3 [])
  /\ _get_wiki_space_nodes (endless_env 1) 1000 "space" None start = None.
Proof.
  pose proof (drain_ends_with_has_more nat (scripted_env three_pages []))
    as [Hblocks _].
  pose proof (drain_ends_with_has_more nat (endless_env 1))
    as [_ [_ [_ [_ [_ [_ [_ Hnodes]]]]]]].
  split.
  - apply (Hblocks "doc" None start three_pages (mkState 3 []) 3
                   three_pages_run).
    simpl. lia.
  - apply (Hnodes "space" None (endless_always_more 1)).
Defined.

(** C1 as stated does not hold: the page without a cursor does not end
    the loop, which goes on to fetch the third page and returns its item
    too; and an endpoint that reports more on every page keeps the loop
    running (here through 1000 rounds). *)
Lemma drain_missing_cursor_counterexample :
  (exists items s',
      _get_all_blocks (scripted_env three_pages []) 3 "doc" None start
      = Some (Return items, s')
      /\ world s' = 3
      /\ items = [JStr "b0"; JStr "b1"; JStr "b2"]
      /\ length items > length [JStr "b0"; JStr "b1"])
  /\ _get_all_blocks (endless_env 1) 1000 "doc" None start = None
  /\ _get_wiki_children (endless_env 1) 1000 "space" "parent" start = None
  /\ _get_wiki_space_nodes (endless_env 1) 1000 "space" None start = None
  /\ _get_all_bitable_records (endless_env 0) 1000 "app" "tbl" start = None.
Proof.
  split; [|repeat split; vm_compute; reflexivity].
  eexists. eexists. split; [vm_compute; reflexivity|].
  repeat split. simpl. lia.
Qed.

(** ** The safety limit of the bitable records *)

Lemma drain_over_limit (W : Type) (self : Env W)
      (listing : option string -> Request (Page Json)) (msg : string)
      (m : nat) :
  (forall page_token s,
      exists p s',
        request self (listing page_token) s = Some (Return p, s')
        /\ get_has_more p = true
        /\ 1 <= length (get_items p) <= m) ->
  forall fuel page_token acc s,
    (Z.of_nat (length acc) <= 10000)%Z ->
    (10000 < Z.of_nat fuel + Z.of_nat (length acc))%Z ->
    exists records s',
      drain self listing over_limit (logger WARNING msg)
            fuel page_token acc s
      = Some (Return records, s')
      /\ (10000 < Z.of_nat (length records) <= 10000 + Z.of_nat m)%Z
      /\ log s' = (log s ++ [(WARNING, msg)])%list.
Proof.
  intros Hmore.
  induction fuel as [|fuel IH]; intros page_token acc s Hacc Hfuel.
  - simpl in Hfuel. lia.
  - destruct (Hmore (truthy page_token) s) as [p [s1 [Hreq [Hp Hlen]]]].
    cbn [drain]. unfold bind at 1. rewrite Hreq, Hp. cbn [negb].
    pose proof (request_log _ _ _ _ _ _ _ Hreq) as Hlog.
    assert (Hlen' : length (acc ++ get_items p)
                    = length acc + length (get_items p))
      by apply length_app.
    unfold over_limit at 1.
    destruct (10000 <? Z.of_nat (length (acc ++ get_items p)))%Z eqn:E.
    + apply Z.ltb_lt in E.
      exists (acc ++ get_items p)%list.
      exists (logged WARNING msg s1).
      split; [reflexivity|]. split; [lia|].
      simpl. now rewrite Hlog.
    + apply Z.ltb_ge in E.
      destruct (IH (get_page_token p) (acc ++ get_items p)%list s1)
        as [records [s' [Hrun [Hbound Hlog']]]]; [lia | lia |].
      exists records, s'. split; [exact Hrun|]. split; [exact Hbound|].
      now rewrite Hlog', Hlog.
Qed.

(** C2, as the code has it. When the records endpoint reports more on every
    page and sends between 1 and [m] records a page, the loop stops by
    itself, without raising, right after the page that takes the count above
    10000: it returns more than 10000 and at most 10000 + [m] records, and
    logs one warning. The returned value is the plain list of records. *)
Theorem bitable_records_stop_after_limit (W : Type) (self : Env W)
        (app_token table_id : string) (m : nat) :
  (forall page_token s,
      exists p s',
        request self (ListRecords app_token table_id 500 page_token) s
        = Some (Return p, s')
        /\ get_has_more p = true
        /\ 1 <= length (get_items p) <= m) ->
  forall fuel s,
    (10000 < Z.of_nat fuel)%Z ->
    exists records s',
      _get_all_bitable_records self fuel app_token table_id s
      = Some (Return records, s')
      /\ (10000 < Z.of_nat (length records) <= 10000 + Z.of_nat m)%Z
      /\ log s'
         = (log s ++ [(WARNING, "记录数超过10000，停止获取更多数据")])%list.
Proof.
  intros Hmore fuel s Hfuel.
  unfold _get_all_bitable_records.
  rewrite get_all_bitable_records_loop_drain.
  apply (drain_over_limit W self _ _ m Hmore); simpl; lia.
Qed.

Lemma bitable_records_stop_after_limit_witness :
  exists records s',
    _get_all_bitable_records (endless_env 500) (Z.to_nat 10001)
                             "app" "tbl" start
    = Some (Return records, s')
    /\ (10000 < Z.of_nat (length records) <= 10000 + Z.of_nat 500)%Z
    /\ log s'
       = (log start
              ++ [(WARNING, "记录数超过10000，停止获取更多数据")])%list.
Proof.
  apply (bitable_records_stop_after_limit nat (endless_env 500)
                                          "app" "tbl" 500).
  - intros page_token s.
    exists (mkPage (repeat JNull 500) true None).
    exists (mkState (S (world s)) (log s)).
    split; [reflexivity|]. split; [reflexivity|].
    cbn [get_items]. rewrite repeat_length. lia.
  - lia.
Defined.

(** C2 as stated does not hold: with full pages of 500 records the loop
    stops after the 21st page, with 10500 records, and what it returns is
    the list of records and nothing else. *)
Lemma bitable_records_exceed_limit_counterexample :
  exists s',
    _get_all_bitable_records (endless_env 500) 30 "app" "tbl" start
    = Some (Return (repeat JNull (21 * 500)), s')
    /\ world s' = 21
    /\ Z.of_nat (length (repeat JNull (21 * 500))) = 10500%Z.
Proof.
  eexists. split; [vm_compute; reflexivity|].
  split; [reflexivity | vm_compute; reflexivity].
Qed.

(** ** Termination against a world that runs dry *)

Section Settling.

Variable W : Type.
Variable self : Env W.
Variable left : W -> nat.
Hypothesis Hdry : runs_dry self left.

Lemma returns_settles {A} (b : nat) (m : M W A) :
  returns left b m -> settles left b m.
Proof.
  intros H s Hs. destruct (H s Hs) as [a [s' [Hm Hle]]].
  now exists (Return a), s'.
Qed.

Lemma returns_ret {A} (b : nat) (a : A) : returns left b (ret a).
Proof. intros s _. now exists a, s. Qed.

Lemma settles_lift {A} (b : nat) (r : Result A) : settles left b (lift r).
Proof. intros s _. now exists r, s. Qed.

Lemma settles_raise {A} (b : nat) (e : string) :
  settles left b (raise e : M W A).
Proof. intros s _. now exists (Raise e), s. Qed.

Lemma returns_logger (b : nat) (lvl : Level) (msg : string) :
  returns left b (logger lvl msg : M W unit).
Proof. intros s _. exists tt. eexists. split; [reflexivity|]. simpl. lia. Qed.

Lemma settles_request {R} (b : nat) (r : Request R) :
  settles left b (request self r).
Proof.
  intros s _. unfold request.
  destruct (Hdry R r (world s)) as [Hle _].
  destruct (_make_request self r (world s)) as [res w'].
  exists res. eexists. split; [reflexivity|]. exact Hle.
Qed.

Lemma settles_bind {A B} (b : nat) (m : M W A) (k : A -> M W B) :
  settles left b m -> (forall a, settles left b (k a)) ->
  settles left b (bind m k).
Proof.
  intros Hm Hk s Hs. destruct (Hm s Hs) as [r [s1 [Em Hle]]].
  unfold bind. rewrite Em. destruct r as [a|e].
  - destruct (Hk a s1) as [r' [s2 [Ek Hle']]]; [lia|].
    exists r', s2. split; [exact Ek | lia].
  - now exists (Raise e), s1.
Qed.

Lemma returns_bind {A B} (b : nat) (m : M W A) (k : A -> M W B) :
  returns left b m -> (forall a, returns left b (k a)) ->
  returns left b (bind m k).
Proof.
  intros Hm Hk s Hs. destruct (Hm s Hs) as [a [s1 [Em Hle]]].
  unfold bind. rewrite Em.
  destruct (Hk a s1) as [a' [s2 [Ek Hle']]]; [lia|].
  exists a', s2. split; [exact Ek | lia].
Qed.

Lemma settles_try {A} (b : nat) (m : M W A) (h : string -> M W A) :
  settles left b m -> (forall e, settles left b (h e)) ->
  settles left b (try_except m h).
Proof.
  intros Hm Hh s Hs. destruct (Hm s Hs) as [r [s1 [Em Hle]]].
  unfold try_except. rewrite Em. destruct r as [a|e].
  - now exists (Return a), s1.
  - destruct (Hh e s1) as [r' [s2 [Eh Hle']]]; [lia|].
    exists r', s2. split; [exact Eh | lia].
Qed.

(** A [try] whose handler returns does return. *)
Lemma returns_try {A} (b : nat) (m : M W A) (h : string -> M W A) :
  settles left b m -> (forall e, returns left b (h e)) ->
  returns left b (try_except m h).
Proof.
  intros Hm Hh s Hs. destruct (Hm s Hs) as [r [s1 [Em Hle]]].
  unfold try_except. rewrite Em. destruct r as [a|e].
  - now exists a, s1.
  - destruct (Hh e s1) as [a' [s2 [Eh Hle']]]; [lia|].
    exists a', s2. split; [exact Eh | lia].
Qed.

Lemma settles_for_each {A B} (b : nat) (body : A -> M W B) (xs : list A) :
  (forall x, settles left b (body x)) ->
  settles left b (for_each body xs).
Proof.
  intros Hbody. induction xs as [|x xs IH]; simpl.
  - apply returns_settles, returns_ret.
  - apply settles_bind; [apply Hbody|]. intros y.
    apply settles_bind; [exact IH|]. intros ys.
    apply returns_settles, returns_ret.
Qed.

Lemma returns_for_each {A B} (b : nat) (body : A -> M W B) (xs : list A) :
  (forall x, returns left b (body x)) ->
  returns left b (for_each body xs).
Proof.
  intros Hbody. induction xs as [|x xs IH]; simpl.
  - apply returns_ret.
  - apply returns_bind; [apply Hbody|]. intros y.
    apply returns_bind; [exact IH|]. intros ys. apply returns_ret.
Qed.

(** A drain whose budget exceeds the number of pages that can still be
    announced comes to an end. *)
Lemma settles_drain {A} (listing : option string -> Request (Page A))
      (full : list A -> bool) (on_full : M W unit) :
  (forall page_token p,
      reports_more (listing page_token) (Return p) = get_has_more p) ->
  (forall b, settles left b on_full) ->
  forall fuel b page_token acc,
    b < fuel ->
    settles left b (drain self listing full on_full fuel page_token acc).
Proof.
  intros Hlisting Hfull.
  induction fuel as [|fuel IH]; intros b page_token acc Hb s Hs; [lia|].
  simpl. unfold bind at 1. unfold request.
  destruct (Hdry _ (listing (truthy page_token)) (world s)) as [Hle Hlt].
  destruct (_make_request self (listing (truthy page_token)) (world s))
    as [[p|e] w'] eqn:E; simpl in Hle, Hlt.
  - rewrite Hlisting in Hlt.
    destruct (get_has_more p) eqn:Hp; simpl.
    + specialize (Hlt eq_refl).
      destruct (full (acc ++ get_items p)%list).
      * destruct (Hfull b (mkState w' (log s))) as [r [s2 [Ef Hle2]]];
          [simpl; lia|].
        unfold bind. rewrite Ef. simpl in Hle2.
        destruct r as [[]|e]; eexists; eexists; (split; [reflexivity|]); lia.
      * destruct (IH (left w') (get_page_token p) (acc ++ get_items p)%list)
          with (s := mkState w' (log s)) as [r [s2 [Ed Hle2]]];
          [lia | simpl; lia |].
        exists r, s2. split; [exact Ed|]. simpl in Hle2. lia.
    + eexists. eexists. split; [reflexivity|]. simpl. lia.
  - eexists. eexists. split; [reflexivity|]. simpl. lia.
Qed.

Lemma settles_get_all_blocks (fuel b : nat) (doc_token : string)
      (page_token : option string) :
  b < fuel -> settles left b (_get_all_blocks self fuel doc_token page_token).
Proof.
  intros Hb s Hs. unfold _get_all_blocks. rewrite get_all_blocks_loop_drain.
  refine (settles_drain (ListBlocks doc_token 500) never_full (ret tt)
                        _ _ fuel b page_token [] Hb s Hs); [reflexivity|].
  intros b'. apply returns_settles, returns_ret.
Qed.

Lemma settles_get_all_bitable_records (fuel b : nat)
      (app_token table_id : string) :
  b < fuel ->
  settles left b (_get_all_bitable_records self fuel app_token table_id).
Proof.
  intros Hb s Hs. unfold _get_all_bitable_records.
  rewrite get_all_bitable_records_loop_drain.
  refine (settles_drain (ListRecords app_token table_id 500) over_limit _
                        _ _ fuel b None [] Hb s Hs); [reflexivity|].
  intros b'. apply returns_settles, returns_logger.
Qed.

Lemma settles_get_wiki_children (fuel b : nat)
      (space_id parent_token : string) :
  b < fuel ->
  settles left b (_get_wiki_children self fuel space_id parent_token).
Proof.
  intros Hb s Hs. unfold _get_wiki_children.
  rewrite get_wiki_children_loop_drain.
  refine (settles_drain (ListWikiNodes space_id 50 (Some parent_token))
                        never_full (ret tt) _ _ fuel b None [] Hb s Hs);
    [reflexivity|].
  intros b'. apply returns_settles, returns_ret.
Qed.

Lemma settles_get_wiki_space_nodes (fuel b : nat) (space_id : string)
      (parent_token : option string) :
  b < fuel ->
  settles left b (_get_wiki_space_nodes self fuel space_id parent_token).
Proof.
  intros Hb s Hs. unfold _get_wiki_space_nodes.
  rewrite get_wiki_space_nodes_loop_drain.
  refine (settles_drain (ListWikiNodes space_id 50 (truthy parent_token))
                        never_full (ret tt) _ _ fuel b None [] Hb s Hs);
    [reflexivity|].
  intros b'. apply returns_settles, returns_ret.
Qed.

Lemma settles_read_docx (fuel b : nat) (doc_token : string) :
  b < fuel -> settles left b (_read_docx self fuel doc_token).
Proof.
  intros Hb. unfold _read_docx.
  apply settles_bind; [apply settles_request|]. intros doc_info.
  apply settles_bind; [now apply settles_get_all_blocks|]. intros blocks.
  apply settles_bind; [apply settles_lift|]. intros text_content.
  apply returns_settles, returns_ret.
Qed.

Lemma settles_read_sheet (b : nat) (sheet_token : string) :
  settles left b (_read_sheet self sheet_token).
Proof.
  unfold _read_sheet.
  apply settles_bind; [apply settles_request|]. intros meta.
  apply settles_bind; [|intros; apply returns_settles, returns_ret].
  apply settles_for_each. intros sheet.
  apply settles_try.
  - apply settles_bind; [apply settles_request|]. intros values.
    apply returns_settles, returns_ret.
  - intros e. apply settles_bind; [apply returns_settles, returns_logger|].
    intros _. apply returns_settles, returns_ret.
Qed.

Lemma settles_read_bitable (fuel b : nat) (app_token : string) :
  b < fuel -> settles left b (_read_bitable self fuel app_token).
Proof.
  intros Hb. unfold _read_bitable.
  apply settles_bind; [apply settles_request|]. intros meta.
  apply settles_bind; [apply settles_request|]. intros tables.
  apply settles_bind; [|intros; apply returns_settles, returns_ret].
  apply settles_for_each. intros table.
  apply settles_try.
  - apply settles_bind; [apply settles_request|]. intros fields.
    apply settles_bind; [now apply settles_get_all_bitable_records|].
    intros records. apply returns_settles, returns_ret.
  - intros e. apply settles_bind; [apply returns_settles, returns_logger|].
    intros _. apply returns_settles, returns_ret.
Qed.

(** The first [try] of the loop body always returns the node. *)
Lemma returns_resolve_content (fuel b : nat) (node : Node) :
  b < fuel -> returns left b (resolve_content self fuel node).
Proof.
  intros Hb. unfold resolve_content.
  apply returns_try; [|intros e; apply returns_ret].
  destruct (is_str (get_obj_type node) "docx"
            || is_str (get_obj_type node) "doc").
  { apply settles_bind; [now apply settles_read_docx|].
    intros c. apply returns_settles, returns_ret. }
  destruct (is_str (get_obj_type node) "sheet").
  { apply settles_bind; [apply settles_read_sheet|].
    intros c. apply returns_settles, returns_ret. }
  destruct (is_str (get_obj_type node) "bitable").
  { apply settles_bind; [now apply settles_read_bitable|].
    intros c. apply returns_settles, returns_ret. }
  apply returns_settles, returns_ret.
Qed.

(** So does the second one, when the recursive call comes to an end. *)
Lemma returns_expand_children (fuel b : nat) (space_id : string)
      (recurse : list Node -> M W (list Node)) (node : Node) :
  b < fuel ->
  (forall children, settles left b (recurse children)) ->
  returns left b (expand_children self fuel space_id recurse node).
Proof.
  intros Hb Hrec. unfold expand_children.
  destruct (get_has_child node); [|apply returns_ret].
  apply returns_try; [|intros e; apply returns_ret].
  apply settles_bind; [now apply settles_get_wiki_space_nodes|].
  intros children. apply settles_bind; [apply Hrec|].
  intros children'. apply returns_settles, returns_ret.
Qed.

(** The traversal returns, whatever fails on the way, when its budget
    exceeds the pages that can still be announced by the levels it may
    open. *)
Lemma returns_read_wiki_nodes_recursive (fuel b : nat) (space_id : string)
      (nodes : list Node) (depth : nat) :
  b + (6 - depth) <= fuel ->
  returns left b (_read_wiki_nodes_recursive self fuel space_id nodes depth).
Proof.
  revert b nodes depth.
  induction fuel as [|fuel IH]; intros b nodes depth Hb; simpl.
  - replace (5 <? depth)%nat with true
      by (symmetry; apply Nat.ltb_lt; lia).
    apply returns_ret.
  - destruct (5 <? depth)%nat eqn:E; [apply returns_ret|].
    apply Nat.ltb_ge in E.
    apply returns_for_each. intros node. unfold visit_node.
    apply returns_bind; [apply returns_resolve_content; lia|].
    intros node'. apply returns_expand_children; [lia|].
    intros children. apply returns_settles, IH. lia.
Qed.

End Settling.

(** ** The loop body of the traversal *)

Section Traversal.

Variable W : Type.
Variable self : Env W.

(** The first [try]: the node gets the content its reader returns, or the
    message of the exception its reader raises, or nothing when its type has
    no reader. *)
Lemma resolve_content_reader (fuel : nat) (node : Node) (s : State W) :
  resolve_content self fuel node s
  = match content_reader self fuel node with
    | Some reader =>
        match reader s with
        | Some (Return c, s') => Some (Return (set_content c node), s')
        | Some (Raise e, s') => Some (Return (set_content_error e node), s')
        | None => None
        end
    | None => Some (Return node, s)
    end.
Proof.
  unfold resolve_content, content_reader, try_except, bind, ret.
  destruct (is_str (get_obj_type node) "docx"
            || is_str (get_obj_type node) "doc").
  { destruct (_read_docx self fuel _ s) as [[[c|e] s']|]; reflexivity. }
  destruct (is_str (get_obj_type node) "sheet").
  { destruct (_read_sheet self _ s) as [[[c|e] s']|]; reflexivity. }
  destruct (is_str (get_obj_type node) "bitable").
  { destruct (_read_bitable self fuel _ s) as [[[c|e] s']|]; reflexivity. }
  reflexivity.
Qed.

Lemma content_reader_readable (fuel : nat) (node : Node) :
  readable (get_obj_type node) = true
  <-> exists reader, content_reader self fuel node = Some reader.
Proof.
  unfold readable, content_reader.
  destruct (is_str (get_obj_type node) "docx");
    destruct (is_str (get_obj_type node) "doc");
    destruct (is_str (get_obj_type node) "sheet");
    destruct (is_str (get_obj_type node) "bitable"); simpl;
    split; intros H; eauto; try discriminate H;
    destruct H as [reader H]; discriminate H.
Qed.

(** The second [try]: nothing for a node without children; else the list
    that the recursive call returns, or the message of the exception raised
    by the listing or by the recursive call. *)
Lemma expand_children_cases (fuel : nat) (space_id : string)
      (recurse : list Node -> M W (list Node)) (node : Node) (s : State W) :
  expand_children self fuel space_id recurse node s
  = if get_has_child node then
      match _get_wiki_space_nodes self fuel space_id (get_node_token node) s
      with
      | Some (Return children, s1) =>
          match recurse children s1 with
          | Some (Return children', s2) =>
              Some (Return (set_children children' node), s2)
          | Some (Raise e, s2) =>
              Some (Return (set_children_error e node), s2)
          | None => None
          end
      | Some (Raise e, s1) => Some (Return (set_children_error e node), s1)
      | None => None
      end
    else Some (Return node, s).
Proof.
  unfold expand_children, try_except, bind, ret.
  destruct (get_has_child node); [|reflexivity].
  destruct (_get_wiki_space_nodes self fuel space_id _ s)
    as [[[children|e] s1]|]; try reflexivity.
  destruct (recurse children s1) as [[[children'|e] s2]|]; reflexivity.
Qed.

(** One more round of the loop. *)
Lemma for_each_app {A B} (body : A -> M W B) (xs ys : list A) (s : State W) :
  for_each body (xs ++ ys) s
  = match for_each body xs s with
    | Some (Return xs', s1) =>
        match for_each body ys s1 with
        | Some (Return ys', s2) => Some (Return (xs' ++ ys')%list, s2)
        | Some (Raise e, s2) => Some (Raise e, s2)
        | None => None
        end
    | Some (Raise e, s1) => Some (Raise e, s1)
    | None => None
    end.
Proof.
  revert s. induction xs as [|x xs IH]; intros s; simpl.
  - unfold ret. destruct (for_each body ys s) as [[[ys'|e] s2]|]; reflexivity.
  - unfold bind. destruct (body x s) as [[[y|e] s1]|]; try reflexivity.
    rewrite IH.
    destruct (for_each body xs s1) as [[[xs'|e] s2]|]; try reflexivity.
    unfold ret.
    destruct (for_each body ys s2) as [[[ys'|e] s3]|]; reflexivity.
Qed.

Lemma for_each_Forall2 {A B} (Q : A -> B -> Prop) (body : A -> M W B)
      (xs : list A) :
  (forall x s r s',
      body x s = Some (r, s') -> exists y, r = Return y /\ Q x y) ->
  forall s r s',
    for_each body xs s = Some (r, s') ->
    exists ys, r = Return ys /\ Forall2 Q xs ys.
Proof.
  intros Hbody. induction xs as [|x xs IH]; intros s r s' Hrun; simpl in Hrun.
  - injection Hrun as <- <-. now exists [].
  - unfold bind at 1 in Hrun.
    destruct (body x s) as [[[y|e] s1]|] eqn:Ex; try discriminate Hrun.
    + destruct (Hbody _ _ _ _ Ex) as [y' [Hy HQ]]. injection Hy as <-.
      unfold bind at 1 in Hrun.
      destruct (for_each body xs s1) as [[[ys|e] s2]|] eqn:Exs;
        try discriminate Hrun.
      * destruct (IH _ _ _ Exs) as [ys' [Hys HQs]]. injection Hys as <-.
        injection Hrun as <- <-. exists (y :: ys). split; [reflexivity|].
        now constructor.
      * destruct (IH _ _ _ Exs) as [ys' [Hys _]]. discriminate Hys.
    + destruct (Hbody _ _ _ _ Ex) as [y' [Hy _]]. discriminate Hy.
Qed.

(** What a drain returns was sent by its endpoint. *)
Lemma drain_items {A} (P : A -> Prop)
      (listing : option string -> Request (Page A))
      (full : list A -> bool) (on_full : M W unit) :
  (forall page_token s p s',
      request self (listing page_token) s = Some (Return p, s') ->
      Forall P (get_items p)) ->
  forall fuel page_token acc s l s',
    Forall P acc ->
    drain self listing full on_full fuel page_token acc s
    = Some (Return l, s') ->
    Forall P l.
Proof.
  intros Hsent.
  induction fuel as [|fuel IH]; intros page_token acc s l s' Hacc Hrun;
    simpl in Hrun.
  - discriminate Hrun.
  - unfold bind at 1 in Hrun.
    destruct (request self (listing (truthy page_token)) s)
      as [[[p|e] s1]|] eqn:E; try discriminate Hrun.
    assert (Hacc' : Forall P (acc ++ get_items p))
      by (apply Forall_app; split; [exact Hacc | exact (Hsent _ _ _ _ E)]).
    destruct (negb (get_has_more p)).
    + injection Hrun as <- _. exact Hacc'.
    + destruct (full (acc ++ get_items p)%list).
      * unfold bind in Hrun.
        destruct (on_full s1) as [[[[]|e] s2]|]; try discriminate Hrun.
        injection Hrun as <- _. exact Hacc'.
      * exact (IH _ _ _ _ _ Hacc' Hrun).
Qed.

Lemma get_wiki_space_nodes_fetched (fetched : Node -> Prop) (fuel : nat)
      (space_id : string) (parent_token : option string)
      (s s' : State W) (children : list Node) :
  lists_only self fetched ->
  _get_wiki_space_nodes self fuel space_id parent_token s
  = Some (Return children, s') ->
  Forall fetched children.
Proof.
  intros Hlists Hrun. unfold _get_wiki_space_nodes in Hrun.
  rewrite get_wiki_space_nodes_loop_drain in Hrun.
  refine (drain_items fetched _ never_full (ret tt) _ fuel None [] s
                      children s' (Forall_nil _) Hrun).
  intros page_token s0 p s0'. apply Hlists.
Qed.

Lemma resolve_content_written (fuel : nat) (n : Node) (s s' : State W)
      (r : Result Node) :
  resolve_content self fuel n s = Some (r, s') ->
  exists n1,
    r = Return n1 /\ same_node n n1 /\ content_written n n1
    /\ get_children n1 = get_children n
    /\ get_children_error n1 = get_children_error n.
Proof.
  rewrite resolve_content_reader. unfold content_written.
  destruct (content_reader self fuel n) as [reader|] eqn:Ereader.
  - replace (readable (get_obj_type n)) with true
      by (symmetry; apply (content_reader_readable fuel); eauto).
    destruct (reader s) as [[[c|e] s1]|]; intros Hrun;
      [| |discriminate Hrun]; injection Hrun as <- _;
      eexists; (split; [reflexivity|]); unfold same_node; simpl;
      repeat split; eauto.
  - replace (readable (get_obj_type n)) with false.
    + intros Hrun. injection Hrun as <- _.
      exists n. unfold same_node. repeat split.
    + symmetry. destruct (readable (get_obj_type n)) eqn:E; [|reflexivity].
      apply (content_reader_readable fuel) in E as [reader E]. congruence.
Qed.

Lemma expand_children_written (fetched : Node -> Prop)
      (below : Node -> Node -> Prop) (fuel : nat) (space_id : string)
      (recurse : list Node -> M W (list Node)) (n : Node) (s s' : State W)
      (r : Result Node) :
  lists_only self fetched ->
  (forall cs s r s',
      recurse cs s = Some (r, s') ->
      exists cs', r = Return cs' /\ Forall2 below cs cs') ->
  expand_children self fuel space_id recurse n s = Some (r, s') ->
  exists n',
    r = Return n' /\ same_node n n' /\ children_written fetched below n n'
    /\ get_content n' = get_content n
    /\ get_content_error n' = get_content_error n.
Proof.
  intros Hlists Hrec. rewrite expand_children_cases.
  unfold children_written.
  destruct (get_has_child n).
  - destruct (_get_wiki_space_nodes self fuel space_id (get_node_token n) s)
      as [[[cs|e] s1]|] eqn:Efetch; [| |discriminate].
    + destruct (recurse cs s1) as [[[cs'|e] s2]|] eqn:Erec; [| |discriminate];
        intros Hrun; injection Hrun as <- _.
      * destruct (Hrec _ _ _ _ Erec) as [cs'' [Hcs Hbelow]].
        injection Hcs as <-.
        eexists. split; [reflexivity|]. unfold same_node. simpl.
        repeat split. right. exists cs, cs'. repeat split; try assumption.
        exact (get_wiki_space_nodes_fetched fetched _ _ _ _ _ _
                                            Hlists Efetch).
      * destruct (Hrec _ _ _ _ Erec) as [cs'' [Hcs _]]. discriminate Hcs.
    + intros Hrun. injection Hrun as <- _.
      eexists. split; [reflexivity|]. unfold same_node. simpl.
      repeat split. left. eauto.
  - intros Hrun. injection Hrun as <- _.
    exists n. unfold same_node. repeat split.
Qed.

Lemma visit_node_explored (fetched : Node -> Prop) (k fuel : nat)
      (space_id : string) (recurse : list Node -> M W (list Node))
      (n : Node) (s s' : State W) (r : Result Node) :
  lists_only self fetched ->
  (forall cs s r s',
      recurse cs s = Some (r, s') ->
      exists cs', r = Return cs' /\ Forall2 (explored fetched k) cs cs') ->
  visit_node self fuel space_id recurse n s = Some (r, s') ->
  exists n', r = Return n' /\ explored fetched (S k) n n'.
Proof.
  intros Hlists Hrec. unfold visit_node, bind.
  destruct (resolve_content self fuel n s) as [[[n1|e] s1]|] eqn:E1;
    [| |discriminate].
  - destruct (resolve_content_written _ _ _ _ _ E1)
      as [n1' [Hn1 [Hsame1 [Hcontent [Hch Hche]]]]].
    injection Hn1 as <-. intros E2.
    destruct (expand_children_written fetched _ _ _ _ _ _ _ _ Hlists Hrec E2)
      as [n' [-> [Hsame2 [Hchildren [Hc Hce]]]]].
    exists n'. split; [reflexivity|]. simpl.
    destruct Hsame1 as [H1 [H2 [H3 [H4 H5]]]].
    destruct Hsame2 as [H1' [H2' [H3' [H4' H5']]]].
    split; [unfold same_node; repeat split; congruence|].
    split.
    + unfold content_written in *. rewrite Hc, Hce. exact Hcontent.
    + unfold children_written in *. rewrite <- H4, <- Hch, <- Hche.
      exact Hchildren.
  - destruct (resolve_content_written _ _ _ _ _ E1) as [n1' [Hn1 _]].
    discriminate Hn1.
Qed.

(** What the traversal returns, when it returns: it never raises, and each
    node is explored as far as the levels left allow. *)
Lemma read_wiki_nodes_recursive_explored (fetched : Node -> Prop) :
  lists_only self fetched ->
  forall fuel space_id nodes depth s r s',
    _read_wiki_nodes_recursive self fuel space_id nodes depth s
    = Some (r, s') ->
    exists nodes',
      r = Return nodes'
      /\ Forall2 (explored fetched (6 - depth)) nodes nodes'.
Proof.
  intros Hlists.
  induction fuel as [|fuel IH]; intros space_id nodes depth s r s' Hrun;
    simpl in Hrun; destruct (5 <? depth)%nat eqn:E.
  - apply Nat.ltb_lt in E. injection Hrun as <- _.
    exists nodes. split; [reflexivity|].
    replace (6 - depth) with 0 by lia. simpl.
    induction nodes; constructor; auto.
  - discriminate Hrun.
  - apply Nat.ltb_lt in E. injection Hrun as <- _.
    exists nodes. split; [reflexivity|].
    replace (6 - depth) with 0 by lia. simpl.
    induction nodes; constructor; auto.
  - apply Nat.ltb_ge in E.
    replace (6 - depth) with (S (6 - (depth + 1))) by lia.
    refine (for_each_Forall2 _ _ _ _ _ _ _ Hrun).
    intros n s0 r0 s0'.
    apply (visit_node_explored fetched); [exact Hlists|].
    intros cs s1 r1 s1'. apply IH.
Qed.

(** A loop that returns went through its rounds, one after the other. *)
Lemma for_each_rounds {A B}
      (round : A -> State W -> B -> State W -> Prop) (body : A -> M W B)
      (xs : list A) :
  (forall x s r s',
      body x s = Some (r, s') -> exists y, r = Return y /\ round x s y s') ->
  forall s r s',
    for_each body xs s = Some (r, s') ->
    exists ys, r = Return ys /\ rounds round xs s ys s'.
Proof.
  intros Hbody. induction xs as [|x xs IH]; intros s r s' Hrun; simpl in Hrun.
  - injection Hrun as <- <-. exists []. split; [reflexivity | constructor].
  - unfold bind at 1 in Hrun.
    destruct (body x s) as [[[y|e] s1]|] eqn:Ex; try discriminate Hrun.
    + destruct (Hbody _ _ _ _ Ex) as [y' [Hy Hround]]. injection Hy as <-.
      unfold bind at 1 in Hrun.
      destruct (for_each body xs s1) as [[[ys|e] s2]|] eqn:Exs;
        try discriminate Hrun.
      * destruct (IH _ _ _ Exs) as [ys' [Hys Hrounds]]. injection Hys as <-.
        injection Hrun as <- <-. exists (y :: ys). split; [reflexivity|].
        econstructor; eassumption.
      * destruct (IH _ _ _ Exs) as [ys' [Hys _]]. discriminate Hys.
    + destruct (Hbody _ _ _ _ Ex) as [y' [Hy _]]. discriminate Hy.
Qed.

(** The loop body, when what it calls for the children does not raise. *)
Lemma visit_node_traversed
      (below : list Node -> State W -> list Node -> State W -> Prop)
      (fuel : nat) (space_id : string)
      (recurse : list Node -> M W (list Node))
      (n : Node) (s s' : State W) (r : Result Node) :
  (forall cs s r s',
      recurse cs s = Some (r, s') ->
      exists cs', r = Return cs' /\ below cs s cs' s') ->
  visit_node self fuel space_id recurse n s = Some (r, s') ->
  exists n',
    r = Return n'
    /\ exists n1 s1,
        content_resolved self n s n1 s1
        /\ children_expanded self space_id below n1 s1 n' s'.
Proof.
  intros Hrec. unfold visit_node, bind.
  destruct (resolve_content self fuel n s) as [[[n1|e] s1]|] eqn:E1;
    [| |discriminate].
  - assert (Hcontent : content_resolved self n s n1 s1).
    { rewrite resolve_content_reader in E1. unfold content_resolved.
      destruct (content_reader self fuel n) as [reader|] eqn:Ereader.
      - replace (readable (get_obj_type n)) with true
          by (symmetry; apply (content_reader_readable fuel); eauto).
        exists fuel, reader. split; [exact Ereader|].
        destruct (reader s) as [[[c|e] s0]|]; [| |discriminate E1];
          injection E1 as <- <-; [left | right]; eauto.
      - replace (readable (get_obj_type n)) with false.
        + injection E1 as <- <-. now split.
        + symmetry. destruct (readable (get_obj_type n)) eqn:E;
            [|reflexivity].
          apply (content_reader_readable fuel) in E as [reader E].
          congruence. }
    rewrite expand_children_cases. intros E2.
    assert (Hchildren :
              exists n', r = Return n'
                         /\ children_expanded self space_id below n1 s1 n' s').
    { unfold children_expanded. destruct (get_has_child n1).
      - destruct (_get_wiki_space_nodes self fuel space_id
                                        (get_node_token n1) s1)
          as [[[cs|e] s2]|] eqn:Efetch; [| |discriminate E2].
        + destruct (recurse cs s2) as [[[cs'|e] s3]|] eqn:Erec;
            [| |discriminate E2].
          * destruct (Hrec _ _ _ _ Erec) as [cs'' [Hcs Hbelow]].
            injection Hcs as <-. injection E2 as <- <-.
            eexists. split; [reflexivity|].
            exists fuel. right. exists cs, s2, cs'. now repeat split.
          * destruct (Hrec _ _ _ _ Erec) as [cs'' [Hcs _]]. discriminate Hcs.
        + injection E2 as <- <-. eexists. split; [reflexivity|].
          exists fuel. left. exists e. now split.
      - injection E2 as <- <-. exists n1. now repeat split. }
    destruct Hchildren as [n' [-> Hchildren]].
    exists n'. split; [reflexivity|]. now exists n1, s1.
  - rewrite resolve_content_reader in E1.
    destruct (content_reader self fuel n) as [reader|];
      [|discriminate E1].
    destruct (reader s) as [[[c|e'] s0]|]; discriminate E1.
Qed.

(** What the traversal does, when it comes to an end: it does not raise,
    and it went through the nodes as [traversed] says, for the levels that
    the depth leaves open. *)
Lemma read_wiki_nodes_recursive_traversed (fuel : nat) :
  forall space_id nodes depth s r s',
    _read_wiki_nodes_recursive self fuel space_id nodes depth s
    = Some (r, s') ->
    exists nodes',
      r = Return nodes'
      /\ traversed self space_id (6 - depth) nodes s nodes' s'.
Proof.
  induction fuel as [|fuel IH]; intros space_id nodes depth s r s' Hrun;
    simpl in Hrun; destruct (5 <? depth)%nat eqn:E.
  - apply Nat.ltb_lt in E. injection Hrun as <- <-.
    exists nodes. split; [reflexivity|].
    replace (6 - depth) with 0 by lia. now split.
  - discriminate Hrun.
  - apply Nat.ltb_lt in E. injection Hrun as <- <-.
    exists nodes. split; [reflexivity|].
    replace (6 - depth) with 0 by lia. now split.
  - apply Nat.ltb_ge in E.
    replace (6 - depth) with (S (6 - (depth + 1))) by lia.
    cbn [traversed].
    refine (for_each_rounds _ _ _ _ _ _ _ Hrun).
    intros n s0 r0 s0'.
    apply visit_node_traversed.
    intros cs s1 r1 s1'. apply IH.
Qed.

Lemma explored_exclusive (fetched : Node -> Prop) :
  (forall n, fetched n -> unvisited n) ->
  forall k n n',
    unvisited n -> explored fetched k n n' -> exclusive n'.
Proof.
  intros Hfetched.
  induction k as [|k IH]; intros n n' [Hc [Hce [Hch Hche]]] Hexp;
    simpl in Hexp.
  - subst n'. constructor; auto. intros cs Hcs. congruence.
  - destruct Hexp as [_ [Hcontent Hchildren]].
    unfold content_written in Hcontent.
    unfold children_written in Hchildren.
    constructor.
    + destruct (readable (get_obj_type n)).
      * destruct Hcontent as [[c [_ H]] | [e [_ H]]]; [right | left];
          congruence.
      * left. destruct Hcontent as [H _]. congruence.
    + destruct (get_has_child n).
      * destruct Hchildren as [[e [_ H]] | [cs [cs' [_ [_ [_ H]]]]]];
          [left | right]; congruence.
      * left. destruct Hchildren as [H _]. congruence.
    + intros cs0 Hcs0. destruct (get_has_child n).
      * destruct Hchildren as [[e [_ H]] | [cs [cs' [Hf [Hbelow [H _]]]]]];
          [congruence|].
        rewrite H in Hcs0. injection Hcs0 as <-.
        clear H. induction Hbelow as [|c c' cs cs' Hcc' Hbelow IHb];
          constructor.
        -- apply (IH c c'); [|exact Hcc'].
           apply Hfetched. now inversion Hf.
        -- apply IHb. now inversion Hf.
      * destruct Hchildren as [H _]. congruence.
Qed.

End Traversal.

(** ** The example wiki *)

Lemma wiki_runs_dry : runs_dry wiki_env (fun _ => 0).
Proof.
  intros R r w. split; [apply Nat.le_refl|].
  intros H. exfalso. simpl in H.
  destruct r; simpl in H; try discriminate H.
  destruct (wiki_nodes space_id parent_node_token); discriminate H.
Qed.

Lemma wiki_lists_unvisited : lists_only wiki_env unvisited.
Proof.
  intros space_id page_size parent page_token s p s' H.
  unfold request in H. simpl in H.
  destruct (wiki_nodes space_id parent) as [l|] eqn:E; [|discriminate H].
  injection H as <- _. simpl. unfold wiki_nodes in E.
  destruct (space_id =? "chain");
    [destruct parent; injection E as <-; repeat constructor|].
  destruct (space_id =? "three");
    [destruct parent; [discriminate E|]; injection E as <-;
     repeat constructor|].
  destruct (space_id =? "broken");
    [destruct parent; [discriminate E|]; injection E as <-;
     repeat constructor|].
  discriminate E.
Qed.

(** ** The depth limit of the traversal *)

(** C3. At a depth above 5 the traversal returns the list it was given as
    it is, without any request. Whatever it comes to from a depth of at most
    5, it does not raise, and it went through each node down to depth 5 in
    turn: the node got the content that the reader of its type returned, or
    the message of what that reader raised; then, when it declares children,
    the list of its children was fetched and traversed one level down and
    became its children, or the message of what the listing raised became
    its children error; the nodes fetched at depth 6 are left as they were
    fetched, and nothing is requested for them. Against a world that cannot
    announce further pages for ever it does return, given the budget for
    it. *)
Theorem traversal_depth_limit (W : Type) (self : Env W) :
  (forall fuel space_id nodes depth s,
      5 < depth ->
      _read_wiki_nodes_recursive self fuel space_id nodes depth s
      = Some (Return nodes, s))
  /\ (forall fuel space_id nodes depth s r s',
         _read_wiki_nodes_recursive self fuel space_id nodes depth s
         = Some (r, s') ->
         exists nodes',
           r = Return nodes'
           /\ traversed self space_id (6 - depth) nodes s nodes' s')
  /\ (forall fetched fuel space_id nodes depth s r s',
         lists_only self fetched ->
         _read_wiki_nodes_recursive self fuel space_id nodes depth s
         = Some (r, s') ->
         exists nodes',
           r = Return nodes'
           /\ Forall2 (explored fetched (6 - depth)) nodes nodes')
  /\ (forall left fuel space_id nodes depth s,
         runs_dry self left ->
         left (world s) + (6 - depth) <= fuel ->
         exists nodes' s',
           _read_wiki_nodes_recursive self fuel space_id nodes depth s
           = Some (Return nodes', s')).
Proof.
  split; [|split; [|split]].
  - intros fuel space_id nodes depth s Hdepth.
    apply Nat.ltb_lt in Hdepth.
    destruct fuel; simpl; now rewrite Hdepth.
  - intros fuel space_id nodes depth s r s'.
    apply read_wiki_nodes_recursive_traversed.
  - intros fetched fuel space_id nodes depth s r s' Hlists.
    now apply read_wiki_nodes_recursive_explored.
  - intros left fuel space_id nodes depth s Hdry Hfuel.
    destruct (returns_read_wiki_nodes_recursive
                W self left Hdry fuel (left (world s)) space_id nodes depth
                Hfuel s (Nat.le_refl _))
      as [nodes' [s' [Hrun _]]].
    now exists nodes', s'.
Qed.

Lemma traversal_depth_limit_witness :
  (exists nodes' s',
      _read_wiki_nodes_recursive wiki_env 6 "chain" [chain_node "n"] 0 start
      = Some (Return nodes', s')
      /\ traversed wiki_env "chain" 6 [chain_node "n"] start nodes' s'
      /\ Forall2 (explored unvisited 6) [chain_node "n"] nodes')
  /\ _read_wiki_nodes_recursive wiki_env 0 "chain" [chain_node "n++++++"]
                                6 start
     = Some (Return [chain_node "n++++++"], start).
Proof.
  destruct (traversal_depth_limit nat wiki_env)
    as [Hcut [Htraversed [Hexplored Hreturns]]].
  split.
  - destruct (Hreturns (fun _ => 0) 6 "chain" [chain_node "n"] 0 start
                       wiki_runs_dry (Nat.le_refl 6))
      as [nodes' [s' Hrun]].
    exists nodes', s'. split; [exact Hrun|]. split.
    + destruct (Htraversed 6 "chain" [chain_node "n"] 0 start
                           (Return nodes') s' Hrun)
        as [nodes'' [Heq Htr]].
      injection Heq as ->. exact Htr.
    + destruct (Hexplored unvisited 6 "chain" [chain_node "n"] 0 start
                          (Return nodes') s' wiki_lists_unvisited Hrun)
        as [nodes'' [Heq Hexp]].
      injection Heq as ->. exact Hexp.
  - apply Hcut. lia.
Defined.

(** The chain of the example wiki, where every node declares a child: the
    nodes at depths 0 to 5 get content and children, the node at depth 6 is
    there as it was fetched, and the nodes below it were never asked for (18
    requests: two for each document, one for each list of children). *)
Example chain_traversal :
  exists nodes' s',
    _read_wiki_nodes_recursive wiki_env 6 "chain" [chain_node "n"] 0 start
    = Some (Return nodes', s')
    /\ map (outline 8) nodes'
       = [[("n", true, true); ("n+", true, true); ("n++", true, true);
           ("n+++", true, true); ("n++++", true, true);
           ("n+++++", true, true); ("n++++++", false, false)]]
    /\ world s' = 18.
Proof.
  eexists. eexists. split; [vm_compute; reflexivity|].
  split; reflexivity.
Qed.

(** ** Mutually exclusive keys *)

(** C9. When the nodes that the platform lists, and the nodes given to the
    traversal, carry none of the four keys, then on every node of the tree
    that the traversal returns, at every depth, [content] and
    [content_error] are not both present, and neither are [children] and
    [children_error]. *)
Theorem traversal_keys_exclusive (W : Type) (self : Env W) (fuel : nat)
        (space_id : string) (nodes : list Node) (depth : nat)
        (s s' : State W) (r : Result (list Node)) :
  lists_only self unvisited ->
  Forall unvisited nodes ->
  _read_wiki_nodes_recursive self fuel space_id nodes depth s = Some (r, s') ->
  exists nodes', r = Return nodes' /\ Forall exclusive nodes'.
Proof.
  intros Hlists Hnodes Hrun.
  destruct (read_wiki_nodes_recursive_explored W self unvisited Hlists
              _ _ _ _ _ _ _ Hrun) as [nodes' [-> Hexp]].
  exists nodes'. split; [reflexivity|]. clear Hrun.
  induction Hexp as [|n n' ns ns' Hn Hns IH]; constructor.
  - apply (explored_exclusive unvisited (fun _ H => H) (6 - depth) n n');
      [now inversion Hnodes | exact Hn].
  - apply IH. now inversion Hnodes.
Qed.

Lemma traversal_keys_exclusive_witness :
  exists nodes',
    (exists s',
        _read_wiki_nodes_recursive
          wiki_env 6 "broken"
          [platform_node "p" "docx" "doc_p" true "broken";
           leaf "b" "three"] 0 start
        = Some (Return nodes', s'))
    /\ Forall exclusive nodes'.
Proof.
  destruct (returns_read_wiki_nodes_recursive
              nat wiki_env (fun _ => 0) wiki_runs_dry 6 0 "broken"
              [platform_node "p" "docx" "doc_p" true "broken";
               leaf "b" "three"] 0
              (Nat.le_refl 6) start (Nat.le_refl 0))
    as [nodes' [s' [Hrun _]]].
  exists nodes'. split; [now exists s'|].
  destruct (traversal_keys_exclusive
              nat wiki_env 6 "broken"
              [platform_node "p" "docx" "doc_p" true "broken";
               leaf "b" "three"] 0 start s' (Return nodes')
              wiki_lists_unvisited) as [nodes'' [Heq Hexcl]].
  - repeat constructor.
  - exact Hrun.
  - injection Heq as ->. exact Hexcl.
Defined.

Lemma unvisited_exclusive (n : Node) : unvisited n -> exclusive n.
Proof.
  intros [Hc [Hce [Hch Hche]]]. constructor; auto.
  intros cs Hcs. congruence.
Qed.

(** The same holds for the nodes of a whole space, read recursively or
    not: the roots are fetched from the platform as well. *)
Lemma read_wiki_space_keys_exclusive (W : Type) (self : Env W) (fuel : nat)
      (space_id : string) (recursive : bool) (s s' : State W)
      (r : SpaceResult) :
  lists_only self unvisited ->
  read_wiki_space self fuel space_id recursive s = Some (Return r, s') ->
  Forall exclusive (nodes r).
Proof.
  intros Hlists. unfold read_wiki_space. unfold bind at 1.
  destruct (request self (GetWikiSpace space_id) s)
    as [[[space_info|e] s1]|]; try discriminate.
  unfold bind at 1.
  destruct (_get_wiki_space_nodes self fuel space_id None s1)
    as [[[roots|e] s2]|] eqn:Eroots; try discriminate.
  pose proof (get_wiki_space_nodes_fetched W self unvisited _ _ _ _ _ _
                                           Hlists Eroots) as Hroots.
  unfold bind at 1. destruct recursive.
  - destruct (_read_wiki_nodes_recursive self fuel space_id roots 0 s2)
      as [[[roots'|e] s3]|] eqn:Erec; try discriminate.
    intros H. injection H as <- _. simpl.
    destruct (read_wiki_nodes_recursive_explored W self unvisited Hlists
                _ _ _ _ _ _ _ Erec) as [roots'' [Heq Hexp]].
    injection Heq as <-. clear Erec Eroots.
    induction Hexp as [|n n' ns ns' Hn Hns IH]; constructor.
    + apply (explored_exclusive unvisited (fun _ H => H) (6 - 0) n n');
        [now inversion Hroots | exact Hn].
    + apply IH. now inversion Hroots.
  - intros H. injection H as <- _. simpl.
    eapply Forall_impl; [exact unvisited_exclusive | exact Hroots].
Qed.

(** ** Failures stay where they happen *)

Lemma read_wiki_nodes_recursive_step (W : Type) (self : Env W) (fuel : nat)
      (space_id : string) (nodes : list Node) (depth : nat) :
  depth <= 5 ->
  _read_wiki_nodes_recursive self (S fuel) space_id nodes depth
  = for_each
      (visit_node self (S fuel) space_id
         (fun children =>
            _read_wiki_nodes_recursive self fuel space_id children
                                       (depth + 1)))
      nodes.
Proof.
  intros Hdepth. simpl.
  now replace (5 <? depth)%nat with false
    by (symmetry; apply Nat.ltb_ge; lia).
Qed.

(** The traversal of a list goes through the nodes before [n], then
    through [n], then through the nodes after it. *)
Lemma read_wiki_nodes_recursive_middle (W : Type) (self : Env W)
      (fuel : nat) (space_id : string) (depth : nat)
      (pre post pre' post' : list Node) (n n' : Node)
      (s s1 s2 s3 : State W) :
  depth <= 5 ->
  _read_wiki_nodes_recursive self (S fuel) space_id pre depth s
  = Some (Return pre', s1) ->
  visit_node self (S fuel) space_id
             (fun children =>
                _read_wiki_nodes_recursive self fuel space_id children
                                           (depth + 1))
             n s1
  = Some (Return n', s2) ->
  _read_wiki_nodes_recursive self (S fuel) space_id post depth s2
  = Some (Return post', s3) ->
  _read_wiki_nodes_recursive self (S fuel) space_id (pre ++ n :: post)
                             depth s
  = Some (Return (pre' ++ n' :: post')%list, s3).
Proof.
  intros Hdepth. rewrite !read_wiki_nodes_recursive_step by exact Hdepth.
  intros Hpre Hn Hpost. rewrite for_each_app, Hpre. simpl.
  unfold bind at 1. rewrite Hn. unfold bind at 1. now rewrite Hpost.
Qed.

(** The traversal returns the nodes it was given, in the same order. *)
Lemma read_wiki_nodes_recursive_same (W : Type) (self : Env W)
      (fuel : nat) (space_id : string) (nodes nodes' : list Node)
      (depth : nat) (s s' : State W) :
  _read_wiki_nodes_recursive self fuel space_id nodes depth s
  = Some (Return nodes', s') ->
  Forall2 same_node nodes nodes'.
Proof.
  intros Hrun.
  assert (Hlists : lists_only self (fun _ => True)).
  { intros space_id' page_size parent page_token s0 p s0' _.
    apply Forall_forall. trivial. }
  destruct (read_wiki_nodes_recursive_explored
              W self _ Hlists _ _ _ _ _ _ _ Hrun) as [nodes'' [Heq Hexp]].
  injection Heq as <-. clear Hrun.
  induction Hexp as [|n n' ns ns' Hn Hns IH]; constructor; [|exact IH].
  destruct (6 - depth) as [|k]; simpl in Hn.
  - subst n'. unfold same_node. repeat split.
  - exact (proj1 Hn).
Qed.

(** The second [try] leaves the content keys alone. *)
Lemma expand_children_content (W : Type) (self : Env W) (fuel : nat)
      (space_id : string) (recurse : list Node -> M W (list Node))
      (n n' : Node) (s s' : State W) :
  expand_children self fuel space_id recurse n s = Some (Return n', s') ->
  same_node n n'
  /\ get_content n' = get_content n
  /\ get_content_error n' = get_content_error n.
Proof.
  rewrite expand_children_cases. unfold same_node.
  destruct (get_has_child n) eqn:Hchild.
  - destruct (_get_wiki_space_nodes self fuel space_id (get_node_token n) s)
      as [[[cs|e] s1]|]; [| |discriminate].
    + destruct (recurse cs s1) as [[[cs'|e] s2]|]; [| |discriminate];
        intros H; injection H as <- _; simpl; repeat split; assumption.
    + intros H; injection H as <- _; simpl; repeat split; assumption.
  - intros H; injection H as <- _; repeat split; assumption.
Qed.

(** C4. In a list of nodes given to the traversal (at a depth of at most
    5), let the content read of the node [n] fail with the message [e]. Then
    the list returned has the entries of the nodes before [n], as the
    traversal returns them for these nodes alone, then [n] with
    [content_error = e] and without content, then the entries of the nodes
    after [n], as the traversal returns them for these nodes alone from the
    state reached: an entry for each node, in the same order. *)
Theorem content_failure_is_local (W : Type) (self : Env W) (fuel : nat)
        (space_id : string) (depth : nat)
        (pre post pre' post' : list Node) (n n' : Node)
        (reader : M W Content) (e : string) (s s1 s2 s3 s4 : State W) :
  depth <= 5 ->
  _read_wiki_nodes_recursive self (S fuel) space_id pre depth s
  = Some (Return pre', s1) ->
  content_reader self (S fuel) n = Some reader ->
  reader s1 = Some (Raise e, s2) ->
  expand_children self (S fuel) space_id
                  (fun children =>
                     _read_wiki_nodes_recursive self fuel space_id children
                                                (depth + 1))
                  (set_content_error e n) s2
  = Some (Return n', s3) ->
  _read_wiki_nodes_recursive self (S fuel) space_id post depth s3
  = Some (Return post', s4) ->
  _read_wiki_nodes_recursive self (S fuel) space_id (pre ++ n :: post)
                             depth s
  = Some (Return (pre' ++ n' :: post')%list, s4)
  /\ Forall2 same_node (pre ++ n :: post) (pre' ++ n' :: post')
  /\ get_content_error n' = Some e
  /\ get_content n' = get_content n.
Proof.
  intros Hdepth Hpre Hreader Hraise Hchildren Hpost.
  destruct (expand_children_content _ _ _ _ _ _ _ _ _ Hchildren)
    as [Hsame [Hc Hce]].
  split; [|split; [|split]].
  - apply (read_wiki_nodes_recursive_middle
             W self fuel space_id depth pre post pre' post' n n' s s1 s3 s4
             Hdepth Hpre); [|exact Hpost].
    unfold visit_node, bind.
    now rewrite resolve_content_reader, Hreader, Hraise.
  - apply Forall2_app.
    + exact (read_wiki_nodes_recursive_same _ _ _ _ _ _ _ _ _ Hpre).
    + constructor; [exact Hsame|].
      exact (read_wiki_nodes_recursive_same _ _ _ _ _ _ _ _ _ Hpost).
  - exact Hce.
  - exact Hc.
Qed.

Lemma content_failure_is_local_witness :
  _read_wiki_nodes_recursive
    wiki_env 6 "three"
    [leaf "a" "three"; leaf "b" "three"; leaf "c" "three"] 0 start
  = Some (Return
            [set_content (DocxContent (JStr "doc_a") [JStr "block"] "*")
                         (leaf "a" "three");
             set_content_error "权限不足，请检查应用权限配置"
                               (leaf "b" "three");
             set_content (DocxContent (JStr "doc_c") [JStr "block"] "*")
                         (leaf "c" "three")],
          mkState 5 []).
Proof.
  refine (proj1 (content_failure_is_local
                   nat wiki_env 5 "three" 0
                   [leaf "a" "three"] [leaf "c" "three"]
                   [set_content
                      (DocxContent (JStr "doc_a") [JStr "block"] "*")
                      (leaf "a" "three")]
                   [set_content
                      (DocxContent (JStr "doc_c") [JStr "block"] "*")
                      (leaf "c" "three")]
                   (leaf "b" "three")
                   (set_content_error "权限不足，请检查应用权限配置"
                                      (leaf "b" "three"))
                   (_read_docx wiki_env 6 "doc_b")
                   "权限不足，请检查应用权限配置"
                   start (mkState 2 []) (mkState 3 []) (mkState 3 [])
                   (mkState 5 []) _ _ _ _ _ _)).
  - lia.
  - reflexivity.
  - reflexivity.
  - reflexivity.
  - reflexivity.
  - reflexivity.
Defined.

(** The space of three roots, read as a whole: three entries, the second
    with the error of its document, the first and the third with content. *)
Example three_roots_space :
  exists r s',
    read_wiki_space wiki_env 6 "three" true start = Some (Return r, s')
    /\ node_count r = 3
    /\ map get_node_token (nodes r) = [Some "a"; Some "b"; Some "c"]
    /\ map get_content_error (nodes r)
       = [None; Some "权限不足，请检查应用权限配置"; None]
    /\ map (outline 0) (nodes r)
       = [[("a", true, false)]; [("b", false, false)]; [("c", true, false)]].
Proof.
  eexists. eexists. split; [vm_compute; reflexivity|].
  repeat split.
Qed.

(** C5, as the code has it. In the recursive traversal, when the list of
    children of a node that declares children cannot be fetched, the node
    gets [children_error] with the message and no [children], nothing more is
    requested for it, and the nodes before and after it in the list are
    treated as they are on their own. In the read of a single node
    ([_read_wiki]) the same failure is logged as a warning and the result has
    the empty list of children; the node is returned as it was fetched. *)
Theorem children_failure_stops_branch (W : Type) (self : Env W) :
  (forall fuel space_id recurse n e s s1,
      get_has_child n = true ->
      _get_wiki_space_nodes self fuel space_id (get_node_token n) s
      = Some (Raise e, s1) ->
      expand_children self fuel space_id recurse n s
      = Some (Return (set_children_error e n), s1))
  /\ (forall fuel space_id depth pre post pre' post' n n1 e s s1 s2 s3 s4,
         depth <= 5 ->
         _read_wiki_nodes_recursive self (S fuel) space_id pre depth s
         = Some (Return pre', s1) ->
         resolve_content self (S fuel) n s1 = Some (Return n1, s2) ->
         get_has_child n = true ->
         _get_wiki_space_nodes self (S fuel) space_id (get_node_token n) s2
         = Some (Raise e, s3) ->
         _read_wiki_nodes_recursive self (S fuel) space_id post depth s3
         = Some (Return post', s4) ->
         _read_wiki_nodes_recursive self (S fuel) space_id
                                    (pre ++ n :: post) depth s
         = Some (Return (pre' ++ set_children_error e n1 :: post')%list, s4)
         /\ get_children (set_children_error e n1) = get_children n)
  /\ (forall fuel token node_info content e s s1 s2 s3,
         _get_wiki_node_info self token s = Some (Return node_info, s1) ->
         read_wiki_content
           self fuel
           (get_default "" (get_obj_type node_info))
           (get_default "" (get_obj_token node_info))
           (logged INFO
                   ("Wiki节点: obj_type="
                      ++ get_default "" (get_obj_type node_info)
                      ++ ", obj_token="
                      ++ get_default "" (get_obj_token node_info)) s1)
         = Some (Return content, s2) ->
         get_has_child node_info = true ->
         _get_wiki_children self fuel (fstr (get_space_id node_info)) token s2
         = Some (Raise e, s3) ->
         _read_wiki self fuel token s
         = Some (Return (mkWikiResult node_info content []),
                 logged WARNING ("获取子节点失败: " ++ e) s3)).
Proof.
  split; [|split].
  - intros fuel space_id recurse n e s s1 Hchild Hfetch.
    now rewrite expand_children_cases, Hchild, Hfetch.
  - intros fuel space_id depth pre post pre' post' n n1 e s s1 s2 s3 s4
           Hdepth Hpre Hcontent Hchild Hfetch Hpost.
    destruct (resolve_content_written _ _ _ _ _ _ _ Hcontent)
      as [n1' [Heq [[Htok [_ [_ [Hhas _]]]] [_ [Hch _]]]]].
    injection Heq as <-.
    split; [|exact Hch].
    apply (read_wiki_nodes_recursive_middle
             W self fuel space_id depth pre post pre' post' n _ s s1 s3 s4
             Hdepth Hpre); [|exact Hpost].
    unfold visit_node, bind. rewrite Hcontent.
    now rewrite expand_children_cases, Hhas, Hchild, Htok, Hfetch.
  - intros fuel token node_info content e s s1 s2 s3
           Hinfo Hcontent Hchild Hfetch.
    unfold _read_wiki. unfold bind at 1. rewrite Hinfo.
    unfold bind at 1. unfold logger at 1. fold (logged INFO
      ("Wiki节点: obj_type=" ++ get_default "" (get_obj_type node_info)
         ++ ", obj_token=" ++ get_default "" (get_obj_token node_info)) s1).
    unfold bind at 1. rewrite Hcontent.
    unfold bind at 1, read_wiki_children, try_except.
    now rewrite Hchild, Hfetch.
Qed.

Lemma children_failure_stops_branch_witness :
  _read_wiki_nodes_recursive
    wiki_env 6 "broken"
    [platform_node "p" "docx" "doc_p" true "broken"; leaf "q" "broken"]
    0 start
  = Some (Return
            [set_children_error
               "请求超时"
               (set_content (DocxContent (JStr "doc_p") [JStr "block"] "*")
                            (platform_node "p" "docx" "doc_p" true "broken"));
             set_content (DocxContent (JStr "doc_q") [JStr "block"] "*")
                         (leaf "q" "broken")],
          mkState 5 [])
  /\ _read_wiki wiki_env 6 "wikcnP" start
     = Some (Return
               (mkWikiResult
                  (platform_node "wikcnP" "docx" "doc_p" true "broken")
                  (DocxContent (JStr "doc_p") [JStr "block"] "*") []),
             logged WARNING "获取子节点失败: 请求超时"
                    (mkState 4 [(INFO,
                                 "Wiki节点: obj_type=docx, obj_token=doc_p")])).
Proof.
  destruct (children_failure_stops_branch nat wiki_env) as [_ [Hrec Hone]].
  split.
  - refine (proj1 (Hrec 5 "broken" 0 []
                        [leaf "q" "broken"] []
                        [set_content
                           (DocxContent (JStr "doc_q") [JStr "block"] "*")
                           (leaf "q" "broken")]
                        (platform_node "p" "docx" "doc_p" true "broken")
                        (set_content
                           (DocxContent (JStr "doc_p") [JStr "block"] "*")
                           (platform_node "p" "docx" "doc_p" true "broken"))
                        "请求超时" start start (mkState 2 []) (mkState 3 [])
                        (mkState 5 []) _ _ _ _ _ _)).
    + lia.
    + reflexivity.
    + reflexivity.
    + reflexivity.
    + reflexivity.
    + reflexivity.
  - refine (Hone 6 "wikcnP"
                 (platform_node "wikcnP" "docx" "doc_p" true "broken")
                 (DocxContent (JStr "doc_p") [JStr "block"] "*")
                 "请求超时" start (mkState 1 [])
                 (mkState 3 [(INFO,
                              "Wiki节点: obj_type=docx, obj_token=doc_p")])
                 (mkState 4 [(INFO,
                              "Wiki节点: obj_type=docx, obj_token=doc_p")])
                 _ _ _ _); reflexivity.
Defined.

(** C5 as stated does not hold for the read of a single node: the node
    ["wikcnP"] declares children, listing them fails, and the result has the
    empty list of children and no [children_error] on the node. *)
Lemma read_wiki_children_failure_counterexample :
  exists r s',
    _read_wiki wiki_env 6 "wikcnP" start = Some (Return r, s')
    /\ get_has_child (wiki_node r) = true
    /\ _get_wiki_children wiki_env 6 "broken" "wikcnP" (mkState 3 [])
       = Some (Raise "请求超时", mkState 4 [])
    /\ get_children_error (wiki_node r) = None
    /\ wiki_children r = []
    /\ log s' = [(INFO, "Wiki节点: obj_type=docx, obj_token=doc_p");
                 (WARNING, "获取子节点失败: 请求超时")].
Proof.
  eexists. eexists. split; [vm_compute; reflexivity|].
  repeat split.
Qed.

(** ** Types without a reader *)

Lemma readers_none (W : Type) (self : Env W) (fuel : nat)
      (detected_type : string) :
  ~ In detected_type [TYPE_DOCX; TYPE_DOC; TYPE_SHEET; TYPE_BITABLE; TYPE_WIKI]
  -> readers self fuel detected_type = None.
Proof.
  intros Hnot. unfold readers.
  repeat match goal with
         | |- context [if ?t =? ?k then _ else _] =>
             destruct (String.eqb_spec t k) as [Heq|_];
             [exfalso; apply Hnot; rewrite Heq; simpl; tauto|]
         end.
  reflexivity.
Qed.

Lemma read_wiki_content_note (W : Type) (self : Env W) (fuel : nat)
      (obj_type obj_token : string) (s : State W) :
  ~ In obj_type ["docx"; "doc"; "sheet"; "bitable"] ->
  read_wiki_content self fuel obj_type obj_token s
  = Some (Return (NoteContent ("暂不支持读取类型 " ++ obj_type ++ " 的内容")),
          s).
Proof.
  intros Hnot. unfold read_wiki_content.
  destruct (String.eqb_spec obj_type "docx") as [Heq|_];
    [exfalso; apply Hnot; rewrite Heq; simpl; tauto|].
  destruct (String.eqb_spec obj_type "doc") as [Heq|_];
    [exfalso; apply Hnot; rewrite Heq; simpl; tauto|].
  destruct (String.eqb_spec obj_type "sheet") as [Heq|_];
    [exfalso; apply Hnot; rewrite Heq; simpl; tauto|].
  destruct (String.eqb_spec obj_type "bitable") as [Heq|_];
    [exfalso; apply Hnot; rewrite Heq; simpl; tauto|].
  reflexivity.
Qed.

(** C6, as the code has it. [read], called with a type that has no reader
    (file, slides, or any other string that is not docx, doc, sheet, bitable
    or wiki), raises "unsupported document type" after it has logged what it
    reads. [_read_wiki], for a node whose [obj_type] is none of docx, doc,
    sheet and bitable, sets the content to a note that says so, and raises
    nothing. *)
Theorem unsupported_types (W : Type) (self : Env W) :
  (forall fuel token_or_url token doc_type s,
      doc_type <> EmptyString ->
      ~ In doc_type
           [TYPE_DOCX; TYPE_DOC; TYPE_SHEET; TYPE_BITABLE; TYPE_WIKI] ->
      (if startswith "http" token_or_url
       then _extract_token_from_url self token_or_url = Return token
       else token = token_or_url) ->
      read self fuel token_or_url (Some doc_type) s
      = Some (Raise ("不支持的文档类型: " ++ doc_type),
              logged INFO
                     ("读取文档: type=" ++ doc_type ++ ", token=" ++ token)
                     s))
  /\ (forall fuel obj_type obj_token s,
         ~ In obj_type ["docx"; "doc"; "sheet"; "bitable"] ->
         read_wiki_content self fuel obj_type obj_token s
         = Some (Return
                   (NoteContent ("暂不支持读取类型 " ++ obj_type ++ " 的内容")),
                 s))
  /\ (forall fuel token node_info s s1,
         _get_wiki_node_info self token s = Some (Return node_info, s1) ->
         ~ In (get_default "" (get_obj_type node_info))
              ["docx"; "doc"; "sheet"; "bitable"] ->
         get_has_child node_info = false ->
         _read_wiki self fuel token s
         = Some (Return
                   (mkWikiResult
                      node_info
                      (NoteContent
                         ("暂不支持读取类型 "
                            ++ get_default "" (get_obj_type node_info)
                            ++ " 的内容"))
                      []),
                 logged INFO
                        ("Wiki节点: obj_type="
                           ++ get_default "" (get_obj_type node_info)
                           ++ ", obj_token="
                           ++ get_default "" (get_obj_token node_info))
                        s1)).
Proof.
  split; [|split].
  - intros fuel token_or_url token doc_type s Hne Hnot Htoken.
    unfold read.
    replace (truthy (Some doc_type)) with (Some doc_type)
      by (destruct doc_type; [contradiction | reflexivity]).
    assert (Hget : (if startswith "http" token_or_url
                    then lift (_extract_token_from_url self token_or_url)
                    else ret token_or_url) s
                   = Some (Return token, s)).
    { destruct (startswith "http" token_or_url);
        [unfold lift; now rewrite Htoken | now subst]. }
    unfold bind at 1. unfold bind at 1. rewrite Hget.
    unfold ret at 1. cbn [fst snd].
    unfold bind at 1, logger at 1.
    now rewrite readers_none.
  - intros fuel obj_type obj_token s. apply read_wiki_content_note.
  - intros fuel token node_info s s1 Hinfo Hnot Hchild.
    unfold _read_wiki. unfold bind at 1. rewrite Hinfo.
    unfold bind at 1, logger at 1.
    unfold bind at 1. rewrite read_wiki_content_note by exact Hnot.
    unfold bind, read_wiki_children. now rewrite Hchild.
Qed.

Lemma unsupported_types_witness :
  read wiki_env 6 "https://x.feishu.cn/file/boxcnXYZ" (Some TYPE_SLIDES) start
  = Some (Raise "不支持的文档类型: slides",
          logged INFO "读取文档: type=slides, token=boxcnXYZ" start)
  /\ _read_wiki wiki_env 6 "wikcnF" start
     = Some (Return
               (mkWikiResult
                  (platform_node "wikcnF" "file" "boxcnF" false "broken")
                  (NoteContent "暂不支持读取类型 file 的内容") []),
             logged INFO "Wiki节点: obj_type=file, obj_token=boxcnF"
                    (mkState 1 [])).
Proof.
  destruct (unsupported_types nat wiki_env) as [Hread [_ Hwiki]].
  split.
  - apply (Hread 6 "https://x.feishu.cn/file/boxcnXYZ" "boxcnXYZ"
                 TYPE_SLIDES start).
    + discriminate.
    + simpl. intros H.
      repeat (destruct H as [H | H]; [discriminate H|]). contradiction.
    + reflexivity.
  - apply (Hwiki 6 "wikcnF"
                 (platform_node "wikcnF" "file" "boxcnF" false "broken")
                 start (mkState 1 [])).
    + reflexivity.
    + simpl. intros H.
      repeat (destruct H as [H | H]; [discriminate H|]). contradiction.
    + reflexivity.
Defined.

(** C6 as stated does not hold for [read]: asked for a file or for
    slides, it raises. *)
Lemma read_unsupported_type_counterexample :
  read wiki_env 6 "boxcnXYZ" (Some TYPE_FILE) start
  = Some (Raise "不支持的文档类型: file",
          logged INFO "读取文档: type=file, token=boxcnXYZ" start)
  /\ read wiki_env 6 "boxcnXYZ" (Some TYPE_SLIDES) start
     = Some (Raise "不支持的文档类型: slides",
             logged INFO "读取文档: type=slides, token=boxcnXYZ" start).
Proof. split; reflexivity. Qed.

(** * Further properties of the reader *)

(** ** Type detection and the entry point *)

Lemma bind_return {W A B} (m : M W A) (k : A -> M W B) (s s' : State W)
      (a : A) :
  m s = Some (Return a, s') -> bind m k s = k a s'.
Proof. intros H. unfold bind. now rewrite H. Qed.

Lemma bind_raise {W A B} (m : M W A) (k : A -> M W B) (s s' : State W)
      (e : string) :
  m s = Some (Raise e, s') -> bind m k s = Some (Raise e, s').
Proof. intros H. unfold bind. now rewrite H. Qed.

Lemma match_prefix_in (token : string) (prefixes : list (string * string))
      (doc_type : string) :
  match_prefix token prefixes = Some doc_type ->
  exists prefix, In (prefix, doc_type) prefixes.
Proof.
  induction prefixes as [|[p t] prefixes IH]; simpl; [discriminate|].
  destruct (startswith p token || contains p token).
  - intros H. injection H as <-. exists p. now left.
  - intros H. destruct (IH H) as [prefix Hin]. exists prefix. now right.
Qed.

Lemma token_prefix_types (prefix doc_type : string) :
  In (prefix, doc_type) TOKEN_PREFIXES ->
  In doc_type [TYPE_DOCX; TYPE_DOC; TYPE_SHEET; TYPE_BITABLE; TYPE_WIKI].
Proof.
  simpl. intros H.
  repeat (destruct H as [H | H]; [injection H as _ <-; tauto|]).
  contradiction.
Qed.

(** What an answer of [detect_type] says about its run. *)
Lemma detect_type_inv (W : Type) (self : Env W) (x kind token : string)
      (s s' : State W) :
  detect_type self x s = Some (Return (kind, token), s') ->
  (if startswith "http" x
   then _extract_token_from_url self x = Return token
   else token = x)
  /\ In kind [TYPE_DOCX; TYPE_DOC; TYPE_SHEET; TYPE_BITABLE; TYPE_WIKI]
  /\ (s' = s
      \/ s' = logged WARNING
                     ("无法识别token类型: " ++ token ++ "，默认使用docx") s).
Proof.
  destruct (startswith "http" x) eqn:Ehttp.
  - rewrite detect_type_url by exact Ehttp.
    destruct (_extract_token_from_url self x) as [t|e]; [|discriminate].
    destruct (match_prefix t TOKEN_PREFIXES) as [k|] eqn:Ek;
      intros H; injection H as <- <- <-.
    + destruct (match_prefix_in _ _ _ Ek) as [p Hp].
      split; [reflexivity|]. split; [exact (token_prefix_types _ _ Hp)|].
      now left.
    + split; [reflexivity|]. split; [simpl; tauto | now right].
  - rewrite detect_type_token by exact Ehttp.
    destruct (match_prefix x TOKEN_PREFIXES) as [k|] eqn:Ek;
      intros H; injection H as <- <- <-.
    + destruct (match_prefix_in _ _ _ Ek) as [p Hp].
      split; [reflexivity|]. split; [exact (token_prefix_types _ _ Hp)|].
      now left.
    + split; [reflexivity|]. split; [simpl; tauto | now right].
Qed.

Lemma readers_some (W : Type) (self : Env W) (fuel : nat) (kind : string) :
  In kind [TYPE_DOCX; TYPE_DOC; TYPE_SHEET; TYPE_BITABLE; TYPE_WIKI] ->
  exists reader, readers self fuel kind = Some reader.
Proof.
  simpl. intros H.
  repeat (destruct H as [H | H]; [subst kind; eexists; reflexivity|]).
  contradiction.
Qed.

(** X1. Whatever [detect_type] answers, for a token or for a URL, is one of
    docx, doc, sheet, bitable and wiki (never file or slides), and [read]
    has a reader for it. *)
Theorem detect_type_has_reader (W : Type) (self : Env W) (fuel : nat)
        (x kind token : string) (s s' : State W) :
  detect_type self x s = Some (Return (kind, token), s') ->
  In kind [TYPE_DOCX; TYPE_DOC; TYPE_SHEET; TYPE_BITABLE; TYPE_WIKI]
  /\ exists reader, readers self fuel kind = Some reader.
Proof.
  intros H. destruct (detect_type_inv _ _ _ _ _ _ _ H) as [_ [Hkind _]].
  split; [exact Hkind | now apply readers_some].
Qed.

Lemma detect_type_has_reader_witness :
  In TYPE_BITABLE [TYPE_DOCX; TYPE_DOC; TYPE_SHEET; TYPE_BITABLE; TYPE_WIKI]
  /\ exists reader, readers wiki_env 6 TYPE_BITABLE = Some reader.
Proof.
  apply (detect_type_has_reader nat wiki_env 6
           "https://x.feishu.cn/base/bascnXYZ?table=t1" TYPE_BITABLE
           "bascnXYZ" start start).
  reflexivity.
Defined.

Lemma truthy_kind (kind : string) :
  In kind [TYPE_DOCX; TYPE_DOC; TYPE_SHEET; TYPE_BITABLE; TYPE_WIKI] ->
  truthy (Some kind) = Some kind.
Proof.
  simpl. intros H.
  repeat (destruct H as [H | H]; [subst kind; reflexivity|]).
  contradiction.
Qed.

(** X2. Reading with automatic detection is reading with the detected type
    given explicitly, from the state in which detection ends (the one it
    started in, plus the warning when no prefix matched); and an empty type
    string counts as no type given. *)
Theorem read_auto_is_explicit (W : Type) (self : Env W) (fuel : nat) :
  (forall x s, read self fuel x (Some EmptyString) s = read self fuel x None s)
  /\ (forall x kind token s s1,
         detect_type self x s = Some (Return (kind, token), s1) ->
         read self fuel x None s = read self fuel x (Some kind) s1).
Proof.
  split; [reflexivity|].
  intros x kind token s s1 Hdetect.
  destruct (detect_type_inv _ _ _ _ _ _ _ Hdetect) as [Htoken [Hkind _]].
  unfold read. rewrite (truthy_kind kind Hkind). simpl truthy.
  rewrite (bind_return _ _ _ _ _ Hdetect).
  match goal with
  | |- _ = bind ?m _ s1 =>
      assert (Hexplicit : m s1 = Some (Return (kind, token), s1))
  end.
  { unfold bind.
    destruct (startswith "http" x);
      [unfold lift; now rewrite Htoken | now subst]. }
  now rewrite (bind_return _ _ _ _ _ Hexplicit).
Qed.

Lemma read_auto_is_explicit_witness :
  read wiki_env 6 "https://x.feishu.cn/sheets/abc123" None start
  = read wiki_env 6 "https://x.feishu.cn/sheets/abc123" (Some TYPE_DOCX)
         (logged WARNING "无法识别token类型: abc123，默认使用docx" start).
Proof.
  apply (proj2 (read_auto_is_explicit nat wiki_env 6)
               "https://x.feishu.cn/sheets/abc123" TYPE_DOCX "abc123").
  reflexivity.
Defined.

(** X3. A URL and the token extracted from it are given the same answer,
    when the token does not itself begin with "http". *)
Theorem detect_type_url_as_token (W : Type) (self : Env W)
        (url token : string) (s : State W) :
  startswith "http" url = true ->
  _extract_token_from_url self url = Return token ->
  startswith "http" token = false ->
  detect_type self url s = detect_type self token s.
Proof.
  intros Hurl Hextract Htoken.
  rewrite detect_type_url by exact Hurl.
  rewrite detect_type_token by exact Htoken.
  now rewrite Hextract.
Qed.

Lemma detect_type_url_as_token_witness :
  detect_type wiki_env "https://x.feishu.cn/wiki/wikcnAbC?from=x" start
  = detect_type wiki_env "wikcnAbC" start.
Proof.
  apply detect_type_url_as_token; reflexivity.
Defined.

(** ** The shape of an extracted token *)

Lemma split_no_sep (sep : ascii) (s p : string) :
  In p (split sep s) -> ~ has_char sep p.
Proof.
  revert p. induction s as [|c s IH]; intros p; simpl.
  - intros [<- | []]. simpl. tauto.
  - destruct (Ascii.eqb_spec c sep) as [->|Hne].
    + intros [<- | H]; [simpl; tauto | now apply IH].
    + pose proof (split_nonempty sep s) as Hnil.
      destruct (split sep s) as [|h t]; [contradiction|].
      intros [<- | H].
      * simpl. intros [Hc | Hh]; [contradiction|].
        apply (IH h); [now left | exact Hh].
      * apply IH. now right.
Qed.

Lemma has_char_app (c : ascii) (a b : string) :
  has_char c (a ++ b) <-> has_char c a \/ has_char c b.
Proof.
  induction a as [|d a IH]; simpl; [tauto|]. rewrite IH. tauto.
Qed.

Lemma without_query_no_char (c : ascii) (segment token : string) :
  without_query segment token -> ~ has_char c segment -> ~ has_char c token.
Proof.
  intros [_ [-> | [q ->]]] Hno; [exact Hno|].
  intros H. apply Hno. apply has_char_app. now left.
Qed.

Lemma token_after_marker_some (path_parts : list string)
      (enumerated : list (nat * string)) (token : string) :
  token_after_marker path_parts enumerated = Some token ->
  exists segment, In segment path_parts /\ token = before_query segment.
Proof.
  induction enumerated as [|[i part] enumerated IH]; simpl; [discriminate|].
  destruct (in_list part URL_MARKERS); [|exact IH].
  destruct (i + 1 <? length path_parts)%nat eqn:E; [|exact IH].
  intros H. injection H as <-. apply Nat.ltb_lt in E.
  exists (nth (i + 1) path_parts EmptyString).
  split; [now apply nth_In | reflexivity].
Qed.

Lemma last_nonempty_some (parts : list string) (token : string) :
  last_nonempty parts = Some token ->
  exists segment, In segment parts /\ token = before_query segment.
Proof.
  induction parts as [|p parts IH]; simpl; [discriminate|].
  destruct (nonempty p).
  - intros H. injection H as <-. exists p. split; [now left | reflexivity].
  - intros H. destruct (IH H) as [segment [Hin Heq]].
    exists segment. split; [now right | exact Heq].
Qed.

Lemma last_nonempty_none (parts : list string) :
  last_nonempty parts = None -> forall p, In p parts -> p = EmptyString.
Proof.
  induction parts as [|p parts IH]; simpl; [tauto|].
  destruct p as [|c p]; simpl; [|discriminate].
  intros H q [<- | Hq]; [reflexivity | now apply IH].
Qed.

(** X4. Whenever [urlparse] gives a path, the extraction returns a token
    (it does not raise), and this token is the part before the first "?" of
    one of the segments of the path, so that it contains neither "/" nor
    "?"; the only other answer is the URL itself, given back when every
    segment of the path is empty. *)
Theorem extract_token_shape (W : Type) (self : Env W) (url path : string) :
  urlparse_path self url = Return path ->
  exists token,
    _extract_token_from_url self url = Return token
    /\ ((exists segment,
            In segment (split "/" path)
            /\ without_query segment token
            /\ ~ has_char "/" token
            /\ ~ has_char "?" token)
        \/ (token = url
            /\ forall p, In p (split "/" path) -> p = EmptyString)).
Proof.
  intros Hpath. unfold _extract_token_from_url. rewrite Hpath.
  assert (Hsegment : forall segment,
             In segment (split "/" path) ->
             without_query segment (before_query segment)
             /\ ~ has_char "/" (before_query segment)
             /\ ~ has_char "?" (before_query segment)).
  { intros segment Hin. pose proof (before_query_spec segment) as Hq.
    split; [exact Hq|]. split; [|exact (proj1 Hq)].
    apply (without_query_no_char "/" segment _ Hq).
    exact (split_no_sep "/" path segment Hin). }
  destruct (token_after_marker (split "/" path) (enumerate (split "/" path)))
    as [token|] eqn:Emarker.
  - destruct (token_after_marker_some _ _ _ Emarker) as [segment [Hin ->]].
    eexists. split; [reflexivity|]. left. exists segment.
    split; [exact Hin | now apply Hsegment].
  - destruct (last_nonempty (rev (split "/" path))) as [token|] eqn:Elast.
    + destruct (last_nonempty_some _ _ Elast) as [segment [Hin ->]].
      apply in_rev in Hin.
      eexists. split; [reflexivity|]. left. exists segment.
      split; [exact Hin | now apply Hsegment].
    + exists url. split; [reflexivity|]. right. split; [reflexivity|].
      intros p Hp. apply (last_nonempty_none _ Elast). now apply in_rev in Hp.
Qed.

Lemma extract_token_shape_witness :
  exists token,
    _extract_token_from_url wiki_env "https://x.feishu.cn/docx/abc123?tab=x"
    = Return token
    /\ ((exists segment,
            In segment (split "/" "/docx/abc123")
            /\ without_query segment token
            /\ ~ has_char "/" token
            /\ ~ has_char "?" token)
        \/ (token = "https://x.feishu.cn/docx/abc123?tab=x"
            /\ forall p, In p (split "/" "/docx/abc123") -> p = EmptyString)).
Proof.
  apply (extract_token_shape nat wiki_env). reflexivity.
Defined.

(** The first loop passes a marker that is the last segment. *)
Lemma token_after_marker_last (front pre : list string) (marker : string) :
  (forall p, In p pre -> ~ In p URL_MARKERS) ->
  let rest := (pre ++ [marker])%list in
  token_after_marker (front ++ rest)
                     (combine (seq (length front) (length rest)) rest)
  = None.
Proof.
  revert front. induction pre as [|p pre IH]; intros front Hpre; simpl.
  - replace (length front + 1 <? length (front ++ [marker]))%nat with false
      by (symmetry; apply Nat.ltb_ge; rewrite length_app; simpl; lia).
    now destruct (in_list marker URL_MARKERS).
  - rewrite (in_list_false p URL_MARKERS) by (apply Hpre; now left).
    specialize (IH (front ++ [p])%list).
    cbv zeta in IH. rewrite <- app_assoc, length_app in IH. simpl in IH.
    rewrite Nat.add_1_r in IH. apply IH.
    intros q Hq. apply Hpre. now right.
Qed.

(** X5. When the only marker of the path is its last segment (nothing
    follows it), the token is that marker itself: "docx", "wiki", and so
    on. *)
Theorem extract_token_trailing_marker (W : Type) (self : Env W)
        (url path : string) (pre : list string) (marker : string) :
  urlparse_path self url = Return path ->
  split "/" path = (pre ++ [marker])%list ->
  In marker URL_MARKERS ->
  (forall p, In p pre -> ~ In p URL_MARKERS) ->
  _extract_token_from_url self url = Return marker.
Proof.
  intros Hpath Hsplit Hmarker Hpre.
  unfold _extract_token_from_url. rewrite Hpath, Hsplit.
  pose proof (token_after_marker_last [] pre marker Hpre) as Hnone.
  simpl in Hnone. unfold enumerate. rewrite Hnone.
  rewrite rev_app_distr. simpl in *.
  repeat (destruct Hmarker as [<- | Hmarker]; [reflexivity|]).
  contradiction.
Qed.

Lemma extract_token_trailing_marker_witness :
  _extract_token_from_url wiki_env "https://x.feishu.cn/space/docx"
  = Return "docx".
Proof.
  apply (extract_token_trailing_marker
           nat wiki_env "https://x.feishu.cn/space/docx" "/space/docx"
           [EmptyString; "space"] "docx").
  - reflexivity.
  - reflexivity.
  - simpl. tauto.
  - intros p Hp Hin. simpl in Hp, Hin.
    repeat (destruct Hp as [Hp | Hp];
            [subst p;
             repeat (destruct Hin as [Hin | Hin]; [discriminate Hin|]);
             contradiction|]).
    contradiction.
Defined.

(** ** The readers of documents, sheets and bitables *)

Lemma request_returns (W : Type) (self : Env W) (R : Type) (r : Request R)
      (s : State W) :
  exists res s', request self r s = Some (res, s').
Proof.
  unfold request. destruct (_make_request self r (world s)) as [res w'].
  eauto.
Qed.

Lemma request_left (W : Type) (self : Env W) (left : W -> nat) (R : Type)
      (r : Request R) (s s' : State W) (res : Result R) :
  runs_dry self left ->
  request self r s = Some (res, s') ->
  left (world s') <= left (world s).
Proof.
  intros Hdry H. destruct (settles_request W self left Hdry _ r s (le_n _))
    as [res' [s'' [H' Hle]]].
  rewrite H in H'. injection H' as _ <-. exact Hle.
Qed.

(** X6. When the document request returns and the blocks endpoint sends
    its pages up to a last one, [_read_docx] returns the document with the
    blocks of all the pages, in the order of the pages, and with the text
    rendered from these blocks. When the document request raises, nothing
    else is requested and the exception is passed on. *)
Theorem read_docx_pages (W : Type) (self : Env W) (fuel : nat)
        (doc_token : string) :
  (forall s doc_info s1 ps s2 text,
      request self (GetDocument doc_token) s = Some (Return doc_info, s1) ->
      pages_from self (ListBlocks doc_token 500) None s1 ps s2 ->
      length ps <= fuel ->
      _extract_text_from_blocks self (all_items ps) = Return text ->
      _read_docx self fuel doc_token s
      = Some (Return (DocxContent (get_default (JObj []) doc_info)
                                  (all_items ps) text),
              s2))
  /\ (forall s e s1,
         request self (GetDocument doc_token) s = Some (Raise e, s1) ->
         _read_docx self fuel doc_token s = Some (Raise e, s1)).
Proof.
  split.
  - intros s doc_info s1 ps s2 text Hinfo Hpages Hfuel Htext.
    unfold _read_docx. rewrite (bind_return _ _ _ _ _ Hinfo).
    assert (Hblocks : _get_all_blocks self fuel doc_token None s1
                      = Some (Return (all_items ps), s2)).
    { unfold _get_all_blocks. rewrite get_all_blocks_loop_drain.
      now apply (drain_pages W self Json _ never_full (ret tt)
                             _ _ _ _ Hpages). }
    rewrite (bind_return _ _ _ _ _ Hblocks).
    unfold bind, lift. now rewrite Htext.
  - intros s e s1 Hinfo. unfold _read_docx.
    now rewrite (bind_raise _ _ _ _ _ Hinfo).
Qed.

Lemma read_docx_pages_witness :
  _read_docx (scripted_env three_pages []) 3 "doc" (mkState 0 [])
  = Some (Raise "资源未找到", mkState 1 [])
  /\ _read_docx wiki_env 1 "doc_a" start
     = Some (Return (DocxContent (JStr "doc_a") [JStr "block"] "*"),
             mkState 2 []).
Proof.
  split.
  - apply (proj2 (read_docx_pages nat (scripted_env three_pages []) 3 "doc")).
    reflexivity.
  - apply (proj1 (read_docx_pages nat wiki_env 1 "doc_a")
                 start (Some (JStr "doc_a")) (mkState 1 [])
                 [mkPage [JStr "block"] false None] (mkState 2 []) "*").
    + reflexivity.
    + apply pages_last; reflexivity.
    + simpl. lia.
    + reflexivity.
Defined.

(** X7. [_read_doc] returns the metadata of the legacy endpoint, with its
    note, when that endpoint answers; when it raises, a warning is logged
    and the outcome is the one of [_read_docx] on the same token, so that
    [_read_doc] raises only what [_read_docx] raises. *)
Theorem read_doc_fallback (W : Type) (self : Env W) (fuel : nat)
        (doc_token : string) :
  (forall s meta s1,
      request self (GetDocMeta doc_token) s = Some (Return meta, s1) ->
      _read_doc self fuel doc_token s
      = Some (Return
                (DocContent
                   meta "旧版文档(doc)API功能有限，建议使用新版文档(docx)"),
              s1))
  /\ (forall s e s1,
         request self (GetDocMeta doc_token) s = Some (Raise e, s1) ->
         _read_doc self fuel doc_token s
         = _read_docx self fuel doc_token
                      (logged WARNING
                              ("读取旧版文档失败，尝试作为新版文档读取: " ++ e)
                              s1)).
Proof.
  split.
  - intros s meta s1 Hmeta. unfold _read_doc, try_except.
    now rewrite (bind_return _ _ _ _ _ Hmeta).
  - intros s e s1 Hmeta. unfold _read_doc, try_except.
    now rewrite (bind_raise _ _ _ _ _ Hmeta).
Qed.

Lemma read_doc_fallback_witness :
  _read_doc wiki_env 1 "doc_a" start
  = Some (Return (DocxContent (JStr "doc_a") [JStr "block"] "*"),
          mkState 3 [(WARNING,
                      "读取旧版文档失败，尝试作为新版文档读取: 资源未找到")]).
Proof.
  rewrite (proj2 (read_doc_fallback nat wiki_env 1 "doc_a")
                 start "资源未找到" (mkState 1 [])); reflexivity.
Defined.

(** A loop whose every round returns. *)
Lemma for_each_returns {W A B} (Q : A -> B -> Prop) (body : A -> M W B) :
  (forall x s, exists y s', body x s = Some (Return y, s') /\ Q x y) ->
  forall xs s,
  exists ys s', for_each body xs s = Some (Return ys, s') /\ Forall2 Q xs ys.
Proof.
  intros Hbody. induction xs as [|x xs IH]; intros s; simpl.
  - exists [], s. split; [reflexivity | constructor].
  - destruct (Hbody x s) as [y [s1 [Hy HQ]]].
    destruct (IH s1) as [ys [s2 [Hys HQs]]].
    exists (y :: ys), s2. split; [|now constructor].
    rewrite (bind_return _ _ _ _ _ Hy). now rewrite (bind_return _ _ _ _ _ Hys).
Qed.

(** A loop whose every round returns goes through its rounds. *)
Lemma for_each_returns_rounds {W A B}
      (round : A -> State W -> B -> State W -> Prop) (body : A -> M W B) :
  (forall x s,
      exists y s', body x s = Some (Return y, s') /\ round x s y s') ->
  forall xs s,
  exists ys s',
    for_each body xs s = Some (Return ys, s') /\ rounds round xs s ys s'.
Proof.
  intros Hbody. induction xs as [|x xs IH]; intros s; simpl.
  - exists [], s. split; [reflexivity | constructor].
  - destruct (Hbody x s) as [y [s1 [Hy Hround]]].
    destruct (IH s1) as [ys [s2 [Hys Hrounds]]].
    exists (y :: ys), s2. split; [|econstructor; eassumption].
    rewrite (bind_return _ _ _ _ _ Hy). now rewrite (bind_return _ _ _ _ _ Hys).
Qed.

Lemma rounds_Forall2 {W A B} (round : A -> State W -> B -> State W -> Prop)
      (Q : A -> B -> Prop) (xs : list A) (ys : list B) (s s' : State W) :
  (forall x s y s', round x s y s' -> Q x y) ->
  rounds round xs s ys s' -> Forall2 Q xs ys.
Proof.
  intros HQ Hrounds. induction Hrounds; constructor; eauto.
Qed.

(** X8. Once the metadata of a spreadsheet is there, [_read_sheet] returns,
    whatever happens to the requests for the values. Its result has the
    title and the owner of the metadata, and one entry for each sheet of the
    metadata, in their order: the values requests are made one after the
    other, and the entry of a sheet holds the sheet and either the values
    that the request for this sheet returned, or the message that this
    request raised (which is also logged), never both; [sheet_count] is the
    number of these sheets. *)
Theorem read_sheet_entries (W : Type) (self : Env W) (sheet_token : string)
        (s s1 : State W) (meta : option Spreadsheet) :
  request self (GetSpreadsheet sheet_token) s = Some (Return meta, s1) ->
  exists data s',
    _read_sheet self sheet_token s
    = Some (Return
              (SheetContent
                 (get_default
                    EmptyString
                    (spreadsheet_title
                       (get_default (mkSpreadsheet None None []) meta)))
                 (get_default
                    EmptyString
                    (spreadsheet_owner_id
                       (get_default (mkSpreadsheet None None []) meta)))
                 (length
                    (spreadsheet_sheets
                       (get_default (mkSpreadsheet None None []) meta)))
                 data),
            s')
    /\ rounds (sheet_read self sheet_token)
              (spreadsheet_sheets
                 (get_default (mkSpreadsheet None None []) meta))
              s1 data s'
    /\ Forall2 sheet_entry
               (spreadsheet_sheets
                  (get_default (mkSpreadsheet None None []) meta))
               data.
Proof.
  intros Hmeta. unfold _read_sheet.
  rewrite (bind_return _ _ _ _ _ Hmeta).
  match goal with
  | |- context [for_each ?body ?sheets] =>
      destruct (for_each_returns_rounds (sheet_read self sheet_token) body)
        with (xs := sheets) (s := s1)
      as [data [s2 [Hrun Hentries]]]
  end.
  - intros sheet s0. unfold try_except.
    destruct (request_returns W self _
                (GetSheetValues sheet_token (fstr (get_sheet_id sheet))) s0)
      as [[values|e] [s0' Hvalues]].
    + rewrite (bind_return _ _ _ _ _ Hvalues).
      eexists. eexists. split; [reflexivity|].
      unfold sheet_read, sheet_entry. simpl.
      split; [repeat split; left; eauto|].
      left. exists values. now split.
    + rewrite (bind_raise _ _ _ _ _ Hvalues).
      eexists. eexists. split; [reflexivity|].
      unfold sheet_read, sheet_entry. simpl.
      split; [repeat split; right; eauto|].
      right. exists e, s0'. now repeat split.
  - exists data, s2.
    rewrite (bind_return _ _ _ _ _ Hrun). split; [reflexivity|].
    split; [exact Hentries|].
    eapply rounds_Forall2; [|exact Hentries].
    intros sheet s0 d s0' Hread. exact (proj1 Hread).
Qed.

Lemma read_sheet_entries_witness :
  exists data s',
    _read_sheet office_env "shtcnA" start
    = Some (Return
              (SheetContent
                 (get_default
                    EmptyString
                    (spreadsheet_title
                       (get_default
                          (mkSpreadsheet None None [])
                          (Some (mkSpreadsheet
                                   (Some "Budget") None
                                   [mkSheet (Some "s1") (Some "Sales")
                                            (JStr "grid");
                                    mkSheet (Some "s2") None
                                            (JStr "grid")])))))
                 (get_default
                    EmptyString
                    (spreadsheet_owner_id
                       (get_default
                          (mkSpreadsheet None None [])
                          (Some (mkSpreadsheet
                                   (Some "Budget") None
                                   [mkSheet (Some "s1") (Some "Sales")
                                            (JStr "grid");
                                    mkSheet (Some "s2") None
                                            (JStr "grid")])))))
                 (length
                    (spreadsheet_sheets
                       (get_default
                          (mkSpreadsheet None None [])
                          (Some (mkSpreadsheet
                                   (Some "Budget") None
                                   [mkSheet (Some "s1") (Some "Sales")
                                            (JStr "grid");
                                    mkSheet (Some "s2") None
                                            (JStr "grid")])))))
                 data),
            s')
    /\ rounds (sheet_read office_env "shtcnA")
              (spreadsheet_sheets
                 (get_default
                    (mkSpreadsheet None None [])
                    (Some (mkSpreadsheet
                             (Some "Budget") None
                             [mkSheet (Some "s1") (Some "Sales")
                                      (JStr "grid");
                              mkSheet (Some "s2") None (JStr "grid")]))))
              (mkState 1 []) data s'
    /\ Forall2 sheet_entry
               (spreadsheet_sheets
                  (get_default
                     (mkSpreadsheet None None [])
                     (Some (mkSpreadsheet
                              (Some "Budget") None
                              [mkSheet (Some "s1") (Some "Sales")
                                       (JStr "grid");
                               mkSheet (Some "s2") None (JStr "grid")]))))
               data.
Proof.
  apply (read_sheet_entries
           nat office_env "shtcnA" start (mkState 1 [])
           (Some (mkSpreadsheet
                    (Some "Budget") None
                    [mkSheet (Some "s1") (Some "Sales") (JStr "grid");
                     mkSheet (Some "s2") None (JStr "grid")]))).
  reflexivity.
Defined.

(** The spreadsheet of the office: the first sheet with its values, the
    second, untitled, with the error of its request. *)
Example office_spreadsheet :
  _read_sheet office_env "shtcnA" start
  = Some (Return
            (SheetContent
               "Budget" "" 2
               [mkSheetData (Some "s1") "Sales"
                            (mkSheet (Some "s1") (Some "Sales") (JStr "grid"))
                            (Some (JArr [JArr [JNum 1; JNum 2]])) None;
                mkSheetData (Some "s2") "Sheet"
                            (mkSheet (Some "s2") None (JStr "grid"))
                            None (Some "权限不足，请检查应用权限配置")]),
          mkState 3 [(WARNING,
                      "读取工作表 Sheet 失败: 权限不足，请检查应用权限配置")]).
Proof. reflexivity. Qed.

Lemma read_bitable_table_entry (W : Type) (self : Env W) (fuel : nat)
      (app_token : string) (table : Table) (s s' : State W)
      (r : Result TableData) :
  try_except
    (fields <- request self (ListFields app_token
                                        (fstr (get_table_id table))) ;;
     records <- _get_all_bitable_records self fuel app_token
                                         (fstr (get_table_id table)) ;;
     ret (mkTableData (get_table_id table)
                      (get_default "Table" (get_table_name table))
                      (Some fields) (Some records) (Some (length records))
                      None))
    (fun e =>
       logger WARNING
              ("读取数据表 " ++ get_default "Table" (get_table_name table)
                 ++ " 失败: " ++ e) ;;
       ret (mkTableData (get_table_id table)
                        (get_default "Table" (get_table_name table))
                        None None None (Some e)))
    s
  = Some (r, s') ->
  exists d, r = Return d /\ table_entry table d.
Proof.
  unfold try_except, bind at 1.
  destruct (request self (ListFields app_token (fstr (get_table_id table))) s)
    as [[[fields|e] s1]|]; [| |discriminate].
  - unfold bind at 1.
    destruct (_get_all_bitable_records self fuel app_token
                                       (fstr (get_table_id table)) s1)
      as [[[records|e] s2]|]; [| |discriminate];
      intros H; injection H as <- _; eexists; (split; [reflexivity|]);
      unfold table_entry; simpl; repeat split.
    + left. exists fields, records. repeat split.
    + right. exists e. repeat split.
  - intros H; injection H as <- _; eexists; (split; [reflexivity|]);
      unfold table_entry; simpl; repeat split.
    right. exists e. repeat split.
Qed.

(** X9. Once the application and its list of tables are there,
    [_read_bitable] returns against a world that cannot announce further
    pages for ever, whatever fails for a table: its result has one entry for
    each table, in their order, each with either the fields and the records,
    where [record_count] is the number of records, or the message of what
    failed and none of the three; and [table_count] is the number of
    tables. *)
Theorem read_bitable_entries (W : Type) (self : Env W) (left : W -> nat)
        (fuel : nat) (app_token : string) (s s1 s2 : State W)
        (meta : option Json) (tables : list Table) :
  runs_dry self left ->
  left (world s) < fuel ->
  request self (GetBitableApp app_token) s = Some (Return meta, s1) ->
  request self (ListTables app_token) s1 = Some (Return tables, s2) ->
  exists data s',
    _read_bitable self fuel app_token s
    = Some (Return (BitableContent (get_default (JObj []) meta) data
                                   (length tables)),
            s')
    /\ Forall2 table_entry tables data.
Proof.
  intros Hdry Hfuel Hmeta Htables. unfold _read_bitable.
  rewrite (bind_return _ _ _ _ _ Hmeta), (bind_return _ _ _ _ _ Htables).
  pose proof (request_left _ _ _ _ _ _ _ _ Hdry Hmeta) as Hle1.
  pose proof (request_left _ _ _ _ _ _ _ _ Hdry Htables) as Hle2.
  match goal with
  | |- context [for_each ?body tables] =>
      assert (Hreturns : returns left (left (world s)) (for_each body tables));
      [|assert (Hshape : forall s0 r s0',
                   for_each body tables s0 = Some (r, s0') ->
                   exists data, r = Return data
                                /\ Forall2 table_entry tables data)]
  end.
  - apply returns_for_each. intros table.
    apply (returns_try W left).
    + apply (settles_bind W left);
        [now apply (settles_request W self left)|].
      intros fields. apply (settles_bind W left).
      * now apply (settles_get_all_bitable_records W self left Hdry).
      * intros records. apply returns_settles, returns_ret.
    + intros e. apply (returns_bind W left); [apply returns_logger|].
      intros _. apply returns_ret.
  - apply for_each_Forall2. intros table s0 r s0'.
    apply read_bitable_table_entry.
  - destruct (Hreturns s2) as [data [s3 [Hrun _]]]; [lia|].
    destruct (Hshape _ _ _ Hrun) as [data' [Heq Hentries]].
    injection Heq as <-.
    exists data, s3. rewrite (bind_return _ _ _ _ _ Hrun).
    split; [reflexivity | exact Hentries].
Qed.

Lemma office_runs_dry : runs_dry office_env (fun _ => 0).
Proof.
  intros R r w. split; [apply Nat.le_refl|].
  intros H. exfalso. simpl in H.
  destruct r; simpl in H; discriminate H.
Qed.

Lemma read_bitable_entries_witness :
  exists data s',
    _read_bitable office_env 1 "bascnA" start
    = Some (Return (BitableContent (JStr "CRM") data 2), s')
    /\ Forall2 table_entry
               [mkTable (Some "t1") (Some "Orders"); mkTable (Some "t2") None]
               data.
Proof.
  apply (read_bitable_entries
           nat office_env (fun _ => 0) 1 "bascnA" start
           (mkState 1 []) (mkState 2 []) (Some (JStr "CRM"))
           [mkTable (Some "t1") (Some "Orders"); mkTable (Some "t2") None]
           office_runs_dry).
  - simpl. lia.
  - reflexivity.
  - reflexivity.
Defined.

(** The bitable of the office: the first table with its field and its two
    records, the second, unnamed, with the error of its fields. *)
Example office_bitable :
  _read_bitable office_env 1 "bascnA" start
  = Some (Return
            (BitableContent
               (JStr "CRM")
               [mkTableData (Some "t1") "Orders" (Some [JStr "amount"])
                            (Some [JNum 10; JNum 20]) (Some 2) None;
                mkTableData (Some "t2") "Table" None None None
                            (Some "权限不足，请检查应用权限配置")]
               2),
          mkState 5 [(WARNING,
                      "读取数据表 Table 失败: 权限不足，请检查应用权限配置")]).
Proof. reflexivity. Qed.

(** ** The wiki readers *)

Lemma returns_read_wiki_content (W : Type) (self : Env W) (left : W -> nat)
      (fuel b : nat) (obj_type obj_token : string) :
  runs_dry self left ->
  b < fuel ->
  returns left b (read_wiki_content self fuel obj_type obj_token).
Proof.
  intros Hdry Hb. unfold read_wiki_content.
  assert (Hhandler : forall msg e,
             returns left b
                     (logger WARNING (msg ++ e) ;; ret (ErrorContent e)
                      : M W Content)).
  { intros msg e. apply (returns_bind W left); [apply returns_logger|].
    intros _. apply returns_ret. }
  destruct ((obj_type =? "docx") || (obj_type =? "doc")).
  { apply (returns_try W left); [|intros e; apply Hhandler].
    now apply (settles_read_docx W self left Hdry). }
  destruct (obj_type =? "sheet").
  { apply (returns_try W left); [|intros e; apply Hhandler].
    now apply (settles_read_sheet W self left Hdry). }
  destruct (obj_type =? "bitable").
  { apply (returns_try W left); [|intros e; apply Hhandler].
    now apply (settles_read_bitable W self left Hdry). }
  apply returns_ret.
Qed.

Lemma returns_read_wiki_children (W : Type) (self : Env W) (left : W -> nat)
      (fuel b : nat) (node_info : Node) (token : string) :
  runs_dry self left ->
  b < fuel ->
  returns left b (read_wiki_children self fuel node_info token).
Proof.
  intros Hdry Hb. unfold read_wiki_children.
  destruct (get_has_child node_info); [|apply returns_ret].
  apply (returns_try W left).
  - now apply (settles_get_wiki_children W self left Hdry).
  - intros e. apply (returns_bind W left); [apply returns_logger|].
    intros _. apply returns_ret.
Qed.

(** X10. [_read_wiki] raises only when the node itself cannot be fetched:
    once the node is there, against a world that cannot announce further
    pages for ever, it returns that node with some content and some list of
    children, whatever the readers and the listing of children raise. *)
Theorem read_wiki_returns (W : Type) (self : Env W) (left : W -> nat)
        (fuel : nat) (token : string) (s s1 : State W) (node_info : Node) :
  runs_dry self left ->
  left (world s) < fuel ->
  _get_wiki_node_info self token s = Some (Return node_info, s1) ->
  exists content children s',
    _read_wiki self fuel token s
    = Some (Return (mkWikiResult node_info content children), s').
Proof.
  intros Hdry Hfuel Hinfo.
  assert (Hle : left (world s1) <= left (world s)).
  { unfold _get_wiki_node_info, bind in Hinfo.
    destruct (request self (GetWikiNode token) s) as [[[data|e] s0]|] eqn:E;
      try discriminate Hinfo.
    injection Hinfo as _ <-. exact (request_left _ _ _ _ _ _ _ _ Hdry E). }
  unfold _read_wiki. rewrite (bind_return _ _ _ _ _ Hinfo).
  unfold bind at 1, logger at 1.
  match goal with
  | |- context [read_wiki_content self fuel ?ty ?tok] =>
      destruct (returns_read_wiki_content
                  W self left fuel (left (world s)) ty tok Hdry Hfuel
                  (logged INFO
                          ("Wiki节点: obj_type=" ++ ty
                             ++ ", obj_token=" ++ tok) s1))
        as [content [s2 [Hcontent Hle2]]]; [simpl; lia|]
  end.
  unfold logged in Hcontent. rewrite (bind_return _ _ _ _ _ Hcontent).
  destruct (returns_read_wiki_children
              W self left fuel (left (world s)) node_info token Hdry Hfuel s2)
    as [children [s3 [Hchildren _]]]; [simpl in Hle2; lia|].
  rewrite (bind_return _ _ _ _ _ Hchildren).
  now exists content, children, s3.
Qed.

Lemma read_wiki_returns_witness :
  exists content children s',
    _read_wiki wiki_env 1 "wikcnP" start
    = Some (Return
              (mkWikiResult
                 (platform_node "wikcnP" "docx" "doc_p" true "broken")
                 content children),
            s').
Proof.
  apply (read_wiki_returns nat wiki_env (fun _ => 0) 1 "wikcnP" start
                           (mkState 1 []) _ wiki_runs_dry).
  - simpl. lia.
  - reflexivity.
Defined.

(** X11. Once the space and its root nodes are fetched, [read_wiki_space]
    returns. Without recursion it returns the space, the root nodes as they
    were fetched and their number, and requests nothing more. With
    recursion, against a world that cannot announce further pages for ever,
    it returns the space, the outcome of the traversal of the root nodes
    from depth 0, which has one node for each root node, in their order,
    with the same [node_token], [obj_type], [obj_token], [has_child] and
    [space_id], and the number of root nodes, whatever fails during the
    traversal. *)
Theorem read_wiki_space_roots (W : Type) (self : Env W) (left : W -> nat)
        (fuel : nat) (space_id : string) (s s1 s2 : State W)
        (space_info : option Json) (roots : list Node) :
  runs_dry self left ->
  left (world s) + 6 <= fuel ->
  request self (GetWikiSpace space_id) s = Some (Return space_info, s1) ->
  _get_wiki_space_nodes self fuel space_id None s1
  = Some (Return roots, s2) ->
  read_wiki_space self fuel space_id false s
  = Some (Return (mkSpaceResult (get_default (JObj []) space_info) roots
                                (length roots)),
          s2)
  /\ exists nodes' s',
      read_wiki_space self fuel space_id true s
      = Some (Return (mkSpaceResult (get_default (JObj []) space_info) nodes'
                                    (length roots)),
              s')
      /\ Forall2 same_node roots nodes'
      /\ traversed self space_id 6 roots s2 nodes' s'.
Proof.
  intros Hdry Hfuel Hspace Hroots. split.
  - unfold read_wiki_space.
    rewrite (bind_return _ _ _ _ _ Hspace), (bind_return _ _ _ _ _ Hroots).
    reflexivity.
  - pose proof (request_left _ _ _ _ _ _ _ _ Hdry Hspace) as Hle1.
    assert (Hle2 : left (world s2) <= left (world s1)).
    { destruct (settles_get_wiki_space_nodes
                  W self left Hdry fuel (left (world s1)) space_id None)
        with (s := s1) as [r [s0 [H Hle]]]; [lia | lia |].
      rewrite Hroots in H. injection H as _ <-. exact Hle. }
    destruct (returns_read_wiki_nodes_recursive
                W self left Hdry fuel (left (world s)) space_id roots 0)
      with (s := s2) as [nodes' [s3 [Hrec _]]]; [simpl; lia | lia |].
    pose proof (read_wiki_nodes_recursive_same _ _ _ _ _ _ _ _ _ Hrec)
      as Hsame.
    exists nodes', s3. split; [|split; [exact Hsame|]].
    2: { destruct (read_wiki_nodes_recursive_traversed
                     W self fuel space_id roots 0 s2 _ _ Hrec)
           as [nodes'' [Heq Htraversed]].
         injection Heq as <-. exact Htraversed. }
    unfold read_wiki_space.
    rewrite (bind_return _ _ _ _ _ Hspace), (bind_return _ _ _ _ _ Hroots).
    rewrite (bind_return _ _ _ _ _ Hrec).
    rewrite (Forall2_length Hsame). reflexivity.
Qed.

Lemma read_wiki_space_roots_witness :
  read_wiki_space wiki_env 7 "broken" false start
  = Some (Return
            (mkSpaceResult
               (get_default (JObj []) (Some (JStr "broken")))
               [platform_node "p" "docx" "doc_p" true "broken";
                leaf "q" "broken"]
               (length [platform_node "p" "docx" "doc_p" true "broken";
                        leaf "q" "broken"])),
          mkState 2 [])
  /\ exists nodes' s',
      read_wiki_space wiki_env 7 "broken" true start
      = Some (Return
                (mkSpaceResult
                   (get_default (JObj []) (Some (JStr "broken"))) nodes'
                   (length [platform_node "p" "docx" "doc_p" true "broken";
                            leaf "q" "broken"])),
              s')
      /\ Forall2 same_node
                 [platform_node "p" "docx" "doc_p" true "broken";
                  leaf "q" "broken"]
                 nodes'
      /\ traversed wiki_env "broken" 6
                   [platform_node "p" "docx" "doc_p" true "broken";
                    leaf "q" "broken"]
                   (mkState 2 []) nodes' s'.
Proof.
  apply (read_wiki_space_roots nat wiki_env (fun _ => 0) 7 "broken" start
                               (mkState 1 []) (mkState 2 [])
                               (Some (JStr "broken"))
                               [platform_node "p" "docx" "doc_p" true "broken";
                                leaf "q" "broken"]
                               wiki_runs_dry).
  - simpl. lia.
  - reflexivity.
  - reflexivity.
Defined.

(** ** The metadata of a read *)

Lemma readers_some_inv (W : Type) (self : Env W) (fuel : nat)
      (kind : string) (reader : string -> M W (Content + WikiResult)) :
  readers self fuel kind = Some reader ->
  In kind [TYPE_DOCX; TYPE_DOC; TYPE_SHEET; TYPE_BITABLE; TYPE_WIKI].
Proof.
  intros H.
  destruct (in_dec string_dec kind
                   [TYPE_DOCX; TYPE_DOC; TYPE_SHEET; TYPE_BITABLE; TYPE_WIKI])
    as [Hin|Hnot]; [exact Hin|].
  rewrite readers_none in H by exact Hnot. discriminate H.
Qed.

(** X12. Whenever [read] returns a result, its ["_meta"] holds a type that
    has a reader (the type given by the caller when one was given) and the
    token that was read: what was passed in, or what was extracted from it
    when it begins with "http". *)
Theorem read_meta (W : Type) (self : Env W) (fuel : nat) (x : string)
        (doc_type : option string) (s s' : State W) (r : ReadResult) :
  read self fuel x doc_type s = Some (Return r, s') ->
  In (meta_type r) [TYPE_DOCX; TYPE_DOC; TYPE_SHEET; TYPE_BITABLE; TYPE_WIKI]
  /\ (forall given, truthy doc_type = Some given -> meta_type r = given)
  /\ (if startswith "http" x
      then _extract_token_from_url self x = Return (meta_token r)
      else meta_token r = x).
Proof.
  unfold read. unfold bind at 1.
  match goal with
  | |- match ?m s with _ => _ end = _ -> _ =>
      destruct (m s) as [[[[kind token]|e] s1]|] eqn:Edetected;
      [| discriminate | discriminate]
  end.
  assert (Htoken : if startswith "http" x
                   then _extract_token_from_url self x = Return token
                   else token = x).
  { destruct (truthy doc_type) as [given|].
    - unfold bind, lift, ret in Edetected.
      destruct (startswith "http" x).
      + destruct (_extract_token_from_url self x); [|discriminate].
        now injection Edetected as _ <- _.
      + now injection Edetected as _ <- _.
    - exact (proj1 (detect_type_inv _ _ _ _ _ _ _ Edetected)). }
  assert (Hgiven : forall given, truthy doc_type = Some given -> kind = given).
  { intros given Hg. rewrite Hg in Edetected.
    unfold bind, lift, ret in Edetected.
    destruct (startswith "http" x).
    - destruct (_extract_token_from_url self x); [|discriminate].
      now injection Edetected as <- _ _.
    - now injection Edetected as <- _ _. }
  cbn [fst snd]. unfold bind at 1, logger at 1.
  destruct (readers self fuel kind) as [reader|] eqn:Ereader; [|discriminate].
  unfold bind.
  destruct (reader token _) as [[[result|e] s2]|]; try discriminate.
  intros H. injection H as <- _. simpl.
  split; [exact (readers_some_inv _ _ _ _ _ Ereader)|].
  split; [exact Hgiven | exact Htoken].
Qed.

Lemma read_meta_witness :
  In TYPE_DOCX [TYPE_DOCX; TYPE_DOC; TYPE_SHEET; TYPE_BITABLE; TYPE_WIKI]
  /\ (forall given, truthy (Some TYPE_DOCX) = Some given -> TYPE_DOCX = given)
  /\ _extract_token_from_url wiki_env "https://x.feishu.cn/sheets/doc_a?x=1"
     = Return "doc_a".
Proof.
  apply (read_meta nat wiki_env 1 "https://x.feishu.cn/sheets/doc_a?x=1"
                   (Some TYPE_DOCX) start
                   (mkState 2 [(INFO, "读取文档: type=docx, token=doc_a")])
                   (mkReadResult
                      (inl (DocxContent (JStr "doc_a") [JStr "block"] "*"))
                      TYPE_DOCX "doc_a")).
  reflexivity.
Defined.

(** * Properties of the transport *)

Import Transport.

Section TransportProperties.

Variables N D P : Type.
Variable http : Http N D P.

Lemma truthy_some (x : option string) (t : string) :
  truthy x = Some t -> x = Some t /\ t <> EmptyString.
Proof.
  destruct x as [[|c u]|]; simpl; try discriminate.
  intros H. injection H as <-. split; [reflexivity | discriminate].
Qed.

(** The outcomes of [get_tenant_access_token], by what it finds. *)
Lemma get_tenant_access_token_cases (s : State (Client N)) :
  let c := world s in
  get_tenant_access_token http s
  = match truthy (tenant_access_token c) with
    | Some token => Some (Return token, s)
    | None =>
        let (res, n') :=
          post_token http
                     (base_url c ++ "/auth/v3/tenant_access_token/internal")
                     (app_id c) (app_secret c) (network c) in
        let c' := mkClient (app_id c) (app_secret c)
                           (tenant_access_token c) (base_url c) n' in
        match res with
        | Raise e =>
            Some (Raise ("获取访问令牌失败: " ++ e), mkState c' (log s))
        | Return data =>
            if not_zero (token_code data) then
              Some (Raise ("获取访问令牌失败: " ++ "认证失败: "
                             ++ get_default "Unknown error" (token_msg data)),
                    mkState c' (log s))
            else
              match token_value data with
              | None =>
                  Some (Raise ("获取访问令牌失败: " ++ "'tenant_access_token'"),
                        mkState c' (log s))
              | Some token =>
                  Some (Return token,
                        mkState (mkClient (app_id c) (app_secret c)
                                          (Some token) (base_url c) n')
                                (log s ++ [(INFO, "成功获取访问令牌")])%list)
              end
        end
    end.
Proof.
  unfold get_tenant_access_token, self_tenant_access_token. simpl.
  unfold bind at 1.
  destruct (truthy (tenant_access_token (world s))) as [token|];
    [reflexivity|].
  unfold try_except, requests_post_token, bind at 1, bind at 1, on_network.
  destruct (post_token http _ _ _ (network (world s))) as [[data|e] n'];
    simpl; [|reflexivity].
  destruct (not_zero (token_code data)); [reflexivity|].
  destruct (token_value data) as [token|]; reflexivity.
Qed.

(** X13. An access token that was obtained, and is not the empty string,
    is kept by the client: every later call returns it at once, without
    going to the network and without logging, whatever the network is. *)
Theorem tenant_access_token_is_kept (s s' : State (Client N))
        (token : string) :
  get_tenant_access_token http s = Some (Return token, s') ->
  token <> EmptyString ->
  tenant_access_token (world s') = Some token
  /\ forall http' : Http N D P,
       get_tenant_access_token http' s' = Some (Return token, s').
Proof.
  rewrite get_tenant_access_token_cases. cbv zeta.
  intros Hrun Hne.
  assert (Hkept : tenant_access_token (world s') = Some token).
  { destruct (truthy (tenant_access_token (world s))) as [t|] eqn:Ecache.
    - injection Hrun as <- <-. exact (proj1 (truthy_some _ _ Ecache)).
    - destruct (post_token http _ _ _ (network (world s))) as [[data|e] n'];
        [|discriminate Hrun].
      destruct (not_zero (token_code data)); [discriminate Hrun|].
      destruct (token_value data) as [t|]; [|discriminate Hrun].
      injection Hrun as <- <-. reflexivity. }
  split; [exact Hkept|].
  intros http'. unfold get_tenant_access_token, self_tenant_access_token.
  unfold bind. rewrite Hkept.
  destruct token; [contradiction | reflexivity].
Qed.

(** X14. A failed call for the access token always raises a message that
    begins with the same words, logs nothing and leaves the client without
    a token, so that the next call goes to the network again. *)
Theorem tenant_access_token_failure (s s' : State (Client N)) (e : string) :
  get_tenant_access_token http s = Some (Raise e, s') ->
  (exists cause, e = "获取访问令牌失败: " ++ cause)
  /\ truthy (tenant_access_token (world s')) = None
  /\ log s' = log s.
Proof.
  rewrite get_tenant_access_token_cases. cbv zeta.
  destruct (truthy (tenant_access_token (world s))) as [t|] eqn:Ecache;
    [discriminate|].
  destruct (post_token http _ _ _ (network (world s))) as [[data|e0] n'].
  - destruct (not_zero (token_code data)).
    + intros H. injection H as <- <-. simpl. eauto.
    + destruct (token_value data) as [t|]; [discriminate|].
      intros H. injection H as <- <-. simpl. eauto.
  - intros H. injection H as <- <-. simpl. eauto.
Qed.

Lemma settle_state (outcome : HttpOutcome D) (s s' : State (Client N))
      (r : Result D) :
  settle http outcome s = Some (r, s') -> s' = s.
Proof.
  destruct outcome as [|status|e|code msg data]; simpl.
  - intros H. now injection H as _ <-.
  - destruct (status =? 401)%Z; [intros H; now injection H as _ <-|].
    destruct (status =? 403)%Z; [intros H; now injection H as _ <-|].
    destruct (status =? 404)%Z; intros H; now injection H as _ <-.
  - intros H. now injection H as _ <-.
  - destruct (not_zero code); intros H; now injection H as _ <-.
Qed.

Lemma settle_return (outcome : HttpOutcome D) (s s' : State (Client N))
      (d : D) :
  settle http outcome s = Some (Return d, s') ->
  exists msg data,
    outcome = Body (Some 0%Z) msg data
    /\ d = get_default (empty_payload http) data.
Proof.
  destruct outcome as [|status|e|code msg data]; simpl; try discriminate.
  - destruct (status =? 401)%Z; [discriminate|].
    destruct (status =? 403)%Z; [discriminate|].
    destruct (status =? 404)%Z; discriminate.
  - destruct code as [z|]; simpl; [|discriminate].
    destruct (Z.eqb_spec z 0) as [->|_]; simpl; [|discriminate].
    intros H. injection H as <- _. eauto.
Qed.

(** X15. [_make_request] returns a payload only from a response that was
    sent for with GET or POST, bearing the access token, and whose body has
    the code 0; the payload is the ["data"] of that body, or the empty
    payload when the body has none. *)
Theorem make_request_payload (url method : string) (params : P)
        (s s' : State (Client N)) (d : D) :
  _make_request http url method params s = Some (Return d, s') ->
  exists token s1 verb msg data n',
    get_tenant_access_token http s = Some (Return token, s1)
    /\ verb = str_upper http method
    /\ (verb = "GET" \/ verb = "POST")
    /\ send http verb url ("Bearer " ++ token) params (network (world s1))
       = (Body (Some 0%Z) msg data, n')
    /\ d = get_default (empty_payload http) data.
Proof.
  unfold _make_request. unfold bind at 1.
  destruct (get_tenant_access_token http s) as [[[token|e] s1]|];
    [| discriminate | discriminate].
  assert (Hsent : forall verb,
             verb = str_upper http method ->
             (verb = "GET" \/ verb = "POST") ->
             bind (on_network (send http verb url ("Bearer " ++ token) params))
                  (settle http) s1
             = Some (Return d, s') ->
             exists token0 s0 verb0 msg data n',
               Some (Return token, s1) = Some (Return token0, s0)
               /\ verb0 = str_upper http method
               /\ (verb0 = "GET" \/ verb0 = "POST")
               /\ send http verb0 url ("Bearer " ++ token0) params
                       (network (world s0))
                  = (Body (Some 0%Z) msg data, n')
               /\ d = get_default (empty_payload http) data).
  { intros verb Hverb Hok. unfold bind, on_network.
    destruct (send http verb url ("Bearer " ++ token) params
                   (network (world s1))) as [outcome n'] eqn:Esend.
    intros H. destruct (settle_return _ _ _ _ H) as [msg [data [-> ->]]].
    exists token, s1, verb, msg, data, n'. repeat split; assumption. }
  destruct (String.eqb_spec (str_upper http method) "GET") as [Hget|_].
  - apply (Hsent "GET"); [now symmetry | now left].
  - destruct (String.eqb_spec (str_upper http method) "POST") as [Hpost|_].
    + apply (Hsent "POST"); [now symmetry | now right].
    + discriminate.
Qed.

(** X16. Without an access token there is no request: when the token
    cannot be obtained, [_make_request] raises what the token call raised
    and sends nothing. With a token in the client, [_make_request] does not
    call the token endpoint and leaves the token in place. *)
Theorem make_request_token (url method : string) (params : P) :
  (forall s e s1,
      get_tenant_access_token http s = Some (Raise e, s1) ->
      _make_request http url method params s = Some (Raise e, s1))
  /\ (forall s token post_token',
         truthy (tenant_access_token (world s)) = Some token ->
         _make_request
           (mkHttp post_token' (send http) (str_upper http)
                   (empty_payload http))
           url method params s
         = _make_request http url method params s
         /\ forall r s',
              _make_request http url method params s = Some (r, s') ->
              tenant_access_token (world s')
              = tenant_access_token (world s)).
Proof.
  split.
  - intros s e s1 Htoken. unfold _make_request.
    now rewrite (bind_raise _ _ _ _ _ Htoken).
  - intros s token post_token' Hcache.
    assert (Hget : forall h : Http N D P,
               get_tenant_access_token h s = Some (Return token, s)).
    { intros h. unfold get_tenant_access_token, self_tenant_access_token.
      unfold bind. now rewrite Hcache. }
    split.
    + unfold _make_request.
      now rewrite !(bind_return _ _ _ _ _ (Hget _)).
    + intros r s'. unfold _make_request.
      rewrite (bind_return _ _ _ _ _ (Hget _)).
      assert (Hsend : forall verb,
                 bind (on_network
                         (send http verb url ("Bearer " ++ token) params))
                      (settle http) s
                 = Some (r, s') ->
                 tenant_access_token (world s')
                 = tenant_access_token (world s)).
      { intros verb. unfold bind, on_network.
        destruct (send http verb url ("Bearer " ++ token) params
                       (network (world s))) as [o n'].
        intros H. apply settle_state in H. now subst s'. }
      destruct (str_upper http method =? "GET"); [exact (Hsend _)|].
      destruct (str_upper http method =? "POST"); [exact (Hsend _)|].
      unfold bind, raise. intros H. now injection H as _ <-.
Qed.

End TransportProperties.

Lemma tenant_access_token_is_kept_witness :
  tenant_access_token (world warm) = Some "t-1"
  /\ forall http' : Http nat string unit,
       get_tenant_access_token http' warm = Some (Return "t-1", warm).
Proof.
  apply (tenant_access_token_is_kept nat string unit counting fresh warm).
  - reflexivity.
  - discriminate.
Defined.

Lemma tenant_access_token_failure_witness :
  (exists cause,
      "获取访问令牌失败: 认证失败: invalid param"
      = "获取访问令牌失败: " ++ cause)
  /\ truthy (tenant_access_token
               (world (mkState (init "cli_a" "secret" 1) []))) = None
  /\ log (mkState (init "cli_a" "secret" 1) []) = log fresh.
Proof.
  apply (tenant_access_token_failure nat string unit refusing fresh).
  reflexivity.
Defined.

Lemma make_request_payload_witness :
  exists token s1 verb msg data n',
    get_tenant_access_token counting fresh = Some (Return token, s1)
    /\ verb = str_upper counting "GET"
    /\ (verb = "GET" \/ verb = "POST")
    /\ send counting verb "https://x/y" ("Bearer " ++ token) tt
            (network (world s1))
       = (Body (Some 0%Z) msg data, n')
    /\ "https://x/y" = get_default (empty_payload counting) data.
Proof.
  apply (make_request_payload
           nat string unit counting "https://x/y" "GET" tt fresh
           (mkState (mkClient "cli_a" "secret" (Some "t-1")
                              "https://open.feishu.cn/open-apis" 2)
                    [(INFO, "成功获取访问令牌")])).
  reflexivity.
Defined.

Lemma make_request_token_witness :
  _make_request refusing "https://x/y" "GET" tt fresh
  = Some (Raise "获取访问令牌失败: 认证失败: invalid param",
          mkState (init "cli_a" "secret" 1) [])
  /\ _make_request refusing "https://x/y" "GET" tt warm
     = _make_request counting "https://x/y" "GET" tt warm.
Proof.
  split.
  - apply (proj1 (make_request_token nat string unit refusing
                                     "https://x/y" "GET" tt)).
    reflexivity.
  - apply (proj1 (proj2 (make_request_token nat string unit counting
                                            "https://x/y" "GET" tt)
                        warm "t-1" (post_token refusing) eq_refl)).
Defined.

(** Two requests in a row from a new client: the network is called three
    times, once for the token and once for each request. *)
Example two_requests :
  (_make_request counting "https://x/a" "GET" tt ;;
   _make_request counting "https://x/b" "get" tt) fresh
  = Some (Return "https://x/b",
          mkState (mkClient "cli_a" "secret" (Some "t-1")
                            "https://open.feishu.cn/open-apis" 3)
                  [(INFO, "成功获取访问令牌")]).
Proof. reflexivity. Qed.

(** * Properties of the rendering of blocks *)

Lemma append_empty_r (s : string) : s ++ EmptyString = s.
Proof. induction s as [|c s IH]; simpl; [reflexivity | now rewrite IH]. Qed.

Lemma append_assoc (a b c : string) : (a ++ b) ++ c = a ++ (b ++ c).
Proof. induction a as [|d a IH]; simpl; [reflexivity | now rewrite IH]. Qed.

Lemma concat_cons (sep x : string) (l : list string) :
  l <> [] -> String.concat sep (x :: l) = x ++ sep ++ String.concat sep l.
Proof. destruct l; [contradiction | reflexivity]. Qed.

Lemma concat_app (sep : string) (l1 l2 : list string) :
  l1 <> [] -> l2 <> [] ->
  String.concat sep (l1 ++ l2)
  = String.concat sep l1 ++ sep ++ String.concat sep l2.
Proof.
  intros H1 H2. induction l1 as [|x l1 IH]; [contradiction|].
  destruct l1 as [|y l1].
  - simpl app. now rewrite concat_cons.
  - change (((x :: y :: l1) ++ l2)%list) with (x :: ((y :: l1) ++ l2))%list.
    rewrite concat_cons by discriminate.
    rewrite IH by discriminate.
    rewrite (concat_cons sep x (y :: l1)) by discriminate.
    now rewrite !append_assoc.
Qed.

Lemma concat_empty_app (l1 l2 : list string) :
  String.concat "" (l1 ++ l2) = String.concat "" l1 ++ String.concat "" l2.
Proof.
  destruct l1 as [|x l1]; [reflexivity|].
  destruct l2 as [|y l2]; [now rewrite app_nil_r, append_empty_r|].
  now rewrite concat_app by discriminate.
Qed.

Lemma extract_elements_loop_acc (elements : list Element)
      (text_parts : list string) :
  extract_elements_loop elements text_parts
  = (text_parts ++ extract_elements_loop elements [])%list.
Proof.
  revert text_parts. induction elements as [|element rest IH];
    intros text_parts; simpl.
  - now rewrite app_nil_r.
  - rewrite IH. symmetry. rewrite IH. symmetry.
    destruct (text_run element) as [content|];
      [now rewrite app_assoc|].
    destruct (mention_user element) as [name|];
      [now rewrite app_assoc|].
    destruct (mention_doc element) as [title|];
      [now rewrite app_assoc | reflexivity].
Qed.

(** X17. The text of a run of elements is the text of its first part
    followed by the text of the rest, with nothing in between; an element
    that has none of the three keys adds nothing. *)
Theorem extract_text_from_elements_app :
  (forall elements1 elements2,
      _extract_text_from_elements (elements1 ++ elements2)
      = _extract_text_from_elements elements1
          ++ _extract_text_from_elements elements2)
  /\ (forall elements1 elements2,
         _extract_text_from_elements
           (elements1 ++ mkElement None None None :: elements2)
         = _extract_text_from_elements (elements1 ++ elements2)).
Proof.
  assert (Happ : forall elements1 elements2,
             _extract_text_from_elements (elements1 ++ elements2)
             = _extract_text_from_elements elements1
                 ++ _extract_text_from_elements elements2).
  { intros elements1 elements2. unfold _extract_text_from_elements.
    rewrite <- concat_empty_app. f_equal.
    induction elements1 as [|element rest IH]; [reflexivity|].
    simpl. rewrite extract_elements_loop_acc.
    rewrite (extract_elements_loop_acc rest). rewrite IH.
    now rewrite app_assoc. }
  split; [exact Happ|].
  intros elements1 elements2. rewrite !Happ. reflexivity.
Qed.

Lemma extract_block_acc (block : Block) (text_parts : list string) :
  extract_block block text_parts
  = (text_parts ++ extract_block block [])%list.
Proof.
  unfold extract_block.
  destruct (lookup Z.eqb _ type_handlers) as [[key prefix]|].
  - destruct (nonempty _); [reflexivity | now rewrite app_nil_r].
  - destruct (_ =? 23)%Z; [reflexivity|].
    destruct (_ =? 27)%Z; [reflexivity | now rewrite app_nil_r].
Qed.

Lemma extract_blocks_loop_acc (blocks : list Block)
      (text_parts : list string) :
  extract_blocks_loop blocks text_parts
  = (text_parts ++ extract_blocks_loop blocks [])%list.
Proof.
  revert text_parts. induction blocks as [|block rest IH];
    intros text_parts; simpl.
  - now rewrite app_nil_r.
  - rewrite IH. symmetry. rewrite IH. symmetry.
    rewrite extract_block_acc. now rewrite app_assoc.
Qed.

Lemma extract_blocks_loop_app (blocks1 blocks2 : list Block) :
  extract_blocks_loop (blocks1 ++ blocks2) []
  = (extract_blocks_loop blocks1 [] ++ extract_blocks_loop blocks2 [])%list.
Proof.
  induction blocks1 as [|block rest IH]; [reflexivity|].
  simpl. rewrite extract_blocks_loop_acc.
  rewrite (extract_blocks_loop_acc rest). rewrite IH.
  now rewrite app_assoc.
Qed.

(** X18. The text of a document is made block after block: the text of
    two runs of blocks put together is the text of the first, a line break,
    and the text of the second; and when one of the two runs yields no line,
    it is the text of the other, without a line break. *)
Theorem extract_text_from_blocks_app (blocks1 blocks2 : list Block) :
  (extract_blocks_loop blocks1 [] <> [] ->
   extract_blocks_loop blocks2 [] <> [] ->
   extract_text_from_blocks (blocks1 ++ blocks2)
   = extract_text_from_blocks blocks1 ++ newline
       ++ extract_text_from_blocks blocks2)
  /\ (extract_blocks_loop blocks1 [] = [] ->
      extract_text_from_blocks (blocks1 ++ blocks2)
      = extract_text_from_blocks blocks2)
  /\ (extract_blocks_loop blocks2 [] = [] ->
      extract_text_from_blocks (blocks1 ++ blocks2)
      = extract_text_from_blocks blocks1).
Proof.
  unfold extract_text_from_blocks. rewrite extract_blocks_loop_app.
  split; [|split].
  - intros H1 H2. now apply concat_app.
  - intros ->. reflexivity.
  - intros ->. now rewrite app_nil_r.
Qed.

(** X19. A block leaves no trace in the text when its type is not one that
    is rendered (an unknown type, or no type at all), and also when its type
    is one of the text types but the block has no text body: no line is
    made of a prefix alone. *)
Theorem extract_text_from_blocks_skips (blocks1 blocks2 : list Block)
        (block : Block) :
  (lookup Z.eqb (get_default 0%Z (get_block_type block)) type_handlers = None
   /\ get_default 0%Z (get_block_type block) <> 23%Z
   /\ get_default 0%Z (get_block_type block) <> 27%Z)
  \/ (lookup Z.eqb (get_default 0%Z (get_block_type block)) type_handlers
      <> None
      /\ block_bodies block = []) ->
  extract_text_from_blocks (blocks1 ++ block :: blocks2)
  = extract_text_from_blocks (blocks1 ++ blocks2).
Proof.
  intros Hsilent.
  assert (Hnone : extract_blocks_loop [block] [] = []).
  { simpl. unfold extract_block.
    destruct Hsilent as [[Hunknown [H23 H27]] | [Hknown Hbodies]].
    - rewrite Hunknown.
      destruct (Z.eqb_spec (get_default 0%Z (get_block_type block)) 23);
        [contradiction|].
      destruct (Z.eqb_spec (get_default 0%Z (get_block_type block)) 27);
        [contradiction | reflexivity].
    - destruct (lookup Z.eqb _ type_handlers) as [[key prefix]|];
        [|contradiction].
      rewrite Hbodies. reflexivity. }
  unfold extract_text_from_blocks.
  change (block :: blocks2) with ([block] ++ blocks2)%list.
  rewrite !extract_blocks_loop_app, Hnone. reflexivity.
Qed.

Lemma extract_text_from_blocks_skips_witness :
  extract_text_from_blocks
    [mkBlock (Some 3%Z) [("heading1", [mkElement (Some (Some "Plan")) None
                                                 None])];
     mkBlock (Some 4%Z) [];
     mkBlock (Some 2%Z) [("text", [mkElement (Some (Some "Hi ")) None None;
                                   mkElement None (Some None) None])]]
  = extract_text_from_blocks
      [mkBlock (Some 3%Z) [("heading1", [mkElement (Some (Some "Plan")) None
                                                   None])];
       mkBlock (Some 2%Z) [("text", [mkElement (Some (Some "Hi ")) None None;
                                     mkElement None (Some None) None])]].
Proof.
  apply (extract_text_from_blocks_skips
           [mkBlock (Some 3%Z)
                    [("heading1", [mkElement (Some (Some "Plan")) None None])]]
           [mkBlock (Some 2%Z)
                    [("text", [mkElement (Some (Some "Hi ")) None None;
                               mkElement None (Some None) None])]]
           (mkBlock (Some 4%Z) [])).
  right. split; [discriminate | reflexivity].
Defined.

(** A small document: a heading, an empty heading, a paragraph with a
    mention, a table, a block without a type, and a code block. *)
Example rendered_document :
  extract_text_from_blocks
    [mkBlock (Some 3%Z) [("heading1", [mkElement (Some (Some "Plan")) None
                                                 None])];
     mkBlock (Some 4%Z) [];
     mkBlock (Some 2%Z) [("text", [mkElement (Some (Some "Hi ")) None None;
                                   mkElement None (Some None) None])];
     mkBlock (Some 23%Z) [];
     mkBlock None [("text", [mkElement (Some (Some "lost")) None None])];
     mkBlock (Some 13%Z) [("text", [mkElement (Some (Some "x = 1")) None
                                              None])]]
  = "# Plan" ++ newline ++ "Hi @user" ++ newline ++ "[表格]" ++ newline
      ++ "```" ++ newline ++ "x = 1".
Proof. reflexivity. Qed.
